(** * pyvrs: index, filter and search layer of the VRS reader

    A shallow embedding of the Python package [pyvrs] (files [utils.py],
    [slice.py], [reader.py], [filter.py]) together with the few pieces of the
    Python standard library the package relies on (list indexing and slicing,
    [bisect.bisect], [fnmatch.fnmatch]).

    Conventions.
    - Python [int] is [Z]; positions inside a list are [nat] once they are
      known to be in range.
    - Python [float] timestamps are only compared, passed around and, for
      [time_range], subtracted; they are modelled by [Q].
    - A Python [set] of strings is a [gset string], a [dict] with string keys
      a [gmap string V]; a [dict] that is iterated in insertion order is a
      list of key/value pairs.
    - A call that may raise returns a [result]; the exception classes that
      occur are the constructors of [exn].
    - The record store behind the readers (the extension module
      [vrsbindings]) is a record of the methods the Python layer calls
      ([Bindings.Reader]); [Catalog.store] is one such store, over an explicit
      list of records, that follows the contract the specification gives for
      the store.
    - [Classes] records which class defines which method, for the questions
      that depend on what a class does not define. *)

From Stdlib Require Import ZArith QArith Qabs Lia Ascii String.
From stdpp Require Import gmap strings list fin_maps sorting.

Local Open Scope Z_scope.

(** ** Exceptions and results *)

Inductive exn : Set :=
  | IndexError
  | KeyError
  | ValueError
  | TypeError
  | AssertionError
  | AttributeError
  | NotImplementedError
  | TimestampNotFoundError
  | StreamNotFoundError
  | RuntimeError.

Inductive result (A : Type) : Type :=
  | Ok (a : A)
  | Raise (e : exn).
Arguments Ok {A} a.
Arguments Raise {A} e.

#[global] Instance exn_eq_dec : EqDecision exn.
Proof. solve_decision. Defined.

#[global] Instance result_ret : MRet result := λ A, @Ok A.
#[global] Instance result_bind : MBind result := λ A B f m,
  match m with
  | Ok a => f a
  | Raise e => Raise e
  end.

Definition succeeds {A} (r : result A) : Prop := ∃ a, r = Ok a.

(** ** Python built-ins *)

Module Py.

(** [l[i]] for a list (or a [range], which indexes like the list of its
    elements): a negative [i] counts from the end, anything outside
    [-len(l) <= i < len(l)] raises [IndexError]. *)
Definition getitem {A} (l : list A) (i : Z) : result A :=
  let n := Z.of_nat (length l) in
  let j := if i <? 0 then i + n else i in
  if (j <? 0) || (n <=? j) then Raise IndexError
  else match l !! Z.to_nat j with
       | Some x => Ok x
       | None => Raise IndexError
       end.

(** A [slice] object: each of [start], [stop], [step] may be [None]. *)
Record slice : Set := Slice { start : option Z; stop : option Z; step : option Z }.

(** [slice.indices(len)] (CPython's [PySlice_Unpack] followed by
    [PySlice_AdjustIndices]): a zero step raises [ValueError], negative bounds
    are shifted by [len], and whatever is still out of range is clamped. *)
Definition clamp_bound (len : Z) (neg_step : bool) (b : Z) : Z :=
  if b <? 0 then
    let b' := b + len in
    if b' <? 0 then (if neg_step then -1 else 0) else b'
  else if len <=? b then (if neg_step then len - 1 else len)
  else b.

Definition indices (len : Z) (s : slice) : result (Z * Z * Z) :=
  let st := default 1 (step s) in
  if st =? 0 then Raise ValueError
  else
    let neg := st <? 0 in
    let lo := match start s with
              | Some b => clamp_bound len neg b
              | None => if neg then len - 1 else 0
              end in
    let hi := match stop s with
              | Some b => clamp_bound len neg b
              | None => if neg then -1 else len
              end in
    Ok (lo, hi, st).

Definition slice_length (lo hi st : Z) : nat :=
  if st <? 0 then
    (if hi <? lo then Z.to_nat ((lo - hi - 1) / (- st) + 1) else 0%nat)
  else
    (if lo <? hi then Z.to_nat ((hi - lo - 1) / st + 1) else 0%nat).

(** [l[s]] for a slice [s]: the elements at positions [lo], [lo + st],
    [lo + 2 st], ... *)
Definition getslice {A} (l : list A) (s : slice) : result (list A) :=
  '(lo, hi, st) ← indices (Z.of_nat (length l)) s;
  Ok (omap (λ k : nat, l !! Z.to_nat (lo + Z.of_nat k * st))
           (seq 0 (slice_length lo hi st))).

(** [range(n)], as the list of its elements. *)
Definition range (n : Z) : list Z := seqZ 0 n.

(** [bisect.bisect] (an alias of [bisect_right]) from the standard library:

<<
    lo, hi = 0, len(a)
    while lo < hi:
        mid = (lo + hi) // 2
        if x < a[mid]: hi = mid
        else: lo = mid + 1
    return lo
>>

    The loop runs at most [hi - lo] times, which bounds the fuel. *)
Fixpoint bisect_loop (fuel : nat) (a : list Z) (x : Z) (lo hi : nat) : nat :=
  match fuel with
  | O => lo
  | S fuel' =>
      if (lo <? hi)%nat then
        let mid := ((lo + hi) / 2)%nat in
        match a !! mid with
        | Some am =>
            if x <? am then bisect_loop fuel' a x lo mid
            else bisect_loop fuel' a x (S mid) hi
        | None => lo
        end
      else lo
  end.

Definition bisect (a : list Z) (x : Z) : Z :=
  Z.of_nat (bisect_loop (length a) a x 0 (length a)).

(** [fnmatch.fnmatch(name, pat)] from the standard library, on a POSIX system
    (where [os.path.normcase] is the identity). [fnmatch.translate] turns the
    pattern into a regular expression that must match the whole name; here it
    turns the pattern into a list of tokens with the same meaning:
    ['*'] matches any run of characters (consecutive stars are compressed into
    one), ['?'] any one character, ['[seq]'] any one character of [seq],
    ['[!seq]'] any one character not in [seq], a ['['] that is never closed
    stands for itself, and every other character stands for itself.  Inside a
    set, [a-b] is the range from [a] to [b], empty when [b] precedes [a]. *)
Inductive glob_token : Set :=
  | GStar
  | GAny
  | GLit (c : ascii)
  | GSet (negated : bool) (items : list (ascii * ascii)).

Fixpoint index_of (c : ascii) (l : list ascii) : option nat :=
  match l with
  | [] => None
  | d :: l' => if Ascii.eqb c d then Some 0%nat else S <$> index_of c l'
  end.

(** The position, in the text after an opening bracket, of the bracket that
    closes the set: a leading ['!'] and a [']'] right after it belong to the
    set. *)
Definition class_end (body : list ascii) : option nat :=
  let j0 := match body with
            | c :: _ => if Ascii.eqb c "!" then 1%nat else 0%nat
            | [] => 0%nat
            end in
  let j1 := match drop j0 body with
            | c :: _ => if Ascii.eqb c "]" then S j0 else j0
            | [] => j0
            end in
  (λ k, (j1 + k)%nat) <$> index_of "]" (drop j1 body).

Fixpoint set_items (cs : list ascii) : list (ascii * ascii) :=
  match cs with
  | [] => []
  | c :: rest =>
      match rest with
      | h :: d :: rest' =>
          if Ascii.eqb h "-" then (c, d) :: set_items rest'
          else (c, c) :: set_items rest
      | _ => (c, c) :: set_items rest
      end
  end.

Definition set_token (stuff : list ascii) : glob_token :=
  match stuff with
  | c :: stuff' =>
      if Ascii.eqb c "!" then GSet true (set_items stuff')
      else GSet false (set_items stuff)
  | [] => GSet false []
  end.

(** [translate skip pat]: the tokens of [pat] after its first [skip]
    characters, which belong to a set that was already translated. *)
Fixpoint translate (skip : nat) (pat : list ascii) : list glob_token :=
  match pat with
  | [] => []
  | c :: rest =>
      match skip with
      | S k => translate k rest
      | O =>
          if Ascii.eqb c "*" then
            match translate 0 rest with
            | GStar :: r => GStar :: r
            | r => GStar :: r
            end
          else if Ascii.eqb c "?" then GAny :: translate 0 rest
          else if Ascii.eqb c "[" then
            match class_end rest with
            | None => GLit "[" :: translate 0 rest
            | Some j => set_token (take j rest) :: translate (S j) rest
            end
          else GLit c :: translate 0 rest
      end
  end.

Definition in_range (c : ascii) (r : ascii * ascii) : bool :=
  (nat_of_ascii (fst r) <=? nat_of_ascii c)%nat
  && (nat_of_ascii c <=? nat_of_ascii (snd r))%nat.

Definition token_accepts (t : glob_token) (c : ascii) : bool :=
  match t with
  | GStar => false
  | GAny => true
  | GLit d => Ascii.eqb c d
  | GSet negated items => xorb negated (existsb (in_range c) items)
  end.

Fixpoint glob_match (toks : list glob_token) (s : list ascii) : bool :=
  match toks with
  | [] => match s with [] => true | _ :: _ => false end
  | GStar :: toks' =>
      (fix star (s : list ascii) : bool :=
         glob_match toks' s
         || match s with [] => false | _ :: s' => star s' end) s
  | t :: toks' =>
      match s with
      | [] => false
      | c :: s' => token_accepts t c && glob_match toks' s'
      end
  end.

Definition fnmatch (name pat : string) : bool :=
  glob_match (translate 0 (list_ascii_of_string pat)) (list_ascii_of_string name).

(** What the library documents for a pattern, as a relation. *)
Inductive glob_matches : list glob_token → list ascii → Prop :=
  | gm_nil : glob_matches [] []
  | gm_star toks s1 s2 :
      glob_matches toks s2 → glob_matches (GStar :: toks) (s1 ++ s2)
  | gm_one t toks c s :
      token_accepts t c = true → glob_matches toks s →
      glob_matches (t :: toks) (c :: s).

(** Iterating over an object that has [__getitem__] and no [__iter__] of its
    own (the readers), or that inherits [__iter__] from
    [collections.abc.Sequence] (the slices): the items at 0, 1, 2, ... until
    [__getitem__] raises [IndexError], which ends the iteration; any other
    exception escapes.  The result is what [list(x)] returns.  For a view of
    [n] records the loop ends at position [n] at the latest, which bounds the
    fuel. *)
Fixpoint iterate {A} (fuel : nat) (getitem : Z → result A) (i : Z) : result (list A) :=
  match fuel with
  | O => Ok []
  | S fuel' =>
      match getitem i with
      | Ok v => rest ← iterate fuel' getitem (i + 1); Ok (v :: rest)
      | Raise IndexError => Ok []
      | Raise e => Raise e
      end
  end.

End Py.

(** ** utils.py *)

Module Utils.

(** [_filter_set_on_condition(s, items, cond_func)]: the elements [a] of [s]
    for which [cond_func(a, b)] holds for some [b] of [items]; the inner loop
    stops at the first such [b]. *)
Definition _filter_set_on_condition `{Countable T} (s : gset T) (items : list T)
    (cond_func : T → T → bool) : gset T :=
  foldr (λ a filtered, if existsb (cond_func a) items then {[a]} ∪ filtered else filtered)
        ∅ (elements s).

Definition filter_by_stream_ids (available_stream_ids : gset string)
    (regex_stream_ids : list string) : gset string :=
  _filter_set_on_condition available_stream_ids regex_stream_ids Py.fnmatch.

Definition filter_by_record_type (available_record_types : gset string)
    (requested_record_types : list string) : gset string :=
  _filter_set_on_condition available_record_types requested_record_types String.eqb.

(** Python's [s * n] on strings. *)
Fixpoint repeat_string (s : string) (n : nat) : string :=
  match n with
  | O => EmptyString
  | S n' => s +:+ repeat_string s n'
  end.

(** [name + ("<" * i) + type_ + (">" * i)] *)
Definition bracketed (name type_ : string) (i : nat) : string :=
  name +:+ repeat_string "<" i +:+ type_ +:+ repeat_string ">" i.

(** The [while True] loop of [_unique_string_for_key], started at [i].  The
    keys it tries are pairwise different, so it stops after at most
    [len(dict_)] rejected keys, which bounds the fuel. *)
Fixpoint unique_loop {V} (fuel : nat) (name type_ : string) (dict_ : gmap string V)
    (i : nat) : string :=
  let new_key := bracketed name type_ i in
  match dict_ !! new_key with
  | None => new_key
  | Some _ =>
      match fuel with
      | O => new_key
      | S fuel' => unique_loop fuel' name type_ dict_ (S i)
      end
  end.

Definition _unique_string_for_key {V} (name type_ : string) (dict_ : gmap string V) : string :=
  unique_loop (size dict_) name type_ dict_ 1.

(** The three local variables of [stringify_metadata_keys]. *)
Record locals (V : Type) : Type := Locals {
  filtered : gmap string V;
  ambiguous_names : gset string;
  removed_types : gmap string string
}.
Arguments Locals {V} _ _ _.
Arguments filtered {V} _.
Arguments ambiguous_names {V} _.
Arguments removed_types {V} _.

(** One iteration of the [for] loop.  [dict.pop(name)] raises [KeyError] when
    [name] is not a key. *)
Definition stringify_step {V} (st : locals V) (entry : string * string * V)
    : result (locals V) :=
  let '(name, type_, value) := entry in
  if decide (name ∈ ambiguous_names st) then
    Ok (Locals (<[_unique_string_for_key name type_ (filtered st) := value]> (filtered st))
               (ambiguous_names st) (removed_types st))
  else
    match filtered st !! name with
    | Some old_value =>
        let filtered1 := delete name (filtered st) in
        match removed_types st !! name with
        | None => Raise KeyError
        | Some old_type =>
            let removed1 := delete name (removed_types st) in
            let filtered2 :=
              <[_unique_string_for_key name old_type filtered1 := old_value]> filtered1 in
            let filtered3 :=
              <[_unique_string_for_key name type_ filtered2 := value]> filtered2 in
            Ok (Locals filtered3 ({[name]} ∪ ambiguous_names st) removed1)
        end
    | None =>
        Ok (Locals (<[name := value]> (filtered st)) (ambiguous_names st)
                   (<[name := type_]> (removed_types st)))
    end.

Fixpoint stringify_loop {V} (st : locals V) (items : list (string * string * V))
    : result (locals V) :=
  match items with
  | [] => Ok st
  | entry :: items' => st' ← stringify_step st entry; stringify_loop st' items'
  end.

(** [stringify_metadata_keys(metadata_dict)]; the argument is the list of the
    dictionary's items in iteration (insertion) order, so its keys are
    pairwise different. *)
Definition stringify_metadata_keys {V} (metadata_dict : list (string * string * V))
    : result (gmap string V) :=
  st ← stringify_loop (Locals ∅ ∅ ∅) metadata_dict; Ok (filtered st).

(** Python's [s.rjust(width)], which pads with spaces on the left and never
    cuts, and [s.center(width, fillchar)], which CPython pads with
    [marg // 2 + (marg & width & 1)] characters on the left, where [marg] is
    what is missing. *)
Definition rjust (s : string) (width : nat) : string :=
  repeat_string " " (width - String.length s) +:+ s.

Definition center (s : string) (width : nat) (fillchar : string) : string :=
  let marg := (width - String.length s)%nat in
  let left := (marg / 2 + (if Nat.odd marg && Nat.odd width then 1 else 0))%nat in
  repeat_string fillchar left +:+ s +:+ repeat_string fillchar (marg - left).

(** [sep.join(l)] *)
Fixpoint join (sep : string) (l : list string) : string :=
  match l with
  | [] => EmptyString
  | [s] => s
  | s :: l' => s +:+ sep +:+ join sep l'
  end.

(** [sorted(l)] on strings, which Python compares character by character by
    code, a proper prefix coming first. *)
Definition sorted (l : list string) : list string :=
  @merge_sort string (λ a b, String.leb a b = true)
    (λ a b, decide (String.leb a b = true)) l.

(** The line feed. *)
Definition newline : string := String "010" EmptyString.

(** [tags_to_justified_table_str(tags)], for tags whose values are strings
    (the file tags). *)
Definition tags_to_justified_table_str (tags : gmap string string) : string :=
  if decide (size tags = 0%nat) then "File contains no file tags."
  else
    let keys := (map_to_list tags).*1 in
    let tag_width := max_list (String.length <$> keys) in
    let table_content :=
      omap (λ k, v ← tags !! k; Some (rjust k tag_width +:+ "| " +:+ v)) (sorted keys) in
    let table_width := max_list (String.length <$> table_content) in
    join newline
      (center " FILE TAGS " table_width "-"
         :: table_content ++ [repeat_string "-" table_width]).

End Utils.

(** ** The record store ([vrsbindings])

    The package reaches the file through an object of the extension module
    [vrsbindings] ([Reader], [MultiReader], ...).  The Python layer only calls
    its methods, so the store is a record of the methods that are called. *)

Module Bindings.

(** What the Python layer reads off a decoded record. *)
Record Record_ : Type := MkRecord {
  record_index : Z;
  stream_id : string;
  record_type : string;
  timestamp : Q
}.

(** The values of the enumeration [ImageConversion] that the tests use. *)
Inductive ImageConversion : Set := OFF | NORMALIZE | NORMALIZE_GREY8.

Record Reader : Type := MkReader {
  get_available_records_size : Z;
  get_available_record_types : gset string;
  get_available_stream_ids : gset string;
  get_min_available_timestamp : Q;
  get_max_available_timestamp : Q;
  get_timestamp_for_index : Z → result Q;
  get_record_index_by_time : string → Q → result Z;
  get_nearest_record_index_by_time : Q → Q → string → result Z;
  get_prev_index : string → string → Z → result Z;
  get_next_index : string → string → Z → result Z;
  read_record : Z → result Record_;
  regenerate_enabled_indices : gset string → gset string → Q → Q → list Z
}.

End Bindings.

(** ** record.py *)

Module VRSRecord.

Record t : Type := VRSRecord { _record : Bindings.Record_ }.

Definition record_type (self : t) : string := Bindings.record_type (_record self).
Definition record_index (self : t) : Z := Bindings.record_index (_record self).
Definition stream_id (self : t) : string := Bindings.stream_id (_record self).
Definition timestamp (self : t) : Q := Bindings.timestamp (_record self).

End VRSRecord.

(** ** slice.py *)

Module VRSReaderSlice.

Record t : Type := VRSReaderSlice {
  _path : string;
  _reader : Bindings.Reader;
  _indices : list Z
}.

(** The argument of [__getitem__]: an [int] or a [slice]. *)
Inductive key : Set :=
  | Int (i : Z)
  | Slice (s : Py.slice).

(** What [__getitem__] returns: a [VRSRecord] or a [VRSReaderSlice]. *)
Inductive item : Type :=
  | ARecord (r : VRSRecord.t)
  | ASlice (s : t).

Definition index_or_slice_records (path : string) (reader : Bindings.Reader)
    (vrs_indices : list Z) (indices : key) : result item :=
  match indices with
  | Int i =>
      absolute ← Py.getitem vrs_indices i;
      record ← Bindings.read_record reader absolute;
      Ok (ARecord (VRSRecord.VRSRecord record))
  | Slice s =>
      sub ← Py.getslice vrs_indices s;
      Ok (ASlice (VRSReaderSlice path reader sub))
  end.

Definition __getitem__ (self : t) (i : key) : result item :=
  index_or_slice_records (_path self) (_reader self) (_indices self) i.

Definition __len__ (self : t) : Z := Z.of_nat (length (_indices self)).

(** [__iter__], inherited from [Sequence]. *)
Definition __iter__ (self : t) : result (list item) :=
  Py.iterate (S (length (_indices self))) (λ i, __getitem__ self (Int i)) 0.

End VRSReaderSlice.

(** ** filter.py: the dataclass [RecordFilter] *)

Module RecordFilter.

Record t : Type := RecordFilter {
  record_types : gset string;
  stream_ids : gset string;
  min_timestamp : Q;
  max_timestamp : Q
}.

End RecordFilter.

(** ** reader.py: [VRSReader] *)

Module VRSReader.

Record t : Type := MkVRSReader {
  _path : string;
  _reader : Bindings.Reader;
  _n_records : Z;
  _record_types : gset string;
  _stream_ids : gset string;
  _min_timestamp : Q;
  _max_timestamp : Q;
  _auto_read_configuration_records : bool
}.

(** [__init__], once the store has opened the file at [path]. *)
Definition __init__ (path : string) (store : Bindings.Reader)
    (auto_read_configuration_records : bool) : t :=
  {| _path := path;
     _reader := store;
     _n_records := Bindings.get_available_records_size store;
     _record_types := Bindings.get_available_record_types store;
     _stream_ids := Bindings.get_available_stream_ids store;
     _min_timestamp := Bindings.get_min_available_timestamp store;
     _max_timestamp := Bindings.get_max_available_timestamp store;
     _auto_read_configuration_records := auto_read_configuration_records |}.

Definition n_records (self : t) : Z := _n_records self.
Definition record_types (self : t) : gset string := _record_types self.
Definition stream_ids (self : t) : gset string := _stream_ids self.
Definition min_timestamp (self : t) : Q := _min_timestamp self.
Definition max_timestamp (self : t) : Q := _max_timestamp self.
Definition time_range (self : t) : Q := max_timestamp self - min_timestamp self.
Definition __len__ (self : t) : Z := n_records self.

Definition get_timestamp_for_index (self : t) (index : Z) : result Q :=
  if n_records self <=? index then Raise IndexError
  else Bindings.get_timestamp_for_index (_reader self) index.

(** The same call as a step on the object, giving the result and the object
    after the call: the body assigns nothing to [self]. *)
Definition call_get_timestamp_for_index (self : t) (index : Z) : result Q * t :=
  (get_timestamp_for_index self index, self).

(** The truth value of an optional float: [None] and [0.0] are false. *)
Definition truthy (epsilon : option Q) : bool :=
  match epsilon with
  | Some e => negb (Qeq_bool e 0)
  | None => false
  end.

Definition get_record_index_by_time (self : t) (stream_id : string) (timestamp : Q)
    (epsilon : option Q) : result Z :=
  if decide (stream_id ∈ stream_ids self) then
    if truthy epsilon then
      Bindings.get_nearest_record_index_by_time (_reader self) timestamp
        (default 0%Q epsilon) stream_id
    else Bindings.get_record_index_by_time (_reader self) stream_id timestamp
  else Raise AssertionError.

Definition read_prev_record (self : t) (stream_id record_type : string) (index : Z)
    : result (option VRSRecord.t) :=
  match Bindings.get_prev_index (_reader self) stream_id record_type index with
  | Raise IndexError => Ok None
  | Raise e => Raise e
  | Ok prev_index =>
      record ← Bindings.read_record (_reader self) prev_index;
      Ok (Some (VRSRecord.VRSRecord record))
  end.

Definition read_next_record (self : t) (stream_id record_type : string) (index : Z)
    : result (option VRSRecord.t) :=
  match Bindings.get_next_index (_reader self) stream_id record_type index with
  | Raise IndexError => Ok None
  | Raise e => Raise e
  | Ok next_index =>
      record ← Bindings.read_record (_reader self) next_index;
      Ok (Some (VRSRecord.VRSRecord record))
  end.

Definition _read_record (self : t) (indices : list Z) (i : VRSReaderSlice.key)
    : result VRSReaderSlice.item :=
  VRSReaderSlice.index_or_slice_records (_path self) (_reader self) indices i.

Definition __getitem__ (self : t) (i : VRSReaderSlice.key) : result VRSReaderSlice.item :=
  _read_record self (Py.range (n_records self)) i.

Definition _generate_filtered_indices (self : t) (record_filter : RecordFilter.t) : list Z :=
  Bindings.regenerate_enabled_indices (_reader self)
    (RecordFilter.record_types record_filter)
    (RecordFilter.stream_ids record_filter)
    (RecordFilter.min_timestamp record_filter)
    (RecordFilter.max_timestamp record_filter).

Definition read_record_by_time (self : t) (stream_id : string) (timestamp : Q)
    (epsilon : option Q) : result VRSRecord.t :=
  index_in_all ←
    (if truthy epsilon then
       Bindings.get_nearest_record_index_by_time (_reader self) timestamp
         (default 0%Q epsilon) stream_id
     else Bindings.get_record_index_by_time (_reader self) stream_id timestamp);
  record ← Bindings.read_record (_reader self) index_in_all;
  Ok (VRSRecord.VRSRecord record).

(** A [for] loop over the reader, which has [__getitem__] and [__len__] only. *)
Definition __iter__ (self : t) : result (list VRSReaderSlice.item) :=
  Py.iterate (S (Z.to_nat (n_records self)))
    (λ i, __getitem__ self (VRSReaderSlice.Int i)) 0.

(** [_record_count_by_type_from_stream_id]: the attribute
    [_record_counts_by_type] of the reader is the only state the method
    touches, and [record_count_by_type_from_stream_id] is the method of the
    store it calls; the result comes with the attribute after the call. *)
Definition _record_count_by_type_from_stream_id
    (record_count_by_type_from_stream_id : string → result (gmap string Z))
    (_record_counts_by_type : gmap string (gmap string Z)) (stream_id : string)
    : result (gmap string Z) * gmap string (gmap string Z) :=
  match _record_counts_by_type !! stream_id with
  | Some counts => (Ok counts, _record_counts_by_type)
  | None =>
      match record_count_by_type_from_stream_id stream_id with
      | Ok counts => (Ok counts, <[stream_id := counts]> _record_counts_by_type)
      | Raise e => (Raise e, _record_counts_by_type)
      end
  end.

End VRSReader.

(** ** filter.py: [FilteredVRSReader] *)

Module FilteredVRSReader.

Record t : Type := MkFilteredVRSReader {
  _reader : VRSReader.t;
  _record_filter : RecordFilter.t;
  _filtered_indices : list Z;
  _min_timestamp : Q;
  _max_timestamp : Q
}.

Definition __init__ (reader : VRSReader.t) (record_filter : RecordFilter.t) : result t :=
  let filtered_indices := VRSReader._generate_filtered_indices reader record_filter in
  min_timestamp ←
    (if Z.of_nat (length filtered_indices) =? 0 then Ok 0%Q
     else first ← Py.getitem filtered_indices 0;
          VRSReader.get_timestamp_for_index reader first);
  max_timestamp ←
    (if Z.of_nat (length filtered_indices) =? 0 then Ok 0%Q
     else last ← Py.getitem filtered_indices (-1);
          VRSReader.get_timestamp_for_index reader last);
  Ok {| _reader := reader;
        _record_filter := record_filter;
        _filtered_indices := filtered_indices;
        _min_timestamp := min_timestamp;
        _max_timestamp := max_timestamp |}.

Definition n_records (self : t) : Z := Z.of_nat (length (_filtered_indices self)).
Definition __len__ (self : t) : Z := n_records self.
Definition record_types (self : t) : gset string :=
  RecordFilter.record_types (_record_filter self).
Definition stream_ids (self : t) : gset string :=
  RecordFilter.stream_ids (_record_filter self).
Definition min_timestamp (self : t) : Q := _min_timestamp self.
Definition max_timestamp (self : t) : Q := _max_timestamp self.
Definition min_filter_timestamp (self : t) : Q :=
  RecordFilter.min_timestamp (_record_filter self).
Definition max_filter_timestamp (self : t) : Q :=
  RecordFilter.max_timestamp (_record_filter self).
(** Inherited from [BaseVRSReader]. *)
Definition time_range (self : t) : Q := max_timestamp self - min_timestamp self.

Definition get_timestamp_for_index (self : t) (index : Z) : result Q :=
  if Z.of_nat (length (_filtered_indices self)) <=? index then Raise IndexError
  else absolute ← Py.getitem (_filtered_indices self) index;
       VRSReader.get_timestamp_for_index (_reader self) absolute.

(** The same call as a step on the object: nothing is assigned to [self]. *)
Definition call_get_timestamp_for_index (self : t) (index : Z) : result Q * t :=
  (get_timestamp_for_index self index, self).

(** The three setters raise whatever they are given; [Conversion] stands for
    the enumeration [ImageConversion] of the bindings. *)
Definition set_image_conversion {Conversion : Type} (self : t) (conversion : Conversion)
    : result unit :=
  Raise NotImplementedError.

Definition set_stream_image_conversion {Conversion : Type} (self : t) (stream_id : string)
    (conversion : Conversion) : result unit :=
  Raise NotImplementedError.

Definition set_stream_type_image_conversion {Conversion : Type} (self : t)
    (recordable_type_id : string) (conversion : Conversion) : result Z :=
  Raise NotImplementedError.

Definition get_record_index_by_time (self : t) (stream_id : string) (timestamp : Q)
    (epsilon : option Q) : result Z :=
  if decide (stream_id ∈ stream_ids self) then
    index ← VRSReader.get_record_index_by_time (_reader self) stream_id timestamp epsilon;
    Ok (Z.max (Py.bisect (_filtered_indices self) index - 1) 0)
  else Raise AssertionError.

Definition read_prev_record (self : t) (stream_id record_type : string) (index : Z)
    : result (option VRSRecord.t) :=
  index_in_all ← Py.getitem (_filtered_indices self) index;
  VRSReader.read_prev_record (_reader self) stream_id record_type index_in_all.

Definition read_next_record (self : t) (stream_id record_type : string) (index : Z)
    : result (option VRSRecord.t) :=
  match Py.getitem (_filtered_indices self) index with
  | Raise IndexError => Ok None
  | Raise e => Raise e
  | Ok index_in_all =>
      VRSReader.read_next_record (_reader self) stream_id record_type index_in_all
  end.

(** [SyncFilteredVRSReader._read_record] and [__getitem__]. *)
Definition _read_record (self : t) (indices : list Z) (i : VRSReaderSlice.key)
    : result VRSReaderSlice.item :=
  VRSReader._read_record (_reader self) indices i.

Definition __getitem__ (self : t) (i : VRSReaderSlice.key) : result VRSReaderSlice.item :=
  _read_record self (_filtered_indices self) i.

Definition read_record_by_time (self : t) (stream_id : string) (timestamp : Q)
    (epsilon : option Q) : result VRSRecord.t :=
  VRSReader.read_record_by_time (_reader self) stream_id timestamp epsilon.

(** A [for] loop over the view. *)
Definition __iter__ (self : t) : result (list VRSReaderSlice.item) :=
  Py.iterate (S (length (_filtered_indices self)))
    (λ i, __getitem__ self (VRSReaderSlice.Int i)) 0.

End FilteredVRSReader.

(** ** reader.py: [SyncVRSReader] *)

Module SyncVRSReader.

(** The argument [stream_ids] or [record_types] of [filtered_by_fields] when
    it is given: one string, or a collection of strings. *)
Inductive names : Set :=
  | Str (s : string)
  | Collection (l : list string).

Definition filtered_by_fields (self : VRSReader.t)
    (stream_ids record_types : option names)
    (min_timestamp max_timestamp : option Q) : result FilteredVRSReader.t :=
  let stream_ids :=
    match stream_ids with
    | None => elements (VRSReader.stream_ids self)
    | Some (Str s) => [s]
    | Some (Collection l) => l
    end in
  let record_types :=
    match record_types with
    | None => elements (VRSReader.record_types self)
    | Some (Str s) => [s]
    | Some (Collection l) => l
    end in
  let min_timestamp := default (VRSReader.min_timestamp self) min_timestamp in
  let max_timestamp := default (VRSReader.max_timestamp self) max_timestamp in
  let record_filter :=
    RecordFilter.RecordFilter
      (Utils.filter_by_record_type (VRSReader.record_types self) record_types)
      (Utils.filter_by_stream_ids (VRSReader.stream_ids self) stream_ids)
      min_timestamp max_timestamp in
  FilteredVRSReader.__init__ self record_filter.

End SyncVRSReader.

(** ** record.py: [VRSBlocks] *)

Module VRSBlocks.

(** A list of blocks of one kind: [_get_func] fetches the block at a position
    and [_range] lists the positions, a [range] object in the source. *)
Record t (T : Type) : Type := VRSBlocks {
  _get_func : Z → result T;
  _range : list Z
}.
Arguments VRSBlocks {T} _ _.
Arguments _get_func {T} _.
Arguments _range {T} _.

Inductive item (T : Type) : Type :=
  | ABlock (x : T)
  | Blocks (b : t T).
Arguments ABlock {T} x.
Arguments Blocks {T} b.

Definition __getitem__ {T} (self : t T) (i : VRSReaderSlice.key) : result (item T) :=
  match i with
  | VRSReaderSlice.Int i =>
      position ← Py.getitem (_range self) i;
      x ← _get_func self position;
      Ok (ABlock x)
  | VRSReaderSlice.Slice s =>
      sub ← Py.getslice (_range self) s;
      Ok (Blocks (VRSBlocks (_get_func self) sub))
  end.

Definition __len__ {T} (self : t T) : Z := Z.of_nat (length (_range self)).

(** [VRSRecord.metadata_blocks]: [record_metadata_blocks idx] is
    [self._record.metadata_blocks[idx]], a dictionary of the bound record given
    by its items, resolved by [stringify_metadata_keys] when it is fetched;
    [n_metadata_blocks] is the count the bound record reports. *)
Definition metadata_blocks {V}
    (record_metadata_blocks : Z → result (list (string * string * V)))
    (n_metadata_blocks : Z) : t (gmap string V) :=
  VRSBlocks (λ idx, x ← record_metadata_blocks idx; Utils.stringify_metadata_keys x)
            (Py.range n_metadata_blocks).

End VRSBlocks.

(** ** slice.py: [AsyncVRSReaderSlice]

    Awaiting a call is running it to its end; [read_record] of the store
    stands for its [async_read_record], awaited. *)

Module AsyncVRSReaderSlice.

(** [index] is the attribute that [__aiter__] sets.  On a slice that was never
    iterated, [None] here, [self.index] is the method [index] that the class
    inherits from [Sequence]. *)
Record t : Type := AsyncVRSReaderSlice {
  _path : string;
  _reader : Bindings.Reader;
  _indices : list Z;
  index : option Z
}.

Inductive item : Type :=
  | ARecord (r : VRSRecord.t)
  | ASlice (s : t).

Definition async_index_or_slice_records (path : string) (reader : Bindings.Reader)
    (vrs_indices : list Z) (indices : VRSReaderSlice.key) : result item :=
  match indices with
  | VRSReaderSlice.Int i =>
      absolute ← Py.getitem vrs_indices i;
      record ← Bindings.read_record reader absolute;
      Ok (ARecord (VRSRecord.VRSRecord record))
  | VRSReaderSlice.Slice s =>
      sub ← Py.getslice vrs_indices s;
      Ok (ASlice (AsyncVRSReaderSlice path reader sub None))
  end.

Definition __getitem__ (self : t) (i : VRSReaderSlice.key) : result item :=
  async_index_or_slice_records (_path self) (_reader self) (_indices self) i.

Definition __len__ (self : t) : Z := Z.of_nat (length (_indices self)).

Definition __aiter__ (self : t) : t :=
  AsyncVRSReaderSlice (_path self) (_reader self) (_indices self) (Some 0).

(** What [__anext__] does: it returns an item, raises [StopAsyncIteration],
    or raises something else. *)
Inductive outcome : Type :=
  | Return (x : item)
  | StopAsyncIteration
  | Raised (e : exn).

(** [__anext__]: the outcome and the slice after the call.  Before
    [__aiter__], the method [self.index] is not equal to the length, and
    [self[self.index]] hands it, having no [__index__], to the list, which
    raises [TypeError]. *)
Definition __anext__ (self : t) : outcome * t :=
  match index self with
  | None => (Raised TypeError, self)
  | Some i =>
      if i =? __len__ self then (StopAsyncIteration, self)
      else
        match __getitem__ self (VRSReaderSlice.Int i) with
        | Ok result_ =>
            (Return result_,
             AsyncVRSReaderSlice (_path self) (_reader self) (_indices self) (Some (i + 1)))
        | Raise e => (Raised e, self)
        end
  end.

(** [async for]: [__aiter__] once, then [__anext__] until it raises
    [StopAsyncIteration]; the items and the slice at the end.  The loop makes
    at most [len + 1] calls, which bounds the fuel. *)
Fixpoint anext_loop (fuel : nat) (self : t) : result (list item) * t :=
  match fuel with
  | O => (Ok [], self)
  | S fuel' =>
      match __anext__ self with
      | (Return x, self') =>
          match anext_loop fuel' self' with
          | (Ok rest, self'') => (Ok (x :: rest), self'')
          | (Raise e, self'') => (Raise e, self'')
          end
      | (StopAsyncIteration, self') => (Ok [], self')
      | (Raised e, self') => (Raise e, self')
      end
  end.

Definition async_for (self : t) : result (list item) * t :=
  anext_loop (S (length (_indices self))) (__aiter__ self).

End AsyncVRSReaderSlice.

(** ** The class hierarchy

    Which class body defines which attribute, and where a method call on an
    instance resolves: the first class of the method resolution order that
    defines the name; when none does, the call raises [AttributeError]
    (attributes of [object] are left out). *)

Module Classes.

Inductive cls : Set :=
  | BaseVRSReader
  | VRSReader
  | SyncVRSReader
  | AsyncVRSReader
  | FilteredVRSReader
  | SyncFilteredVRSReader
  | AsyncFilteredVRSReader.

Definition common : list string :=
  [ "__getitem__"; "__len__"; "__repr__"; "__str__"; "file_tags"; "stream_tags";
    "n_records"; "record_types"; "stream_ids"; "min_timestamp"; "max_timestamp";
    "find_stream"; "find_streams"; "get_stream_info"; "get_records_count";
    "get_timestamp_list"; "get_timestamp_for_index"; "set_image_conversion";
    "set_stream_image_conversion"; "set_stream_type_image_conversion";
    "might_contain_images"; "might_contain_audio"; "get_estimated_frame_rate";
    "get_record_index_by_time"; "read_record_by_time"; "read_prev_record";
    "read_next_record"; "_read_record"; "_record_count_by_type_from_stream_id";
    "_generate_filtered_indices" ]%string.

(** The names defined in the body of each class. *)
Definition attributes (c : cls) : list string :=
  match c with
  | BaseVRSReader => "time_range"%string :: common
  | VRSReader =>
      [ "__init__"; "_init_reader"; "close"; "time_range"; "_get_reader_class";
        "_open_files"; "filtered_by_fields" ]%string ++ common
  | SyncVRSReader =>
      [ "_get_reader_class"; "_open_files"; "__repr__"; "filtered_by_fields" ]%string
  | AsyncVRSReader =>
      [ "_open_files"; "_get_reader_class"; "__repr__"; "filtered_by_fields";
        "__aiter__"; "__anext__"; "__getitem__"; "_async_read_record" ]%string
  | FilteredVRSReader =>
      [ "__init__"; "min_filter_timestamp"; "max_filter_timestamp" ]%string ++ common
  | SyncFilteredVRSReader =>
      [ "__getitem__"; "__repr__"; "__str__"; "_read_record" ]%string
  | AsyncFilteredVRSReader =>
      [ "__init__"; "__aiter__"; "__anext__"; "__getitem__"; "__repr__"; "__str__";
        "_read_record" ]%string
  end.

(** The method resolution order. *)
Definition mro (c : cls) : list cls :=
  match c with
  | BaseVRSReader => [BaseVRSReader]
  | VRSReader => [VRSReader; BaseVRSReader]
  | SyncVRSReader => [SyncVRSReader; VRSReader; BaseVRSReader]
  | AsyncVRSReader => [AsyncVRSReader; VRSReader; BaseVRSReader]
  | FilteredVRSReader => [FilteredVRSReader; BaseVRSReader]
  | SyncFilteredVRSReader => [SyncFilteredVRSReader; FilteredVRSReader; BaseVRSReader]
  | AsyncFilteredVRSReader => [AsyncFilteredVRSReader; FilteredVRSReader; BaseVRSReader]
  end.

Definition defines (name : string) (c : cls) : bool :=
  existsb (String.eqb name) (attributes c).

(** The class whose definition of [name] an instance of [c] uses. *)
Definition getattr (c : cls) (name : string) : result cls :=
  match List.find (defines name) (mro c) with
  | Some d => Ok d
  | None => Raise AttributeError
  end.

(** The classes of filtered views. *)
Definition is_filtered (c : cls) : bool :=
  match c with
  | FilteredVRSReader | SyncFilteredVRSReader | AsyncFilteredVRSReader => true
  | _ => false
  end.

End Classes.

(** ** filter.py: [AsyncFilteredVRSReader] *)

Module AsyncFilteredVRSReader.

(** [__init__]: [reader_class] is the class of [reader]; it decides whether
    [getattr(self._reader, "_async_read_record", None)] is a method, which is
    callable, or [None]. *)
Definition __init__ (reader_class : Classes.cls) (reader : VRSReader.t)
    (record_filter : RecordFilter.t) : result FilteredVRSReader.t :=
  self ← FilteredVRSReader.__init__ reader record_filter;
  match Classes.getattr reader_class "_async_read_record" with
  | Ok _ => Ok self
  | Raise _ => Raise NotImplementedError
  end.

(** [__getitem__], awaited: [self._reader._async_read_record] of the
    asynchronous reader. *)
Definition __getitem__ (self : FilteredVRSReader.t) (i : VRSReaderSlice.key)
    : result AsyncVRSReaderSlice.item :=
  AsyncVRSReaderSlice.async_index_or_slice_records
    (VRSReader._path (FilteredVRSReader._reader self))
    (VRSReader._reader (FilteredVRSReader._reader self))
    (FilteredVRSReader._filtered_indices self) i.

Definition _read_record (self : FilteredVRSReader.t) (indices : list Z)
    (i : VRSReaderSlice.key) : result VRSReaderSlice.item :=
  Raise NotImplementedError.

End AsyncFilteredVRSReader.

(** ** A store over an explicit catalog *)

Module Catalog.

(** Modelled from the spec: the record store is not among the Python sources.
    Section 3 describes what it holds for each record of the timeline: a stream
    id, a record type and a timestamp; the absolute index is the position. *)
Record entry : Type := Entry {
  stream_id : string;
  record_type : string;
  timestamp : Q
}.

(** Modelled from the spec: section 4.1, [count()] of the catalog of the
    store. *)
Definition count (c : list entry) : Z := Z.of_nat (length c).

(** Modelled from the spec: section 4.1, [timestamp_at(i)] of the catalog of
    the store, defined for [0 <= i < count()], else a failure with
    OutOfRange. *)
Definition timestamp_at (c : list entry) (i : Z) : result Q :=
  if (0 <=? i) && (i <? count c) then
    match c !! Z.to_nat i with
    | Some e => Ok (timestamp e)
    | None => Raise IndexError
    end
  else Raise IndexError.

(** Modelled from the spec: section 4.2, the criterion of the filter engine
    of the store: the type of the record is among the requested types, its
    stream id in the expanded stream-id set and its timestamp in
    [[min_timestamp, max_timestamp]], bounds included. *)
Definition selected (types ids : gset string) (min_timestamp max_timestamp : Q)
    (e : entry) : bool :=
  bool_decide (record_type e ∈ types) && bool_decide (stream_id e ∈ ids)
  && Qle_bool min_timestamp (timestamp e) && Qle_bool (timestamp e) max_timestamp.

(** Modelled from the spec: section 4.2, the absolute indices, in ascending
    order, of the records of the store that satisfy a criterion; [i] is the
    absolute index of the first record of [c]. *)
Fixpoint derive_from (i : Z) (c : list entry) (keep : entry → bool) : list Z :=
  match c with
  | [] => []
  | e :: c' =>
      if keep e then i :: derive_from (i + 1) c' keep
      else derive_from (i + 1) c' keep
  end.

(** Modelled from the spec: section 4.2, the index list that the filter
    engine of the store derives for a filter. *)
Definition derive (c : list entry) (types ids : gset string)
    (min_timestamp max_timestamp : Q) : list Z :=
  derive_from 0 c (selected types ids min_timestamp max_timestamp).

(** Modelled from the spec: section 6, the record types that the store
    enumerates are those of the records of the file. *)
Definition record_types (c : list entry) : gset string := list_to_set (record_type <$> c).

(** Modelled from the spec: section 6, the stream ids that the store
    enumerates, here those of the records of the file. *)
Definition stream_ids (c : list entry) : gset string := list_to_set (stream_id <$> c).

Definition Qmin_bool (a b : Q) : Q := if Qle_bool a b then a else b.
Definition Qmax_bool (a b : Q) : Q := if Qle_bool a b then b else a.

(** Modelled from the spec: section 6, the smallest timestamp of the store,
    taken to be 0 for a file without record. *)
Definition min_timestamp (c : list entry) : Q :=
  match c with
  | [] => 0%Q
  | e :: c' => foldr (λ e' m, Qmin_bool (timestamp e') m) (timestamp e) c'
  end.

(** Modelled from the spec: section 6, the largest timestamp of the store,
    taken to be 0 for a file without record. *)
Definition max_timestamp (c : list entry) : Q :=
  match c with
  | [] => 0%Q
  | e :: c' => foldr (λ e' m, Qmax_bool (timestamp e') m) (timestamp e) c'
  end.

Definition on (sid rt : string) (e : entry) : bool :=
  String.eqb (stream_id e) sid && String.eqb (record_type e) rt.

(** Modelled from the spec: section 4.5, [prev] of the store is the largest
    absolute index [j <= index] whose record matches the stream id and the
    record type; that there is none is reported as a lookup failure. *)
Definition prev (c : list entry) (sid rt : string) (index : Z) : result Z :=
  match last (derive_from 0 (take (Z.to_nat (index + 1)) c) (on sid rt)) with
  | Some j => Ok j
  | None => Raise IndexError
  end.

(** Modelled from the spec: section 4.5, [next] of the store is the smallest
    absolute index [j >= index] whose record matches the stream id and the
    record type; that there is none is reported as a lookup failure. *)
Definition next (c : list entry) (sid rt : string) (index : Z) : result Z :=
  match derive_from (Z.max index 0) (drop (Z.to_nat index) c) (on sid rt) with
  | j :: _ => Ok j
  | [] => Raise IndexError
  end.

(** Modelled from the spec: section 4.3, the search of the store without
    epsilon finds the smallest absolute index on the stream whose timestamp is
    at least the target and fails with NotFound ([ValueError]) when there is
    none; section 7, a stream id absent from the file is a failure with
    StreamNotFound. *)
Definition lower_bound (c : list entry) (sid : string) (target : Q) : result Z :=
  if bool_decide (sid ∈ stream_ids c) then
    match derive_from 0 c (λ e, String.eqb (stream_id e) sid
                                && Qle_bool target (timestamp e)) with
    | j :: _ => Ok j
    | [] => Raise ValueError
    end
  else Raise StreamNotFoundError.

Definition distance (c : list entry) (target : Q) (j : Z) : Q :=
  match c !! Z.to_nat j with
  | Some e => Qabs (timestamp e - target)
  | None => 0%Q
  end.

(** Modelled from the spec: section 4.3, the search of the store with epsilon
    finds, among the indices on the stream whose timestamp is less than
    epsilon away from the target, the nearest one, the smaller index on a tie,
    and fails with TimestampNotFound when there is none; section 7, a stream
    id absent from the file is a failure with StreamNotFound. *)
Definition nearest (c : list entry) (target epsilon : Q) (sid : string) : result Z :=
  if bool_decide (sid ∈ stream_ids c) then
    match derive_from 0 c (λ e, String.eqb (stream_id e) sid
             && negb (Qle_bool epsilon (Qabs (timestamp e - target)))) with
    | j :: js =>
        Ok (foldl (λ best k, if Qle_bool (distance c target best) (distance c target k)
                             then best else k) j js)
    | [] => Raise TimestampNotFoundError
    end
  else Raise StreamNotFoundError.

(** Modelled from the spec: section 6, the store reads the record at an
    absolute index of the catalog. *)
Definition read (c : list entry) (i : Z) : result Bindings.Record_ :=
  if (0 <=? i) && (i <? count c) then
    match c !! Z.to_nat i with
    | Some e => Ok (Bindings.MkRecord i (stream_id e) (record_type e) (timestamp e))
    | None => Raise IndexError
    end
  else Raise IndexError.

(** Modelled from the spec: the store object over a catalog, with the methods
    the Python layer calls. *)
Definition store (c : list entry) : Bindings.Reader :=
  {| Bindings.get_available_records_size := count c;
     Bindings.get_available_record_types := record_types c;
     Bindings.get_available_stream_ids := stream_ids c;
     Bindings.get_min_available_timestamp := min_timestamp c;
     Bindings.get_max_available_timestamp := max_timestamp c;
     Bindings.get_timestamp_for_index := timestamp_at c;
     Bindings.get_record_index_by_time := lower_bound c;
     Bindings.get_nearest_record_index_by_time := nearest c;
     Bindings.get_prev_index := prev c;
     Bindings.get_next_index := next c;
     Bindings.read_record := read c;
     Bindings.regenerate_enabled_indices := derive c |}.

End Catalog.

(** ** Predicates used in the statements *)

(** [splits a x lo hi]: every element of [a] left of position [lo] is at most
    [x] and every element from position [hi] on is greater than [x]. *)
Definition splits (a : list Z) (x : Z) (lo hi : nat) : Prop :=
  (lo ≤ hi ≤ length a)%nat
  ∧ (∀ (i : nat) v, (i < lo)%nat → a !! i = Some v → v ≤ x)
  ∧ (∀ (i : nat) v, (hi ≤ i)%nat → a !! i = Some v → x < v).

(** [rightmost_le l r k]: [k] is the rightmost position of [l] whose element
    is at most [r]. *)
Definition rightmost_le (l : list Z) (r : Z) (k : nat) : Prop :=
  ∃ v, l !! k = Some v ∧ v ≤ r
       ∧ ∀ (j : nat) w, (k < j)%nat → l !! j = Some w → r < w.

(** Modelled from the spec: section 3, the glob-style wildcard matching of a
    pattern against a stream id: [*] stands for any run of characters, [?]
    for any one character, and every other character for itself. *)
Inductive wildcard_match : list ascii → list ascii → Prop :=
  | wm_nil : wildcard_match [] []
  | wm_star p s1 s2 :
      wildcard_match p s2 → wildcard_match ("*"%char :: p) (s1 ++ s2)
  | wm_any p c s :
      wildcard_match p s → wildcard_match ("?"%char :: p) (c :: s)
  | wm_lit p c s :
      c ≠ "*"%char → c ≠ "?"%char →
      wildcard_match p s → wildcard_match (c :: p) (c :: s).

(** A string without an opening bracket: as a pattern it has no set. *)
Definition bracket_free (s : string) : Prop :=
  "["%char ∉ list_ascii_of_string s.

(** The documented form of a stream id, [<recordable_type_id>-<instance_id>]:
    digits, a dash, digits. *)
Definition is_digit (c : ascii) : bool :=
  (48 <=? nat_of_ascii c)%nat && (nat_of_ascii c <=? 57)%nat.

Definition stream_id_format (s : string) : bool :=
  let cs := list_ascii_of_string s in
  match Py.index_of "-" cs with
  | Some k =>
      negb (Nat.eqb k 0) && forallb is_digit (take k cs)
      && negb (Nat.eqb (length (drop (S k) cs)) 0) && forallb is_digit (drop (S k) cs)
  | None => false
  end.

(** Every key of the output is a name that was stored bare, with its type
    kept in [removed_types], or a key with a bracket. *)
Definition keys_accounted {V} (st : Utils.locals V) : Prop :=
  ∀ k, is_Some (Utils.filtered st !! k) →
       is_Some (Utils.removed_types st !! k) ∨ "<"%char ∈ list_ascii_of_string k.

(** The key that an entry gets when the names that come with several types
    are known: [name<type>] for such a name, the bare name otherwise. *)
Definition resolved_key (ambiguous : gset string) (name type_ : string) : string :=
  if decide (name ∈ ambiguous) then Utils.bracketed name type_ 1 else name.

(** What the loop of [stringify_metadata_keys] keeps, for names without an
    opening angle bracket, after the entries [done]: [ambiguous_names] holds
    the names seen with two types, [removed_types] the type of every other
    name seen, and [filtered] every entry seen under its resolved key. *)
Definition stringify_invariant {V} (done : list (string * string * V))
    (st : Utils.locals V) : Prop :=
  (∀ name, (name ∈ Utils.ambiguous_names st)
           ↔ ∃ t1 v1 t2 v2, t1 ≠ t2 ∧ (name, t1, v1) ∈ done ∧ (name, t2, v2) ∈ done)
  ∧ (∀ name type_, Utils.removed_types st !! name = Some type_
                   ↔ (name ∉ Utils.ambiguous_names st) ∧ ∃ v, (name, type_, v) ∈ done)
  ∧ (∀ k v, Utils.filtered st !! k = Some v
            ↔ ∃ name type_, (name, type_, v) ∈ done
                            ∧ k = resolved_key (Utils.ambiguous_names st) name type_).

(** The strings a [names] argument stands for. *)
Definition requested (n : SyncVRSReader.names) : list string :=
  match n with
  | SyncVRSReader.Str s => [s]
  | SyncVRSReader.Collection l => l
  end.

(** ** A small file used in the examples

    Two streams, each with one configuration record and two data records. *)

Module Sample.

Definition catalog : list Catalog.entry :=
  [ Catalog.Entry "100-1" "configuration" 0;
    Catalog.Entry "100-2" "configuration" 0;
    Catalog.Entry "100-1" "data" 1;
    Catalog.Entry "100-2" "data" 1;
    Catalog.Entry "100-1" "data" 2;
    Catalog.Entry "100-2" "data" 2 ].

Definition reader : VRSReader.t :=
  VRSReader.__init__ "sample.vrs" (Catalog.store catalog) true.

Definition record_filter : RecordFilter.t :=
  RecordFilter.RecordFilter {["data"%string]} {["100-1"%string]} 0 2.

(** [reader.filtered_by_fields(stream_ids="100-1", record_types="data")] *)
Definition view : FilteredVRSReader.t :=
  {| FilteredVRSReader._reader := reader;
     FilteredVRSReader._record_filter := record_filter;
     FilteredVRSReader._filtered_indices := [2; 4];
     FilteredVRSReader._min_timestamp := 1;
     FilteredVRSReader._max_timestamp := 2 |}.

Definition window : VRSReaderSlice.t :=
  VRSReaderSlice.VRSReaderSlice "sample.vrs" (Catalog.store catalog) [0; 1; 2].

Definition single : VRSReaderSlice.t :=
  VRSReaderSlice.VRSReaderSlice "sample.vrs" (Catalog.store catalog) [3].

(** [reader.filtered_by_fields(stream_ids="100-?", record_types=["data", "conf*"])] *)
Definition wildcard_view : FilteredVRSReader.t :=
  {| FilteredVRSReader._reader := reader;
     FilteredVRSReader._record_filter :=
       RecordFilter.RecordFilter {["data"%string]} {["100-1"; "100-2"]}%string 0 2;
     FilteredVRSReader._filtered_indices := [2; 3; 4; 5];
     FilteredVRSReader._min_timestamp := 1;
     FilteredVRSReader._max_timestamp := 2 |}.

End Sample.

(** * Properties *)

(** ** Binary search and the remap of a search result into a filtered view *)

Lemma sorted_lookup_le (a : list Z) (i j : nat) (u v : Z) :
  StronglySorted Z.le a →
  (i ≤ j)%nat → a !! i = Some u → a !! j = Some v → u ≤ v.
Proof.
  intros Hs. revert i j. induction Hs as [|w l Hl IH Hall]; intros i j Hij Hi Hj.
  - discriminate.
  - destruct i as [|i], j as [|j]; simpl in *; simplify_eq.
    + lia.
    + rewrite Forall_forall in Hall. apply Hall. by eapply list_elem_of_lookup_2.
    + lia.
    + apply (IH i j); [lia|done|done].
Qed.

Section Bisect.
Variable a : list Z.
Variable x : Z.
Hypothesis a_sorted : StronglySorted Z.le a.

(** The loop keeps [splits] and narrows the window to a single position. *)
Lemma bisect_loop_splits (fuel lo hi : nat) :
  (hi - lo ≤ fuel)%nat → splits a x lo hi →
  splits a x (Py.bisect_loop fuel a x lo hi) (Py.bisect_loop fuel a x lo hi).
Proof using a_sorted.
  revert lo hi. induction fuel as [|fuel IH]; intros lo hi Hfuel (Hb & Hlo & Hhi);
    cbn [Py.bisect_loop].
  - assert (lo = hi) as -> by lia. repeat split; auto; lia.
  - destruct (Nat.ltb_spec lo hi) as [Hlt|Hge].
    + pose proof (Nat.div_mod_eq (lo + hi) 2) as Hdiv.
      pose proof (Nat.mod_upper_bound (lo + hi) 2 ltac:(lia)) as Hmod.
      set (mid := ((lo + hi) / 2)%nat) in *.
      assert (lo ≤ mid < hi)%nat as Hmid by lia.
      destruct (lookup_lt_is_Some_2 a mid ltac:(lia)) as [am Ham]. rewrite Ham.
      destruct (Z.ltb_spec x am) as [Hx|Hx].
      * apply IH; [lia|]. repeat split; auto; try lia.
        intros i v Hi Hv.
        pose proof (sorted_lookup_le a mid i am v a_sorted Hi Ham Hv). lia.
      * apply IH; [lia|]. repeat split; auto; try lia.
        intros i v Hi Hv.
        pose proof (sorted_lookup_le a i mid v am a_sorted ltac:(lia) Hv Ham). lia.
    + assert (lo = hi) as -> by lia. repeat split; auto; lia.
Qed.

(** [bisect(a, x)] is the position that separates the elements that are at
    most [x] from those that are greater. *)
Lemma bisect_splits : ∃ k : nat, Py.bisect a x = Z.of_nat k ∧ splits a x k k.
Proof using a_sorted.
  eexists. split; [reflexivity|]. apply bisect_loop_splits; [lia|].
  repeat split; try lia.
  intros i v Hi Hv. apply lookup_lt_Some in Hv. lia.
Qed.

(** More fuel than the width of the window changes nothing. *)
Lemma bisect_loop_fuel (fuel fuel' lo hi : nat) :
  (hi - lo ≤ fuel)%nat → (hi - lo ≤ fuel')%nat → (hi ≤ length a)%nat →
  Py.bisect_loop fuel a x lo hi = Py.bisect_loop fuel' a x lo hi.
Proof.
  clear a_sorted. revert fuel' lo hi.
  induction fuel as [|fuel IH]; intros [|fuel'] lo hi H1 H2 Hlen;
    cbn [Py.bisect_loop]; try reflexivity.
  - destruct (Nat.ltb_spec lo hi); [lia|done].
  - destruct (Nat.ltb_spec lo hi); [lia|done].
  - destruct (Nat.ltb_spec lo hi) as [Hlt|Hge]; [|done].
    pose proof (Nat.div_mod_eq (lo + hi) 2) as Hdiv.
    pose proof (Nat.mod_upper_bound (lo + hi) 2 ltac:(lia)) as Hmod.
    set (mid := ((lo + hi) / 2)%nat) in *.
    destruct (a !! mid) as [am|]; [|done].
    destruct (x <? am); apply IH; lia.
Qed.
End Bisect.

(** C1. On a filtered view whose index list is sorted in ascending order, for
    a stream id of the filter's stream-id set, when the search over the full
    catalog returns the absolute index [r], [get_record_index_by_time] returns
    [max(bisect_right(L, r) - 1, 0)]: the rightmost position of the filtered
    list whose absolute index is at most [r], and position 0 when every
    element of the list exceeds [r]. *)
Theorem filtered_get_record_index_by_time_remap
    (view : FilteredVRSReader.t) (stream_id : string) (timestamp : Q)
    (epsilon : option Q) (r : Z) :
  StronglySorted Z.le (FilteredVRSReader._filtered_indices view) →
  stream_id ∈ FilteredVRSReader.stream_ids view →
  VRSReader.get_record_index_by_time (FilteredVRSReader._reader view)
    stream_id timestamp epsilon = Ok r →
  ∃ k : nat,
    FilteredVRSReader.get_record_index_by_time view stream_id timestamp epsilon
      = Ok (Z.of_nat k)
    ∧ Z.of_nat k = Z.max (Py.bisect (FilteredVRSReader._filtered_indices view) r - 1) 0
    ∧ (rightmost_le (FilteredVRSReader._filtered_indices view) r k
       ∨ (k = 0%nat ∧ ∀ v, v ∈ FilteredVRSReader._filtered_indices view → r < v)).
Proof.
  intros Hsorted Hin Hbase.
  unfold FilteredVRSReader.get_record_index_by_time.
  rewrite decide_True by done. rewrite Hbase. cbn.
  destruct (bisect_splits _ r Hsorted) as (k0 & Hk0 & (Hb & Hlo & Hhi)).
  rewrite Hk0. destruct k0 as [|k0].
  - exists 0%nat. split; [done|]. split; [done|]. right. split; [done|].
    intros v Hv. apply list_elem_of_lookup in Hv as [i Hi].
    apply (Hhi i v); [lia|done].
  - exists k0. split; [f_equal; lia|]. split; [lia|]. left.
    destruct (lookup_lt_is_Some_2 (FilteredVRSReader._filtered_indices view) k0
                ltac:(lia)) as [v Hv].
    exists v. split; [done|]. split.
    + apply (Hlo k0 v); [lia|done].
    + intros j w Hj Hw. apply (Hhi j w); [lia|done].
Qed.

Lemma filtered_get_record_index_by_time_remap_witness :
  ∃ k : nat,
    FilteredVRSReader.get_record_index_by_time Sample.view "100-1" 2 None
      = Ok (Z.of_nat k)
    ∧ Z.of_nat k
      = Z.max (Py.bisect (FilteredVRSReader._filtered_indices Sample.view) 4 - 1) 0
    ∧ (rightmost_le (FilteredVRSReader._filtered_indices Sample.view) 4 k
       ∨ (k = 0%nat ∧ ∀ v, v ∈ FilteredVRSReader._filtered_indices Sample.view → 4 < v)).
Proof.
  apply (filtered_get_record_index_by_time_remap Sample.view "100-1" 2 None 4).
  - repeat constructor; lia.
  - apply (bool_decide_unpack _). vm_compute. exact I.
  - vm_compute. reflexivity.
Defined.

(** ** List indexing *)

Lemma getitem_nonneg {A} (l : list A) (i : Z) :
  0 ≤ i < Z.of_nat (length l) →
  ∃ x, l !! Z.to_nat i = Some x ∧ Py.getitem l i = Ok x.
Proof.
  intros Hi. unfold Py.getitem.
  destruct (Z.ltb_spec i 0); [lia|].
  destruct (Z.ltb_spec i 0); [lia|].
  destruct (Z.leb_spec (Z.of_nat (length l)) i); [lia|]. cbn.
  destruct (lookup_lt_is_Some_2 l (Z.to_nat i) ltac:(lia)) as [x Hx].
  exists x. by rewrite Hx.
Qed.

Lemma getitem_negative {A} (l : list A) (i : Z) :
  - Z.of_nat (length l) ≤ i < 0 →
  Py.getitem l i = Py.getitem l (i + Z.of_nat (length l)).
Proof.
  intros Hi. unfold Py.getitem.
  assert ((i <? 0) = true) as Ht by (apply Z.ltb_lt; lia).
  assert ((i + Z.of_nat (length l) <? 0) = false) as Hf by (apply Z.ltb_ge; lia).
  rewrite Ht. cbn zeta. rewrite !Hf. reflexivity.
Qed.

Lemma getitem_out_of_range {A} (l : list A) (i : Z) :
  i < - Z.of_nat (length l) ∨ Z.of_nat (length l) ≤ i →
  Py.getitem l i = Raise IndexError.
Proof.
  intros Hi. unfold Py.getitem.
  destruct (Z.ltb_spec i 0).
  - destruct (Z.ltb_spec (i + Z.of_nat (length l)) 0); [done|lia].
  - destruct (Z.ltb_spec i 0); [lia|].
    destruct (Z.leb_spec (Z.of_nat (length l)) i); [done|lia].
Qed.

Lemma getitem_succeeds {A} (l : list A) (i : Z) :
  succeeds (Py.getitem l i) ↔ - Z.of_nat (length l) ≤ i < Z.of_nat (length l).
Proof.
  split.
  - intros [x Hx].
    destruct (decide (- Z.of_nat (length l) ≤ i < Z.of_nat (length l))); [done|].
    rewrite getitem_out_of_range in Hx by lia. discriminate.
  - intros Hi. destruct (decide (i < 0)).
    + rewrite getitem_negative by lia.
      destruct (getitem_nonneg l (i + Z.of_nat (length l)) ltac:(lia)) as (x & _ & Hx).
      by exists x.
    + destruct (getitem_nonneg l i ltac:(lia)) as (x & _ & Hx). by exists x.
Qed.

Lemma getitem_head {A} (l : list A) (x : A) : head l = Some x → Py.getitem l 0 = Ok x.
Proof. destruct l; intros [= ->]. reflexivity. Qed.

Lemma getitem_last {A} (l : list A) (x : A) : last l = Some x → Py.getitem l (-1) = Ok x.
Proof.
  intros Hl. assert (length l ≠ 0)%nat as Hlen by (destruct l; [discriminate|done]).
  rewrite getitem_negative by lia.
  destruct (getitem_nonneg l (-1 + Z.of_nat (length l)) ltac:(lia)) as (y & Hy & ->).
  rewrite last_lookup in Hl.
  replace (Z.to_nat (-1 + Z.of_nat (length l))) with (pred (length l)) in Hy by lia.
  congruence.
Qed.

(** ** The timestamps of a filtered view *)

(** C10. When the index list derived for a filter is empty, the filtered view
    is built with [min_timestamp == 0] and [max_timestamp == 0], hence
    [time_range == 0], whatever bounds the filter asks for; otherwise its
    [min_timestamp] and [max_timestamp] are the timestamps the reader gives
    for the first and the last absolute index of the list. *)
Theorem filtered_view_timestamps (reader : VRSReader.t) (record_filter : RecordFilter.t) :
  (VRSReader._generate_filtered_indices reader record_filter = [] →
   ∃ view, FilteredVRSReader.__init__ reader record_filter = Ok view
     ∧ FilteredVRSReader._filtered_indices view = []
     ∧ FilteredVRSReader.min_timestamp view = 0%Q
     ∧ FilteredVRSReader.max_timestamp view = 0%Q
     ∧ FilteredVRSReader.time_range view = 0%Q)
  ∧ (∀ (first_index last_index : Z) (t_first t_last : Q),
       head (VRSReader._generate_filtered_indices reader record_filter) = Some first_index →
       last (VRSReader._generate_filtered_indices reader record_filter) = Some last_index →
       VRSReader.get_timestamp_for_index reader first_index = Ok t_first →
       VRSReader.get_timestamp_for_index reader last_index = Ok t_last →
       ∃ view, FilteredVRSReader.__init__ reader record_filter = Ok view
         ∧ FilteredVRSReader._filtered_indices view
           = VRSReader._generate_filtered_indices reader record_filter
         ∧ FilteredVRSReader.min_timestamp view = t_first
         ∧ FilteredVRSReader.max_timestamp view = t_last).
Proof.
  split.
  - intros Hnil. unfold FilteredVRSReader.__init__. rewrite Hnil. cbn.
    eexists. split; [reflexivity|]. repeat split; reflexivity.
  - intros first_index last_index t_first t_last Hhead Hlast Hfirst Hlst.
    unfold FilteredVRSReader.__init__.
    destruct (VRSReader._generate_filtered_indices reader record_filter) as [|i l] eqn:HL;
      [discriminate|].
    rewrite (getitem_head _ _ Hhead), (getitem_last _ _ Hlast).
    replace (Z.of_nat (length (i :: l)) =? 0) with false
      by (symmetry; apply Z.eqb_neq; cbn [length]; lia).
    cbn. rewrite Hfirst. cbn. rewrite Hlst. cbn.
    eexists. split; [reflexivity|]. repeat split; reflexivity.
Qed.

Lemma filtered_view_timestamps_witness :
  (∃ view,
     FilteredVRSReader.__init__ Sample.reader (RecordFilter.RecordFilter ∅ ∅ 5 7) = Ok view
     ∧ FilteredVRSReader._filtered_indices view = []
     ∧ FilteredVRSReader.min_timestamp view = 0%Q
     ∧ FilteredVRSReader.max_timestamp view = 0%Q
     ∧ FilteredVRSReader.time_range view = 0%Q)
  ∧ (∃ view,
       FilteredVRSReader.__init__ Sample.reader Sample.record_filter = Ok view
       ∧ FilteredVRSReader._filtered_indices view
         = VRSReader._generate_filtered_indices Sample.reader Sample.record_filter
       ∧ FilteredVRSReader.min_timestamp view = 1%Q
       ∧ FilteredVRSReader.max_timestamp view = 2%Q).
Proof.
  split.
  - apply (proj1 (filtered_view_timestamps Sample.reader (RecordFilter.RecordFilter ∅ ∅ 5 7))).
    vm_compute. reflexivity.
  - apply (proj2 (filtered_view_timestamps Sample.reader Sample.record_filter) 2 4 1%Q 2%Q);
      vm_compute; reflexivity.
Defined.

(** ** Neighbour queries *)

(** On the unfiltered reader an [IndexError] of the store's lookup becomes
    [None]. *)
Lemma read_prev_record_lookup_failure (self : VRSReader.t) (stream_id record_type : string)
    (index : Z) :
  Bindings.get_prev_index (VRSReader._reader self) stream_id record_type index
    = Raise IndexError →
  VRSReader.read_prev_record self stream_id record_type index = Ok None.
Proof. intros H. unfold VRSReader.read_prev_record. by rewrite H. Qed.

Lemma read_next_record_lookup_failure (self : VRSReader.t) (stream_id record_type : string)
    (index : Z) :
  Bindings.get_next_index (VRSReader._reader self) stream_id record_type index
    = Raise IndexError →
  VRSReader.read_next_record self stream_id record_type index = Ok None.
Proof. intros H. unfold VRSReader.read_next_record. by rewrite H. Qed.

(** On a filtered view, [read_next_record] answers [None] for a position
    outside the view ... *)
Lemma filtered_read_next_record_out_of_range (view : FilteredVRSReader.t)
    (stream_id record_type : string) (index : Z) :
  index < - FilteredVRSReader.n_records view ∨ FilteredVRSReader.n_records view ≤ index →
  FilteredVRSReader.read_next_record view stream_id record_type index = Ok None.
Proof.
  intros H. unfold FilteredVRSReader.read_next_record.
  by rewrite getitem_out_of_range.
Qed.

(** ... whereas [read_prev_record] lets the [IndexError] of the list escape. *)
Lemma filtered_read_prev_record_out_of_range (view : FilteredVRSReader.t)
    (stream_id record_type : string) (index : Z) :
  index < - FilteredVRSReader.n_records view ∨ FilteredVRSReader.n_records view ≤ index →
  FilteredVRSReader.read_prev_record view stream_id record_type index = Raise IndexError.
Proof.
  intros H. unfold FilteredVRSReader.read_prev_record.
  by rewrite getitem_out_of_range.
Qed.

(** C2. Both neighbour queries are to return [None] instead of raising, in
    particular at a position beyond the last record.  On the
    filtered view of two records of the sample file, [read_prev_record] at
    position 2 raises [IndexError], while [read_next_record] at the same
    position returns [None]. *)
Theorem filtered_read_prev_record_beyond_last :
  FilteredVRSReader.n_records Sample.view = 2
  ∧ FilteredVRSReader.read_prev_record Sample.view "100-1" "data" 2 = Raise IndexError
  ∧ FilteredVRSReader.read_next_record Sample.view "100-1" "data" 2 = Ok None.
Proof. repeat split; vm_compute; reflexivity. Qed.

(** ** Timestamp of a position *)

Lemma catalog_timestamp_at_succeeds (c : list Catalog.entry) (i : Z) :
  succeeds (Catalog.timestamp_at c i) ↔ 0 ≤ i < Catalog.count c.
Proof.
  unfold Catalog.timestamp_at, Catalog.count.
  destruct (Z.leb_spec 0 i); destruct (Z.ltb_spec i (Z.of_nat (length c))); cbn;
    try (split; [intros [? [=]]|lia]).
  destruct (lookup_lt_is_Some_2 c (Z.to_nat i) ltac:(lia)) as [e He]. rewrite He.
  split; [lia|]. intros _. by eexists.
Qed.

(** C8, as stated, fails at the index -1: the filtered view of two records
    answers the query although -1 is outside [[0, 2)]; and the unfiltered
    reader of the six records of the sample file, over a store that follows
    the catalog contract, rejects it although -1 + 6 is inside [[0, 6)]. *)
Lemma timestamp_query_negative_index :
  ¬ (succeeds (FilteredVRSReader.get_timestamp_for_index Sample.view (-1))
     ↔ 0 ≤ -1 < FilteredVRSReader.n_records Sample.view)
  ∧ ¬ (succeeds (VRSReader.get_timestamp_for_index Sample.reader (-1))
       ↔ 0 ≤ -1 + VRSReader.n_records Sample.reader < VRSReader.n_records Sample.reader).
Proof.
  split.
  - intros [H _]. assert (0 ≤ -1) as Hneg; [|lia].
    apply H. exists 2%Q. vm_compute. reflexivity.
  - intros [_ H]. destruct H as [t Ht].
    + change (0 ≤ -1 + 6 < 6). lia.
    + vm_compute in Ht. discriminate.
Qed.

(** C8, amended.  The unfiltered reader raises [IndexError] for every index
    [i >= count()] and hands every other index, negative ones included, to the
    store unchanged; over a store that follows the catalog contract the query
    therefore succeeds exactly when [0 <= i < count()].  A filtered view
    raises [IndexError] when [i >= count()] or [i < -count()], and otherwise
    looks up [L[i]] as a Python list does, a negative [i] standing for
    [i + count()]; when the elements of [L] are positions the reader accepts,
    the query succeeds exactly when [-count() <= i < count()].  In both cases
    the reader after the call is the reader before it. *)
Theorem get_timestamp_for_index_range (reader : VRSReader.t) (view : FilteredVRSReader.t)
    (i : Z) :
  (VRSReader.n_records reader ≤ i →
   VRSReader.get_timestamp_for_index reader i = Raise IndexError)
  ∧ (i < VRSReader.n_records reader →
     VRSReader.get_timestamp_for_index reader i
     = Bindings.get_timestamp_for_index (VRSReader._reader reader) i)
  ∧ (∀ path c auto, reader = VRSReader.__init__ path (Catalog.store c) auto →
     (succeeds (VRSReader.get_timestamp_for_index reader i)
      ↔ 0 ≤ i < VRSReader.n_records reader))
  ∧ (i < - FilteredVRSReader.n_records view ∨ FilteredVRSReader.n_records view ≤ i →
     FilteredVRSReader.get_timestamp_for_index view i = Raise IndexError)
  ∧ (- FilteredVRSReader.n_records view ≤ i < FilteredVRSReader.n_records view →
     ∃ absolute,
       FilteredVRSReader._filtered_indices view
         !! Z.to_nat (if i <? 0 then i + FilteredVRSReader.n_records view else i)
       = Some absolute
       ∧ FilteredVRSReader.get_timestamp_for_index view i
         = VRSReader.get_timestamp_for_index (FilteredVRSReader._reader view) absolute)
  ∧ (Forall (λ absolute, succeeds (VRSReader.get_timestamp_for_index
                                     (FilteredVRSReader._reader view) absolute))
            (FilteredVRSReader._filtered_indices view) →
     (succeeds (FilteredVRSReader.get_timestamp_for_index view i)
      ↔ - FilteredVRSReader.n_records view ≤ i < FilteredVRSReader.n_records view))
  ∧ (VRSReader.call_get_timestamp_for_index reader i).2 = reader
  ∧ (FilteredVRSReader.call_get_timestamp_for_index view i).2 = view.
Proof.
  assert (Hin : - FilteredVRSReader.n_records view ≤ i < FilteredVRSReader.n_records view →
    ∃ absolute,
       FilteredVRSReader._filtered_indices view
         !! Z.to_nat (if i <? 0 then i + FilteredVRSReader.n_records view else i)
       = Some absolute
       ∧ FilteredVRSReader.get_timestamp_for_index view i
         = VRSReader.get_timestamp_for_index (FilteredVRSReader._reader view) absolute).
  { unfold FilteredVRSReader.n_records, FilteredVRSReader.get_timestamp_for_index.
    intros Hi. destruct (Z.leb_spec (Z.of_nat (length (FilteredVRSReader._filtered_indices view))) i);
      [lia|].
    destruct (Z.ltb_spec i 0).
    - rewrite getitem_negative by lia.
      destruct (getitem_nonneg (FilteredVRSReader._filtered_indices view)
                  (i + Z.of_nat (length (FilteredVRSReader._filtered_indices view)))
                  ltac:(lia)) as (x & Hx & ->).
      exists x. split; [done|reflexivity].
    - destruct (getitem_nonneg (FilteredVRSReader._filtered_indices view) i ltac:(lia))
        as (x & Hx & ->).
      exists x. split; [done|reflexivity]. }
  assert (Hout : i < - FilteredVRSReader.n_records view ∨ FilteredVRSReader.n_records view ≤ i →
     FilteredVRSReader.get_timestamp_for_index view i = Raise IndexError).
  { unfold FilteredVRSReader.n_records, FilteredVRSReader.get_timestamp_for_index.
    intros Hi. destruct (Z.leb_spec (Z.of_nat (length (FilteredVRSReader._filtered_indices view))) i);
      [done|].
    by rewrite getitem_out_of_range by lia. }
  refine (conj _ (conj _ (conj _ (conj Hout (conj Hin (conj _ (conj eq_refl eq_refl))))))).
  - intros Hi. unfold VRSReader.get_timestamp_for_index.
    by destruct (Z.leb_spec (VRSReader.n_records reader) i); [|lia].
  - intros Hi. unfold VRSReader.get_timestamp_for_index.
    by destruct (Z.leb_spec (VRSReader.n_records reader) i); [lia|].
  - intros path c auto ->. unfold VRSReader.get_timestamp_for_index. cbn.
    destruct (Z.leb_spec (Catalog.count c) i) as [Hge|Hlt].
    + split; [intros [t Ht]; discriminate|lia].
    + rewrite catalog_timestamp_at_succeeds. lia.
  - intros Hall. split.
    + intros Hs.
      destruct (decide (- FilteredVRSReader.n_records view ≤ i
                        < FilteredVRSReader.n_records view)); [done|].
      rewrite Hout in Hs by lia. destruct Hs as [t Ht]. discriminate.
    + intros Hi. destruct (Hin Hi) as (absolute & Hl & ->).
      rewrite Forall_forall in Hall. apply Hall. by eapply list_elem_of_lookup_2.
Qed.

Lemma get_timestamp_for_index_range_witness :
  (succeeds (VRSReader.get_timestamp_for_index Sample.reader (-1))
   ↔ 0 ≤ -1 < VRSReader.n_records Sample.reader)
  ∧ (succeeds (FilteredVRSReader.get_timestamp_for_index Sample.view (-1))
     ↔ - FilteredVRSReader.n_records Sample.view ≤ -1
       < FilteredVRSReader.n_records Sample.view).
Proof.
  destruct (get_timestamp_for_index_range Sample.reader Sample.view (-1))
    as (_ & _ & Hcat & _ & _ & Hview & _).
  split.
  - apply (Hcat "sample.vrs"%string Sample.catalog true). reflexivity.
  - apply Hview. repeat constructor.
    + exists 1%Q. vm_compute. reflexivity.
    + exists 2%Q. vm_compute. reflexivity.
Defined.

(** ** What a filtered view refuses *)

(** C9, as stated, fails for re-filtering: an instance of
    [SyncFilteredVRSReader] has no attribute [filtered_by_fields], so the call
    raises [AttributeError], which is not the [NotImplementedError] that the
    conversion setters raise. *)
Lemma refilter_raises_attribute_error :
  Classes.getattr Classes.SyncFilteredVRSReader "filtered_by_fields" = Raise AttributeError
  ∧ Classes.getattr Classes.SyncFilteredVRSReader "filtered_by_fields"
    ≠ Raise NotImplementedError.
Proof. split; [reflexivity|discriminate]. Qed.

(** C9, amended.  No class of filtered views defines or inherits
    [filtered_by_fields], which only the unfiltered readers have: on a
    filtered view the call fails with [AttributeError] and nothing is
    composed.  The three conversion setters of a filtered view are those of
    [FilteredVRSReader], and each raises [NotImplementedError] whatever its
    arguments; on the unfiltered readers they are those of [VRSReader]. *)
Theorem filtered_view_refusals (c : Classes.cls) (view : FilteredVRSReader.t)
    {Conversion : Type} (conversion : Conversion) (stream_id recordable_type_id : string) :
  Classes.is_filtered c = true →
  Classes.getattr c "filtered_by_fields" = Raise AttributeError
  ∧ (Classes.getattr c "set_image_conversion" = Ok Classes.FilteredVRSReader
     ∧ FilteredVRSReader.set_image_conversion view conversion = Raise NotImplementedError)
  ∧ (Classes.getattr c "set_stream_image_conversion" = Ok Classes.FilteredVRSReader
     ∧ FilteredVRSReader.set_stream_image_conversion view stream_id conversion
       = Raise NotImplementedError)
  ∧ (Classes.getattr c "set_stream_type_image_conversion" = Ok Classes.FilteredVRSReader
     ∧ FilteredVRSReader.set_stream_type_image_conversion view recordable_type_id conversion
       = Raise NotImplementedError)
  ∧ Classes.getattr Classes.SyncVRSReader "filtered_by_fields" = Ok Classes.SyncVRSReader
  ∧ Classes.getattr Classes.AsyncVRSReader "filtered_by_fields" = Ok Classes.AsyncVRSReader
  ∧ Classes.getattr Classes.SyncVRSReader "set_image_conversion" = Ok Classes.VRSReader.
Proof.
  intros Hc. destruct c; try discriminate Hc; repeat split; reflexivity.
Qed.

Lemma filtered_view_refusals_witness :
  Classes.getattr Classes.SyncFilteredVRSReader "filtered_by_fields" = Raise AttributeError
  ∧ (Classes.getattr Classes.SyncFilteredVRSReader "set_image_conversion"
     = Ok Classes.FilteredVRSReader
     ∧ FilteredVRSReader.set_image_conversion Sample.view Bindings.NORMALIZE
       = Raise NotImplementedError)
  ∧ (Classes.getattr Classes.SyncFilteredVRSReader "set_stream_image_conversion"
     = Ok Classes.FilteredVRSReader
     ∧ FilteredVRSReader.set_stream_image_conversion Sample.view "100-1" Bindings.NORMALIZE
       = Raise NotImplementedError)
  ∧ (Classes.getattr Classes.SyncFilteredVRSReader "set_stream_type_image_conversion"
     = Ok Classes.FilteredVRSReader
     ∧ FilteredVRSReader.set_stream_type_image_conversion Sample.view "100" Bindings.NORMALIZE
       = Raise NotImplementedError)
  ∧ Classes.getattr Classes.SyncVRSReader "filtered_by_fields" = Ok Classes.SyncVRSReader
  ∧ Classes.getattr Classes.AsyncVRSReader "filtered_by_fields" = Ok Classes.AsyncVRSReader
  ∧ Classes.getattr Classes.SyncVRSReader "set_image_conversion" = Ok Classes.VRSReader.
Proof.
  apply (filtered_view_refusals Classes.SyncFilteredVRSReader Sample.view Bindings.NORMALIZE
           "100-1" "100").
  reflexivity.
Defined.

(** ** Indexing and slicing a view *)

Lemma omap_lookup_window {A} (l : list A) (lo : Z) (n j : nat) :
  0 ≤ lo → (Z.to_nat lo + j + n ≤ length l)%nat →
  omap (λ k : nat, l !! Z.to_nat (lo + Z.of_nat k * 1)) (seq j n)
  = take n (drop (Z.to_nat lo + j) l).
Proof.
  intros Hlo. revert j. induction n as [|n IH]; intros j Hlen; [done|].
  cbn [seq omap list_omap].
  replace (Z.to_nat (lo + Z.of_nat j * 1)) with (Z.to_nat lo + j)%nat by lia.
  destruct (lookup_lt_is_Some_2 l (Z.to_nat lo + j) ltac:(lia)) as [x Hx].
  rewrite Hx, (drop_S _ _ _ Hx). cbn [take]. f_equal.
  rewrite IH by lia. f_equal. f_equal. lia.
Qed.

(** A slice [a:b] with the default step is the window between the clamped
    bounds. *)
Lemma getslice_window {A} (l : list A) (a b : Z) :
  let len := Z.of_nat (length l) in
  let lo := Py.clamp_bound len false a in
  let hi := Py.clamp_bound len false b in
  0 ≤ lo ≤ len ∧ 0 ≤ hi ≤ len
  ∧ Py.getslice l (Py.Slice (Some a) (Some b) None)
    = Ok (take (Z.to_nat (hi - lo)) (drop (Z.to_nat lo) l)).
Proof.
  intros len lo hi.
  assert (∀ x, 0 ≤ Py.clamp_bound len false x ≤ len) as Hclamp.
  { intros x. unfold Py.clamp_bound.
    destruct (Z.ltb_spec x 0); [destruct (Z.ltb_spec (x + len) 0)|
                                destruct (Z.leb_spec len x)]; subst len; lia. }
  split; [apply Hclamp|]. split; [apply Hclamp|].
  pose proof (Hclamp a) as Ha. pose proof (Hclamp b) as Hb. fold lo in Ha. fold hi in Hb.
  unfold Py.getslice, Py.indices. cbn. fold len lo hi. f_equal.
  unfold Py.slice_length. cbn.
  destruct (Z.ltb_spec lo hi) as [Hlt|Hge].
  - rewrite Z.div_1_r.
    rewrite omap_lookup_window by lia.
    rewrite Nat.add_0_r. f_equal. lia.
  - replace (Z.to_nat (hi - lo)) with 0%nat by lia. reflexivity.
Qed.

Lemma clamp_bound_in_range (len b : Z) :
  0 ≤ b ≤ len → Py.clamp_bound len false b = b.
Proof.
  intros Hb. unfold Py.clamp_bound.
  destruct (Z.ltb_spec b 0); [lia|]. destruct (Z.leb_spec len b); [lia|done].
Qed.

(** C7, as stated, fails for a negative slice start and for a view of one
    record: on the window of three records, [-1 <= 0 <= len] but the slice
    [-1:0] is empty instead of having length [0 - (-1)]; on the view of one
    record, the index [-2] raises [IndexError] while [len - 2], which is
    [-1], reads the record. *)
Lemma slice_negative_start_and_short_view :
  (-1 ≤ 0 ≤ VRSReaderSlice.__len__ Sample.window
   ∧ ∃ sub,
       VRSReaderSlice.__getitem__ Sample.window
         (VRSReaderSlice.Slice (Py.Slice (Some (-1)) (Some 0) None))
       = Ok (VRSReaderSlice.ASlice sub)
       ∧ VRSReaderSlice.__len__ sub = 0
       ∧ VRSReaderSlice.__len__ sub ≠ 0 - -1)
  ∧ (VRSReaderSlice.__getitem__ Sample.single (VRSReaderSlice.Int (-2)) = Raise IndexError
     ∧ VRSReaderSlice.__getitem__ Sample.single
         (VRSReaderSlice.Int (VRSReaderSlice.__len__ Sample.single - 2))
       = Ok (VRSReaderSlice.ARecord
               (VRSRecord.VRSRecord (Bindings.MkRecord 3 "100-2" "data" 1)))).
Proof.
  split; [split|split].
  - change (-1 ≤ 0 ≤ 3). lia.
  - eexists. split; [reflexivity|]. split; [reflexivity|]. discriminate.
  - reflexivity.
  - reflexivity.
Qed.

(** C7, amended.  For every view over an index list [L]: [view[-1]] and
    [view[len - 1]] give the same result; [view[-2]] and [view[len - 2]] give
    the same result when the view has at least two records; a slice [a:b]
    is the view over the window of [L] between its bounds, after a negative
    bound has been shifted by [len] and an out-of-range bound clamped into
    [[0, len]]: it has the records of the view from the first bound up to the
    second, and none when the second bound does not exceed the first; and for
    [0 <= a <= b <= len] the sub-view has length [b - a] and its record at
    [k] is the record of the view at [a + k], for every [0 <= k < b - a]. *)
Theorem view_indexing_and_slicing (path : string) (reader : Bindings.Reader) (L : list Z) :
  let len := Z.of_nat (length L) in
  let view := VRSReaderSlice.index_or_slice_records path reader L in
  let bound := λ x : Z, Z.max 0 (Z.min len (if x <? 0 then x + len else x)) in
  view (VRSReaderSlice.Int (-1)) = view (VRSReaderSlice.Int (len - 1))
  ∧ (2 ≤ len → view (VRSReaderSlice.Int (-2)) = view (VRSReaderSlice.Int (len - 2)))
  ∧ (∀ a b,
       ∃ sub,
         view (VRSReaderSlice.Slice (Py.Slice (Some a) (Some b) None))
         = Ok (VRSReaderSlice.ASlice sub)
         ∧ VRSReaderSlice._path sub = path
         ∧ VRSReaderSlice._reader sub = reader
         ∧ VRSReaderSlice._indices sub
           = take (Z.to_nat (bound b - bound a)) (drop (Z.to_nat (bound a)) L)
         ∧ VRSReaderSlice.__len__ sub = Z.max 0 (bound b - bound a)
         ∧ (bound b ≤ bound a → VRSReaderSlice._indices sub = [])
         ∧ ∀ k, 0 ≤ k < bound b - bound a →
             VRSReaderSlice.__getitem__ sub (VRSReaderSlice.Int k)
             = view (VRSReaderSlice.Int (bound a + k)))
  ∧ (∀ a b, 0 ≤ a ≤ b ≤ len →
       ∃ sub,
         view (VRSReaderSlice.Slice (Py.Slice (Some a) (Some b) None))
         = Ok (VRSReaderSlice.ASlice sub)
         ∧ VRSReaderSlice.__len__ sub = b - a
         ∧ ∀ k, 0 ≤ k < b - a →
             VRSReaderSlice.__getitem__ sub (VRSReaderSlice.Int k)
             = view (VRSReaderSlice.Int (a + k))).
Proof.
  intros len view bound.
  assert (∀ a b,
       ∃ sub,
         view (VRSReaderSlice.Slice (Py.Slice (Some a) (Some b) None))
         = Ok (VRSReaderSlice.ASlice sub)
         ∧ VRSReaderSlice._path sub = path
         ∧ VRSReaderSlice._reader sub = reader
         ∧ VRSReaderSlice._indices sub
           = take (Z.to_nat (bound b - bound a)) (drop (Z.to_nat (bound a)) L)
         ∧ VRSReaderSlice.__len__ sub = Z.max 0 (bound b - bound a)
         ∧ (bound b ≤ bound a → VRSReaderSlice._indices sub = [])
         ∧ ∀ k, 0 ≤ k < bound b - bound a →
             VRSReaderSlice.__getitem__ sub (VRSReaderSlice.Int k)
             = view (VRSReaderSlice.Int (bound a + k))) as Hwindow.
  { intros a b. subst view. unfold VRSReaderSlice.index_or_slice_records.
    destruct (getslice_window L a b) as (Ha & Hb & ->).
    assert (∀ x, Py.clamp_bound len false x = bound x) as Hbound.
    { intros x. unfold Py.clamp_bound, bound.
      destruct (Z.ltb_spec x 0); [destruct (Z.ltb_spec (x + len) 0)|
                                  destruct (Z.leb_spec len x)]; subst len; lia. }
    fold len in Ha, Hb |- *. rewrite !Hbound in *.
    cbn [mbind result_bind]. eexists. split; [reflexivity|].
    cbn [VRSReaderSlice._path VRSReaderSlice._reader VRSReaderSlice._indices].
    split; [done|]. split; [done|]. split; [done|].
    unfold VRSReaderSlice.__len__, VRSReaderSlice.__getitem__,
      VRSReaderSlice.index_or_slice_records.
    cbn [VRSReaderSlice._path VRSReaderSlice._reader VRSReaderSlice._indices].
    assert (length (take (Z.to_nat (bound b - bound a)) (drop (Z.to_nat (bound a)) L))
            = Z.to_nat (bound b - bound a)) as Hlen
      by (rewrite length_take, length_drop; subst len; lia).
    split; [lia|]. split.
    - intros Hle. by replace (Z.to_nat (bound b - bound a)) with 0%nat by lia.
    - intros k Hk.
      destruct (getitem_nonneg (take (Z.to_nat (bound b - bound a))
                  (drop (Z.to_nat (bound a)) L)) k ltac:(lia)) as (x & Hx & ->).
      destruct (getitem_nonneg L (bound a + k) ltac:(subst len; lia)) as (y & Hy & ->).
      rewrite lookup_take_lt, lookup_drop in Hx by lia.
      replace (Z.to_nat (bound a) + Z.to_nat k)%nat with (Z.to_nat (bound a + k)) in Hx
        by lia.
      by simplify_eq. }
  refine (conj _ (conj _ (conj Hwindow _))).
  - subst view len. unfold VRSReaderSlice.index_or_slice_records.
    destruct (decide (Z.of_nat (length L) = 0)) as [->|Hne]; [reflexivity|].
    rewrite (getitem_negative L (-1)) by lia.
    by replace (-1 + Z.of_nat (length L)) with (Z.of_nat (length L) - 1) by lia.
  - intros Hlen. subst view len. unfold VRSReaderSlice.index_or_slice_records.
    rewrite (getitem_negative L (-2)) by lia.
    by replace (-2 + Z.of_nat (length L)) with (Z.of_nat (length L) - 2) by lia.
  - intros a b Hab. destruct (Hwindow a b) as (sub & Hsub & _ & _ & _ & Hlen & _ & Hk).
    assert (bound a = a ∧ bound b = b) as [Ea Eb]
      by (unfold bound; destruct (Z.ltb_spec a 0), (Z.ltb_spec b 0); lia).
    rewrite Ea, Eb in Hlen, Hk.
    exists sub. split; [done|]. split; [lia|done].
Qed.

Lemma view_indexing_and_slicing_witness :
  (∃ sub,
     VRSReaderSlice.index_or_slice_records "sample.vrs" (Catalog.store Sample.catalog)
       [0; 1; 2] (VRSReaderSlice.Slice (Py.Slice (Some (-1)) (Some 0) None))
     = Ok (VRSReaderSlice.ASlice sub)
     ∧ VRSReaderSlice._indices sub = []
     ∧ VRSReaderSlice.__len__ sub = 0)
  ∧ (∃ sub,
       VRSReaderSlice.index_or_slice_records "sample.vrs" (Catalog.store Sample.catalog)
         [0; 1; 2] (VRSReaderSlice.Slice (Py.Slice (Some (-2)) (Some 5) None))
       = Ok (VRSReaderSlice.ASlice sub)
       ∧ VRSReaderSlice._indices sub = [1; 2]
       ∧ VRSReaderSlice.__len__ sub = 2)
  ∧ ∃ sub,
      VRSReaderSlice.index_or_slice_records "sample.vrs" (Catalog.store Sample.catalog)
        [0; 1; 2] (VRSReaderSlice.Slice (Py.Slice (Some 1) (Some 3) None))
      = Ok (VRSReaderSlice.ASlice sub)
      ∧ VRSReaderSlice.__len__ sub = 3 - 1
      ∧ ∀ k, 0 ≤ k < 3 - 1 →
          VRSReaderSlice.__getitem__ sub (VRSReaderSlice.Int k)
          = VRSReaderSlice.index_or_slice_records "sample.vrs" (Catalog.store Sample.catalog)
              [0; 1; 2] (VRSReaderSlice.Int (1 + k)).
Proof.
  destruct (view_indexing_and_slicing "sample.vrs" (Catalog.store Sample.catalog) [0; 1; 2])
    as (_ & _ & Hwindow & Hordered).
  split; [|split].
  - destruct (Hwindow (-1) 0) as (sub & Hsub & _ & _ & Hind & Hlen & _).
    exists sub. split; [exact Hsub|]. split; [exact Hind|exact Hlen].
  - destruct (Hwindow (-2) 5) as (sub & Hsub & _ & _ & Hind & Hlen & _).
    exists sub. split; [exact Hsub|]. split; [exact Hind|exact Hlen].
  - apply Hordered. cbn. lia.
Defined.

(** ** Wildcard matching *)

Lemma glob_match_star (toks : list Py.glob_token) (s : list ascii) :
  Py.glob_match (Py.GStar :: toks) s
  = Py.glob_match toks s
    || match s with
       | [] => false
       | _ :: s' => Py.glob_match (Py.GStar :: toks) s'
       end.
Proof. destruct s; reflexivity. Qed.

Lemma glob_match_star_empty (toks : list Py.glob_token) (s : list ascii) :
  Py.glob_match toks s = true → Py.glob_match (Py.GStar :: toks) s = true.
Proof. intros H. rewrite glob_match_star, H. reflexivity. Qed.

Lemma glob_match_star_more (toks : list Py.glob_token) (c : ascii) (s : list ascii) :
  Py.glob_match (Py.GStar :: toks) s = true →
  Py.glob_match (Py.GStar :: toks) (c :: s) = true.
Proof. intros H. rewrite glob_match_star, H. apply orb_true_r. Qed.

Lemma glob_matches_star_more (toks : list Py.glob_token) (c : ascii) (s : list ascii) :
  Py.glob_matches (Py.GStar :: toks) s → Py.glob_matches (Py.GStar :: toks) (c :: s).
Proof.
  inversion 1 as [|toks' s1 s2 Hrest|t toks' d s' Hacc]; subst.
  - by apply (Py.gm_star toks (c :: s1) s2).
  - discriminate Hacc.
Qed.

(** The matcher decides the documented meaning of a pattern. *)
Lemma glob_match_spec (toks : list Py.glob_token) (s : list ascii) :
  Py.glob_match toks s = true ↔ Py.glob_matches toks s.
Proof.
  split.
  - revert s. induction toks as [|t toks IH]; intros s H.
    + destruct s; [constructor|discriminate].
    + assert (∀ t', t' ≠ Py.GStar → Py.glob_match (t' :: toks) s = true →
               Py.glob_matches (t' :: toks) s) as Hone.
      { intros t' Hne H'. destruct s as [|c s]; [by destruct t'|].
        assert (Py.token_accepts t' c && Py.glob_match toks s = true) as Hb
          by (by destruct t').
        apply andb_true_iff in Hb as [Hacc Hrest].
        apply Py.gm_one; [done|by apply IH]. }
      destruct t; try (by apply Hone). clear Hone.
      induction s as [|c s IHs]; rewrite glob_match_star in H;
        apply orb_true_iff in H as [H|H].
      * apply (Py.gm_star toks [] []). by apply IH.
      * discriminate.
      * apply (Py.gm_star toks [] (c :: s)). by apply IH.
      * apply glob_matches_star_more. by apply IHs.
  - induction 1 as [|toks s1 s2 Hrest IH|t toks c s Hacc Hrest IH].
    + reflexivity.
    + induction s1 as [|c s1 IHs]; cbn [app].
      * by apply glob_match_star_empty.
      * by apply glob_match_star_more.
    + destruct t; try discriminate Hacc; cbn in Hacc |- *; by rewrite ?Hacc, IH.
Qed.

(** A pattern without an opening bracket matches itself. *)
Lemma glob_match_refl (p : list ascii) :
  "["%char ∉ p → Py.glob_match (Py.translate 0 p) p = true.
Proof.
  induction p as [|c p IH]; intros Hfree; [reflexivity|].
  assert (c ≠ "["%char) as Hc by (intros ->; apply Hfree; left).
  assert ("["%char ∉ p) as Hp by (intros Hin; apply Hfree; by right).
  specialize (IH Hp). cbn [Py.translate].
  destruct (Ascii.eqb_spec c "*") as [->|Hstar].
  - destruct (Py.translate 0 p) as [|t r].
    + by apply glob_match_star_more, glob_match_star_empty.
    + destruct t; try (by apply glob_match_star_more, glob_match_star_empty).
      by apply glob_match_star_more.
  - destruct (Ascii.eqb_spec c "?") as [->|Hq]; [by cbn; rewrite IH|].
    destruct (Ascii.eqb_spec c "[") as [->|_]; [done|].
    cbn. by rewrite Ascii.eqb_refl, IH.
Qed.

Lemma fnmatch_refl (s : string) : bracket_free s → Py.fnmatch s s = true.
Proof. apply glob_match_refl. Qed.

(** A pattern of ordinary characters matches only itself. *)
Lemma glob_match_literal (p s : list ascii) :
  "*"%char ∉ p → "?"%char ∉ p → "["%char ∉ p →
  Py.glob_match (Py.translate 0 p) s = true ↔ s = p.
Proof.
  revert s. induction p as [|c p IH]; intros s Hstar Hq Hb.
  - destruct s; cbn; split; congruence.
  - assert (c ≠ "*"%char ∧ c ≠ "?"%char ∧ c ≠ "["%char) as (H1 & H2 & H3)
      by (repeat split; intros ->; [apply Hstar|apply Hq|apply Hb]; left).
    cbn [Py.translate].
    destruct (Ascii.eqb_spec c "*"); [done|].
    destruct (Ascii.eqb_spec c "?"); [done|].
    destruct (Ascii.eqb_spec c "["); [done|].
    destruct s as [|d s]; cbn; [split; congruence|].
    rewrite andb_true_iff.
    rewrite IH; [|intros Hin; apply Hstar; by right|intros Hin; apply Hq; by right
                 |intros Hin; apply Hb; by right].
    destruct (Ascii.eqb_spec d c); split; intros; destruct_and?; simplify_eq; done.
Qed.

(** The documented examples of [filtered_by_fields]. *)
Example filter_by_stream_ids_star :
  Utils.filter_by_stream_ids {["1010-1"; "1011-1"; "1011-2"; "1011-10"]}%string
    ["1011*"%string]
  = {["1011-1"; "1011-2"; "1011-10"]}%string.
Proof. vm_compute. reflexivity. Qed.

Example filter_by_stream_ids_question :
  Utils.filter_by_stream_ids {["1010-1"; "1011-1"; "1011-2"; "1011-10"]}%string
    ["1011-?"%string]
  = {["1011-1"; "1011-2"]}%string.
Proof. vm_compute. reflexivity. Qed.

Example filter_by_stream_ids_exact :
  Utils.filter_by_stream_ids {["1010-1"; "1011-1"; "1011-2"; "1011-10"]}%string
    ["1011-1"%string]
  = {["1011-1"]}%string.
Proof. vm_compute. reflexivity. Qed.

(** A record type is not a pattern. *)
Example filter_by_record_type_no_wildcard :
  Utils.filter_by_record_type {["data"; "state"]}%string ["d*"; "stat?"]%string = ∅
  ∧ Utils.filter_by_stream_ids {["data"; "state"]}%string ["d*"; "stat?"]%string
    = {["data"; "state"]}%string.
Proof. split; vm_compute; reflexivity. Qed.

Lemma list_ascii_of_string_append (s1 s2 : string) :
  list_ascii_of_string (s1 +:+ s2) = list_ascii_of_string s1 ++ list_ascii_of_string s2.
Proof. induction s1 as [|c s1 IH]; simpl; [done|by f_equal]. Qed.

Lemma list_ascii_of_string_inj (s1 s2 : string) :
  list_ascii_of_string s1 = list_ascii_of_string s2 → s1 = s2.
Proof.
  intros H. rewrite <- (string_of_list_ascii_of_string s1), H.
  apply string_of_list_ascii_of_string.
Qed.

(** *** The matcher and the wildcards of the specification *)

Lemma glob_matches_star_inv (toks : list Py.glob_token) (s : list ascii) :
  Py.glob_matches (Py.GStar :: toks) s
  ↔ ∃ s1 s2, s = s1 ++ s2 ∧ Py.glob_matches toks s2.
Proof.
  split.
  - inversion 1; subst; [by eexists _, _|discriminate].
  - intros (s1 & s2 & -> & H). by constructor.
Qed.

Lemma glob_matches_star_app (toks : list Py.glob_token) (s1 s2 : list ascii) :
  Py.glob_matches (Py.GStar :: toks) s2 → Py.glob_matches (Py.GStar :: toks) (s1 ++ s2).
Proof.
  intros H. induction s1 as [|c s1 IH]; [done|]. cbn. by apply glob_matches_star_more.
Qed.

Lemma glob_matches_one_inv (t : Py.glob_token) (toks : list Py.glob_token) (s : list ascii) :
  t ≠ Py.GStar →
  Py.glob_matches (t :: toks) s
  ↔ ∃ c s', s = c :: s' ∧ Py.token_accepts t c = true ∧ Py.glob_matches toks s'.
Proof.
  intros Ht. split.
  - inversion 1; subst; [done|by eexists _, _].
  - intros (c & s' & -> & Hc & H). by constructor.
Qed.

(** On a pattern without an opening bracket, the matcher of [fnmatch] decides
    the wildcard matching of the specification. *)
Lemma glob_matches_wildcard (p s : list ascii) :
  "["%char ∉ p →
  Py.glob_matches (Py.translate 0 p) s ↔ wildcard_match p s.
Proof.
  revert s. induction p as [|c p IH]; intros s Hfree.
  - cbn. split; inversion 1; constructor.
  - assert (c ≠ "["%char) as Hc by (intros ->; apply Hfree; left).
    assert ("["%char ∉ p) as Hp by (intros Hin; apply Hfree; by right).
    cbn [Py.translate].
    destruct (Ascii.eqb_spec c "*") as [->|Hstar].
    + assert (Py.glob_matches
                match Py.translate 0 p with
                | Py.GStar :: r => Py.GStar :: r
                | r => Py.GStar :: r
                end s
              ↔ ∃ s1 s2, s = s1 ++ s2 ∧ Py.glob_matches (Py.translate 0 p) s2) as ->.
      { destruct (Py.translate 0 p) as [|[| | |] r] eqn:HT;
          try apply glob_matches_star_inv.
        split.
        - intros H. by exists [], s.
        - intros (s1 & s2 & -> & H). by apply glob_matches_star_app. }
      split.
      * intros (s1 & s2 & -> & H). constructor. by apply IH.
      * inversion 1; subst; [|done]. eexists _, _. split; [done|]. by apply IH.
    + destruct (Ascii.eqb_spec c "?") as [->|Hq].
      * rewrite glob_matches_one_inv by done. split.
        -- intros (d & s' & -> & _ & H). constructor. by apply IH.
        -- inversion 1; subst; [|done]. eexists _, _. split; [done|].
           split; [done|]. by apply IH.
      * destruct (Ascii.eqb_spec c "[") as [->|_]; [done|].
        rewrite glob_matches_one_inv by done. split.
        -- intros (d & s' & -> & Hd & H). cbn in Hd. apply Ascii.eqb_eq in Hd as ->.
           constructor; [done|done|]. by apply IH.
        -- inversion 1; subst; try done. eexists _, _. split; [done|].
           split; [apply Ascii.eqb_refl|]. by apply IH.
Qed.

Lemma wildcard_match_prefix_star (p s : list ascii) :
  "*"%char ∉ p → "?"%char ∉ p →
  wildcard_match (p ++ ["*"%char]) s ↔ ∃ rest, s = p ++ rest.
Proof.
  revert s. induction p as [|c p IH]; intros s Hstar Hq.
  - cbn. split; [by exists s|]. intros _.
    rewrite <- (app_nil_r s). constructor. constructor.
  - assert (c ≠ "*"%char ∧ c ≠ "?"%char) as [H1 H2]
      by (split; intros ->; [apply Hstar|apply Hq]; left).
    assert (("*"%char ∉ p) ∧ ("?"%char ∉ p)) as [H3 H4]
      by (split; intros Hin; [apply Hstar|apply Hq]; by right).
    cbn. split.
    + inversion 1; subst; try done.
      match goal with H : wildcard_match _ _ |- _ => apply IH in H as [rest ->]; [|done..] end.
      by exists rest.
    + intros [rest ->]. cbn. constructor; [done|done|]. apply IH; [done|done|by exists rest].
Qed.

Lemma wildcard_match_prefix_any (p s : list ascii) :
  "*"%char ∉ p → "?"%char ∉ p →
  wildcard_match (p ++ ["?"%char]) s ↔ ∃ d, s = p ++ [d].
Proof.
  revert s. induction p as [|c p IH]; intros s Hstar Hq.
  - cbn. split.
    + inversion 1 as [| |? d s' Hs|]; subst; [|done]. inversion Hs; subst. by exists d.
    + intros [d ->]. by repeat constructor.
  - assert (c ≠ "*"%char ∧ c ≠ "?"%char) as [H1 H2]
      by (split; intros ->; [apply Hstar|apply Hq]; left).
    assert (("*"%char ∉ p) ∧ ("?"%char ∉ p)) as [H3 H4]
      by (split; intros Hin; [apply Hstar|apply Hq]; by right).
    cbn. split.
    + inversion 1; subst; try done.
      match goal with H : wildcard_match _ _ |- _ => apply IH in H as [d ->]; [|done..] end.
      by exists d.
    + intros [d ->]. cbn. constructor; [done|done|]. apply IH; [done|done|by exists d].
Qed.

(** ** Restricting a set *)

Lemma filter_set_on_condition_spec `{Countable T} (s : gset T) (items : list T)
    (cond_func : T → T → bool) (a : T) :
  a ∈ Utils._filter_set_on_condition s items cond_func
  ↔ a ∈ s ∧ ∃ b, b ∈ items ∧ cond_func a b = true.
Proof.
  unfold Utils._filter_set_on_condition. rewrite <- (elem_of_elements s a).
  induction (elements s) as [|x l IH]; cbn [foldr].
  - split; [by intros ?%not_elem_of_empty|by intros [?%not_elem_of_nil _]].
  - assert (existsb (cond_func x) items = true ↔ ∃ b, b ∈ items ∧ cond_func x b = true)
      as Hex.
    { rewrite existsb_exists. by setoid_rewrite list_elem_of_In. }
    destruct (existsb (cond_func x) items) eqn:Hx.
    + rewrite elem_of_union, elem_of_singleton, IH, elem_of_cons.
      split.
      * intros [->|[Ha Hb]]; [split; [by left|by apply Hex]|split; [by right|done]].
      * intros [[->|Ha] Hb]; [by left|right; done].
    + rewrite IH, elem_of_cons. split.
      * intros [Ha Hb]. split; [by right|done].
      * intros [[->|Ha] Hb]; [|done].
        apply Hex in Hb. discriminate.
Qed.

(** The view built by [filtered_by_fields] stores the filter it was given. *)
Lemma init_record_filter (reader : VRSReader.t) (record_filter : RecordFilter.t)
    (view : FilteredVRSReader.t) :
  FilteredVRSReader.__init__ reader record_filter = Ok view →
  FilteredVRSReader._reader view = reader
  ∧ FilteredVRSReader._record_filter view = record_filter
  ∧ FilteredVRSReader._filtered_indices view
    = VRSReader._generate_filtered_indices reader record_filter.
Proof.
  unfold FilteredVRSReader.__init__. intros H.
  repeat match type of H with
         | context [mbind _ ?m] => destruct m; cbn in H; try discriminate H
         end.
  by simplify_eq.
Qed.

(** The view of the sample file is the one [filtered_by_fields] builds. *)
Example sample_view_is_filtered_by_fields :
  SyncVRSReader.filtered_by_fields Sample.reader (Some (SyncVRSReader.Str "100-1"))
    (Some (SyncVRSReader.Str "data")) None None = Ok Sample.view.
Proof. reflexivity. Qed.

(** C6. The stream-id dimension of the filter built by [filtered_by_fields]
    is the set of the available stream ids that match one of the requested
    patterns as [fnmatch] does; for patterns without an opening bracket this
    is the wildcard matching of the specification, in which [*] stands for
    any run of characters and [?] for any one character: the pattern [*]
    selects every available stream id, a pattern [prefix*] those that start
    with the prefix and a pattern [prefix?] those that are the prefix and one
    more character.  The patterns are expanded when the view is built and the
    view keeps a subset of the available set.  The record-type dimension is
    the set of the available record types that are equal to a requested
    string: the intersection of the two sets, whatever characters the
    requested strings have. *)
Theorem filter_dimension_resolution (reader : VRSReader.t)
    (stream_ids record_types : SyncVRSReader.names) (min_timestamp max_timestamp : option Q)
    (view : FilteredVRSReader.t) :
  SyncVRSReader.filtered_by_fields reader (Some stream_ids) (Some record_types)
    min_timestamp max_timestamp = Ok view →
  (∀ a, a ∈ FilteredVRSReader.stream_ids view
        ↔ a ∈ VRSReader.stream_ids reader
          ∧ ∃ p, p ∈ requested stream_ids
                 ∧ Py.glob_matches (Py.translate 0 (list_ascii_of_string p))
                                   (list_ascii_of_string a))
  ∧ ((∀ p, p ∈ requested stream_ids → bracket_free p) →
     ∀ a, a ∈ FilteredVRSReader.stream_ids view
          ↔ a ∈ VRSReader.stream_ids reader
            ∧ ∃ p, p ∈ requested stream_ids
                   ∧ wildcard_match (list_ascii_of_string p) (list_ascii_of_string a))
  ∧ (stream_ids = SyncVRSReader.Str "*" →
     FilteredVRSReader.stream_ids view = VRSReader.stream_ids reader)
  ∧ (∀ prefix,
       "*"%char ∉ list_ascii_of_string prefix → "?"%char ∉ list_ascii_of_string prefix →
       "["%char ∉ list_ascii_of_string prefix →
       (stream_ids = SyncVRSReader.Str (prefix +:+ "*") →
        ∀ a, a ∈ FilteredVRSReader.stream_ids view
             ↔ a ∈ VRSReader.stream_ids reader ∧ ∃ rest, a = prefix +:+ rest)
       ∧ (stream_ids = SyncVRSReader.Str (prefix +:+ "?") →
          ∀ a, a ∈ FilteredVRSReader.stream_ids view
               ↔ a ∈ VRSReader.stream_ids reader
                 ∧ ∃ c, a = prefix +:+ String c EmptyString))
  ∧ FilteredVRSReader.stream_ids view ⊆ VRSReader.stream_ids reader
  ∧ (∀ t, t ∈ FilteredVRSReader.record_types view
          ↔ t ∈ VRSReader.record_types reader ∧ t ∈ requested record_types)
  ∧ FilteredVRSReader.record_types view
    = VRSReader.record_types reader ∩ list_to_set (requested record_types).
Proof.
  intros Hview. apply init_record_filter in Hview as (_ & Hfilter & _).
  unfold FilteredVRSReader.stream_ids, FilteredVRSReader.record_types.
  rewrite Hfilter. cbn [RecordFilter.stream_ids RecordFilter.record_types].
  assert (∀ a, a ∈ Utils.filter_by_stream_ids (VRSReader.stream_ids reader)
                     (requested stream_ids)
        ↔ a ∈ VRSReader.stream_ids reader
          ∧ ∃ p, p ∈ requested stream_ids
                 ∧ Py.glob_matches (Py.translate 0 (list_ascii_of_string p))
                                   (list_ascii_of_string a)) as Hids.
  { intros a. unfold Utils.filter_by_stream_ids. rewrite filter_set_on_condition_spec.
    unfold Py.fnmatch. by setoid_rewrite glob_match_spec. }
  assert ((∀ p, p ∈ requested stream_ids → bracket_free p) →
          ∀ a, a ∈ Utils.filter_by_stream_ids (VRSReader.stream_ids reader)
                     (requested stream_ids)
        ↔ a ∈ VRSReader.stream_ids reader
          ∧ ∃ p, p ∈ requested stream_ids
                 ∧ wildcard_match (list_ascii_of_string p) (list_ascii_of_string a)) as Hwild.
  { intros Hfree a. rewrite Hids. split; intros (Ha & p & Hp & Hm); (split; [done|]);
      exists p; (split; [done|]); by apply (glob_matches_wildcard _ _ (Hfree p Hp)). }
  assert (∀ t, t ∈ Utils.filter_by_record_type (VRSReader.record_types reader)
                     (requested record_types)
        ↔ t ∈ VRSReader.record_types reader ∧ t ∈ requested record_types) as Htypes.
  { intros t. unfold Utils.filter_by_record_type. rewrite filter_set_on_condition_spec.
    split.
    - intros (Ht & b & Hb & Heq). apply String.eqb_eq in Heq as ->. done.
    - intros [Ht Hreq]. split; [done|]. exists t. split; [done|apply String.eqb_refl]. }
  assert (Hsame : ∀ n, match n with
                      | SyncVRSReader.Str s => [s]
                      | SyncVRSReader.Collection l => l
                      end = requested n) by (by intros []).
  rewrite !Hsame.
  refine (conj Hids (conj Hwild (conj _ (conj _ (conj _ (conj Htypes _)))))).
  - intros ->. apply leibniz_equiv. intros a. rewrite Hwild.
    + split; [by intros [? _]|]. intros Ha. split; [done|].
      exists "*"%string. split; [by left|].
      cbn. rewrite <- (app_nil_r (list_ascii_of_string a)). constructor. constructor.
    + intros p ->%list_elem_of_singleton.
      unfold bracket_free. cbn. by intros [=]%list_elem_of_singleton.
  - intros prefix H1 H2 H3. split; intros -> a; (rewrite Hwild; [|
      intros p ->%list_elem_of_singleton; unfold bracket_free;
      rewrite list_ascii_of_string_append, elem_of_app; cbn;
      intros [?|[=]%list_elem_of_singleton]; done]).
    + split.
      * intros (Ha & p & ->%list_elem_of_singleton & Hm). split; [done|].
        rewrite list_ascii_of_string_append in Hm.
        apply wildcard_match_prefix_star in Hm as [rest Hrest]; [|done..].
        exists (string_of_list_ascii rest). apply list_ascii_of_string_inj.
        by rewrite list_ascii_of_string_append, list_ascii_of_string_of_list_ascii.
      * intros (Ha & rest & ->). split; [done|]. eexists. split; [by left|].
        rewrite !list_ascii_of_string_append.
        apply wildcard_match_prefix_star; [done|done|by eexists].
    + split.
      * intros (Ha & p & ->%list_elem_of_singleton & Hm). split; [done|].
        rewrite list_ascii_of_string_append in Hm.
        apply wildcard_match_prefix_any in Hm as [c Hc]; [|done..].
        exists c. apply list_ascii_of_string_inj.
        by rewrite list_ascii_of_string_append.
      * intros (Ha & c & ->). split; [done|]. eexists. split; [by left|].
        rewrite !list_ascii_of_string_append.
        apply wildcard_match_prefix_any; [done|done|by eexists].
  - intros a Ha. by apply Hids in Ha as [Ha _].
  - apply leibniz_equiv. intros t.
    rewrite Htypes, elem_of_intersection, elem_of_list_to_set. done.
Qed.

Lemma filter_dimension_resolution_witness :
  (∀ a, a ∈ FilteredVRSReader.stream_ids Sample.wildcard_view
        ↔ a ∈ VRSReader.stream_ids Sample.reader
          ∧ ∃ c, a = ("100-" +:+ String c EmptyString)%string)
  ∧ FilteredVRSReader.record_types Sample.wildcard_view
    = VRSReader.record_types Sample.reader
      ∩ list_to_set (requested (SyncVRSReader.Collection ["data"; "conf*"]%string))
  ∧ "configuration"%string ∉ FilteredVRSReader.record_types Sample.wildcard_view.
Proof.
  destruct (filter_dimension_resolution Sample.reader (SyncVRSReader.Str "100-?")
              (SyncVRSReader.Collection ["data"; "conf*"]%string) None None
              Sample.wildcard_view eq_refl)
    as (_ & _ & _ & Hprefix & _ & Hequal & Htypes).
  split; [|split; [exact Htypes|]].
  - apply (Hprefix "100-"%string); [| | |reflexivity];
      apply (bool_decide_unpack _); vm_compute; exact I.
  - intros Hin. apply Hequal in Hin as [_ Hin]. revert Hin.
    apply (bool_decide_unpack _). vm_compute. exact I.
Defined.

(** What the view of the witness keeps. *)
Example wildcard_view_dimensions :
  FilteredVRSReader.stream_ids Sample.wildcard_view = {["100-1"; "100-2"]}%string
  ∧ FilteredVRSReader.record_types Sample.wildcard_view = {["data"%string]}
  ∧ "configuration"%string ∈ VRSReader.record_types Sample.reader.
Proof.
  split; [reflexivity|]. split; [reflexivity|].
  apply (bool_decide_unpack _). vm_compute. exact I.
Qed.

(** ** Omitted filter dimensions *)

Lemma filter_by_record_type_all (available : gset string) :
  Utils.filter_by_record_type available (elements available) = available.
Proof.
  apply set_eq. intros t. unfold Utils.filter_by_record_type.
  rewrite filter_set_on_condition_spec. split; [by intros [? _]|].
  intros Ht. split; [done|]. exists t.
  split; [by apply elem_of_elements|apply String.eqb_refl].
Qed.

Lemma filter_by_stream_ids_all (available : gset string) :
  (∀ s, s ∈ available → bracket_free s) →
  Utils.filter_by_stream_ids available (elements available) = available.
Proof.
  intros Hfree. apply set_eq. intros a. unfold Utils.filter_by_stream_ids.
  rewrite filter_set_on_condition_spec. split; [by intros [? _]|].
  intros Ha. split; [done|]. exists a.
  split; [by apply elem_of_elements|by apply fnmatch_refl, Hfree].
Qed.

(** An available stream id with a bracket need not select itself. *)
Example filter_by_stream_ids_bracket :
  Utils.filter_by_stream_ids {["[1]"%string]} (elements ({["[1]"%string]} : gset string)) = ∅.
Proof. vm_compute. reflexivity. Qed.

Lemma derive_from_all (c : list Catalog.entry) (keep : Catalog.entry → bool) (i : Z) :
  (∀ e, e ∈ c → keep e = true) →
  Catalog.derive_from i c keep = seqZ i (Z.of_nat (length c)).
Proof.
  revert i. induction c as [|e c IH]; intros i Hall; [reflexivity|].
  cbn [Catalog.derive_from length]. rewrite Hall by left.
  rewrite (seqZ_cons i) by lia. f_equal.
  rewrite IH by (intros e' He'; apply Hall; by right).
  f_equal; lia.
Qed.

Lemma Qmin_bool_le (a b : Q) : (Catalog.Qmin_bool a b <= a)%Q ∧ (Catalog.Qmin_bool a b <= b)%Q.
Proof.
  unfold Catalog.Qmin_bool. destruct (Qle_bool a b) eqn:Hab.
  - apply Qle_bool_iff in Hab. split; [apply Qle_refl|done].
  - split; [|apply Qle_refl].
    destruct (Qlt_le_dec b a) as [Hlt|Hle]; [by apply Qlt_le_weak|].
    apply Qle_bool_iff in Hle. congruence.
Qed.

Lemma Qmax_bool_ge (a b : Q) : (a <= Catalog.Qmax_bool a b)%Q ∧ (b <= Catalog.Qmax_bool a b)%Q.
Proof.
  unfold Catalog.Qmax_bool. destruct (Qle_bool a b) eqn:Hab.
  - apply Qle_bool_iff in Hab. split; [done|apply Qle_refl].
  - split; [apply Qle_refl|].
    destruct (Qlt_le_dec b a) as [Hlt|Hle]; [by apply Qlt_le_weak|].
    apply Qle_bool_iff in Hle. congruence.
Qed.

(** Every timestamp of the catalog lies between its smallest and its largest
    one. *)
Lemma catalog_timestamp_bounds (c : list Catalog.entry) (e : Catalog.entry) :
  e ∈ c →
  Qle_bool (Catalog.min_timestamp c) (Catalog.timestamp e) = true
  ∧ Qle_bool (Catalog.timestamp e) (Catalog.max_timestamp c) = true.
Proof.
  destruct c as [|e0 c]; [by intros ?%not_elem_of_nil|].
  unfold Catalog.min_timestamp, Catalog.max_timestamp. rewrite !Qle_bool_iff.
  revert e. induction c as [|e1 c IH]; intros e He; cbn [foldr].
  - apply list_elem_of_singleton in He as ->. split; apply Qle_refl.
  - pose proof (Qmin_bool_le (Catalog.timestamp e1)
        (foldr (λ e' m, Catalog.Qmin_bool (Catalog.timestamp e') m)
               (Catalog.timestamp e0) c)) as [Hmin1 Hmin2].
    pose proof (Qmax_bool_ge (Catalog.timestamp e1)
        (foldr (λ e' m, Catalog.Qmax_bool (Catalog.timestamp e') m)
               (Catalog.timestamp e0) c)) as [Hmax1 Hmax2].
    assert (e = e1 ∨ e ∈ e0 :: c) as [->|Hin].
    { apply elem_of_cons in He as [->|He]; [right; left|].
      apply elem_of_cons in He as [->|He]; [by left|right; by right]. }
    + done.
    + destruct (IH e Hin) as [Hlo Hhi].
      split; [by eapply Qle_trans|by eapply Qle_trans].
Qed.

(** Building a view succeeds as soon as the reader knows the timestamps of
    the first and the last selected record. *)
Lemma init_nonempty (reader : VRSReader.t) (record_filter : RecordFilter.t)
    (first_index last_index : Z) (t_first t_last : Q) :
  head (VRSReader._generate_filtered_indices reader record_filter) = Some first_index →
  last (VRSReader._generate_filtered_indices reader record_filter) = Some last_index →
  VRSReader.get_timestamp_for_index reader first_index = Ok t_first →
  VRSReader.get_timestamp_for_index reader last_index = Ok t_last →
  FilteredVRSReader.__init__ reader record_filter
  = Ok (FilteredVRSReader.MkFilteredVRSReader reader record_filter
          (VRSReader._generate_filtered_indices reader record_filter) t_first t_last).
Proof.
  intros Hhead Hlast Hfirst Hlst. unfold FilteredVRSReader.__init__.
  rewrite (getitem_head _ _ Hhead), (getitem_last _ _ Hlast).
  destruct (VRSReader._generate_filtered_indices reader record_filter) as [|i l];
    [discriminate|].
  replace (Z.of_nat (length (i :: l)) =? 0) with false
    by (symmetry; apply Z.eqb_neq; cbn [length]; lia).
  cbn. rewrite Hfirst. cbn. rewrite Hlst. reflexivity.
Qed.

(** Over a catalog, the filter with the reader's own sets and bounds selects
    every record. *)
Lemma catalog_unrestricted (path : string) (c : list Catalog.entry) (auto : bool) :
  let reader := VRSReader.__init__ path (Catalog.store c) auto in
  ∃ view,
    FilteredVRSReader.__init__ reader
      (RecordFilter.RecordFilter (VRSReader.record_types reader) (VRSReader.stream_ids reader)
         (VRSReader.min_timestamp reader) (VRSReader.max_timestamp reader)) = Ok view
    ∧ FilteredVRSReader._filtered_indices view = Py.range (VRSReader.n_records reader).
Proof.
  intros reader.
  set (record_filter := RecordFilter.RecordFilter _ _ _ _).
  assert (VRSReader._generate_filtered_indices reader record_filter
          = seqZ 0 (Z.of_nat (length c))) as HL.
  { unfold VRSReader._generate_filtered_indices. cbn. unfold Catalog.derive.
    apply derive_from_all. intros e He. unfold Catalog.selected.
    destruct (catalog_timestamp_bounds c e He) as [-> ->].
    rewrite !andb_true_r, andb_true_iff, !bool_decide_eq_true.
    unfold Catalog.record_types, Catalog.stream_ids.
    rewrite !elem_of_list_to_set, !list_elem_of_fmap. split; by exists e. }
  destruct (decide (length c = 0%nat)) as [Hnil|Hne].
  - apply nil_length_inv in Hnil. subst c.
    eexists. split; [reflexivity|reflexivity].
  - assert (0 < Z.of_nat (length c)) as Hlen by lia.
    assert (∀ i, 0 ≤ i < Z.of_nat (length c) →
                 ∃ t, VRSReader.get_timestamp_for_index reader i = Ok t) as Hts.
    { intros i Hi. unfold VRSReader.get_timestamp_for_index. cbn.
      unfold Catalog.count. destruct (Z.leb_spec (Z.of_nat (length c)) i); [lia|].
      apply catalog_timestamp_at_succeeds. unfold Catalog.count. lia. }
    destruct (Hts 0 ltac:(lia)) as [t1 Ht1].
    destruct (Hts (Z.of_nat (length c) - 1) ltac:(lia)) as [t2 Ht2].
    eexists. split.
    + apply (init_nonempty reader record_filter 0 (Z.of_nat (length c) - 1) t1 t2);
        [| |done|done]; rewrite HL.
      * rewrite (seqZ_cons 0) by lia. reflexivity.
      * rewrite last_lookup, length_seqZ.
        rewrite lookup_seqZ_lt by lia. f_equal. lia.
    + cbn [FilteredVRSReader._filtered_indices]. exact HL.
Qed.

Lemma index_of_split (c : ascii) (l : list ascii) (k : nat) :
  Py.index_of c l = Some k → l = take k l ++ c :: drop (S k) l.
Proof.
  revert k. induction l as [|d l IH]; intros k; cbn [Py.index_of]; [discriminate|].
  destruct (Ascii.eqb_spec c d) as [->|Hne].
  - intros [= <-]. reflexivity.
  - destruct (Py.index_of c l) as [k'|]; [|discriminate].
    intros [= <-]. cbn. f_equal. by apply IH.
Qed.

(** A stream id of the documented form has no bracket. *)
Lemma stream_id_format_bracket_free (s : string) :
  stream_id_format s = true → bracket_free s.
Proof.
  unfold stream_id_format, bracket_free.
  destruct (Py.index_of "-" (list_ascii_of_string s)) as [k|] eqn:Hk; [|discriminate].
  intros H. apply andb_true_iff in H as [H Hafter].
  apply andb_true_iff in H as [H _]. apply andb_true_iff in H as [_ Hbefore].
  rewrite (index_of_split _ _ _ Hk), elem_of_app, elem_of_cons.
  rewrite forallb_forall in Hbefore, Hafter.
  intros [Hin|[Heq|Hin]]; [|discriminate Heq|].
  - apply list_elem_of_In, Hbefore in Hin. discriminate Hin.
  - apply list_elem_of_In, Hafter in Hin. discriminate Hin.
Qed.

(** C5. On an unfiltered reader whose stream ids contain no opening bracket
    (stream ids have the form [<recordable_type_id>-<instance_id>]), a
    dimension of [filtered_by_fields] that is omitted does not restrict:
    omitted [record_types] gives all available record types, omitted
    [stream_ids] all available stream ids, omitted [min_timestamp] and
    [max_timestamp] the reader's own bounds; with every dimension omitted the
    store is asked for the indices within the reader's own sets and bounds,
    and over a catalog these are all the records. *)
Theorem filtered_by_fields_defaults (reader : VRSReader.t) :
  (∀ s, s ∈ VRSReader.stream_ids reader → bracket_free s) →
  (∀ stream_ids min_timestamp max_timestamp view,
     SyncVRSReader.filtered_by_fields reader stream_ids None min_timestamp max_timestamp
     = Ok view →
     FilteredVRSReader.record_types view = VRSReader.record_types reader)
  ∧ (∀ record_types min_timestamp max_timestamp view,
       SyncVRSReader.filtered_by_fields reader None record_types min_timestamp max_timestamp
       = Ok view →
       FilteredVRSReader.stream_ids view = VRSReader.stream_ids reader)
  ∧ (∀ stream_ids record_types max_timestamp view,
       SyncVRSReader.filtered_by_fields reader stream_ids record_types None max_timestamp
       = Ok view →
       FilteredVRSReader.min_filter_timestamp view = VRSReader.min_timestamp reader)
  ∧ (∀ stream_ids record_types min_timestamp view,
       SyncVRSReader.filtered_by_fields reader stream_ids record_types min_timestamp None
       = Ok view →
       FilteredVRSReader.max_filter_timestamp view = VRSReader.max_timestamp reader)
  ∧ (∀ view,
       SyncVRSReader.filtered_by_fields reader None None None None = Ok view →
       FilteredVRSReader._filtered_indices view
       = Bindings.regenerate_enabled_indices (VRSReader._reader reader)
           (VRSReader.record_types reader) (VRSReader.stream_ids reader)
           (VRSReader.min_timestamp reader) (VRSReader.max_timestamp reader))
  ∧ (∀ path c auto, reader = VRSReader.__init__ path (Catalog.store c) auto →
       ∃ view,
         SyncVRSReader.filtered_by_fields reader None None None None = Ok view
         ∧ FilteredVRSReader._filtered_indices view = Py.range (VRSReader.n_records reader)
         ∧ FilteredVRSReader.n_records view = VRSReader.n_records reader).
Proof.
  intros Hfree.
  pose proof (filter_by_stream_ids_all _ Hfree) as Hids.
  pose proof (filter_by_record_type_all (VRSReader.record_types reader)) as Htypes.
  unfold SyncVRSReader.filtered_by_fields.
  refine (conj _ (conj _ (conj _ (conj _ (conj _ _))))).
  - intros ???? (_ & Hf & _)%init_record_filter.
    unfold FilteredVRSReader.record_types. rewrite Hf. exact Htypes.
  - intros ???? (_ & Hf & _)%init_record_filter.
    unfold FilteredVRSReader.stream_ids. rewrite Hf. exact Hids.
  - intros ???? (_ & Hf & _)%init_record_filter.
    unfold FilteredVRSReader.min_filter_timestamp. by rewrite Hf.
  - intros ???? (_ & Hf & _)%init_record_filter.
    unfold FilteredVRSReader.max_filter_timestamp. by rewrite Hf.
  - intros view (_ & _ & ->)%init_record_filter. cbn [default].
    rewrite Hids, Htypes. reflexivity.
  - intros path c auto ->. cbn [default]. rewrite Hids, Htypes.
    destruct (catalog_unrestricted path c auto) as (view & Hview & HL).
    exists view. split; [exact Hview|]. split; [exact HL|].
    unfold FilteredVRSReader.n_records. rewrite HL. unfold Py.range.
    rewrite length_seqZ. cbn. unfold Catalog.count. lia.
Qed.

Lemma filtered_by_fields_defaults_witness :
  ∃ view,
    SyncVRSReader.filtered_by_fields Sample.reader None None None None = Ok view
    ∧ FilteredVRSReader._filtered_indices view = Py.range (VRSReader.n_records Sample.reader)
    ∧ FilteredVRSReader.n_records view = VRSReader.n_records Sample.reader.
Proof.
  refine (proj2 (proj2 (proj2 (proj2 (proj2
            (filtered_by_fields_defaults Sample.reader _)))))
            "sample.vrs"%string Sample.catalog true eq_refl).
  intros s Hs. apply stream_id_format_bracket_free.
  assert (s = "100-1"%string ∨ s = "100-2"%string) as [-> | ->]; [|reflexivity..].
  change (s ∈ ({["100-1"%string; "100-2"%string]} : gset string)) in Hs.
  apply elem_of_union in Hs as [Hs|Hs]; apply elem_of_singleton in Hs; auto.
Defined.

(** ** Metadata keys *)

Lemma string_length_append (s1 s2 : string) :
  String.length (s1 +:+ s2) = (String.length s1 + String.length s2)%nat.
Proof. induction s1 as [|c s1 IH]; simpl; [done|by f_equal]. Qed.

Lemma repeat_string_length (c : ascii) (n : nat) :
  String.length (Utils.repeat_string (String c EmptyString) n) = n.
Proof. induction n as [|n IH]; simpl; [done|by f_equal]. Qed.

Lemma bracketed_length (name type_ : string) (i : nat) :
  String.length (Utils.bracketed name type_ i)
  = (String.length name + i + String.length type_ + i)%nat.
Proof.
  unfold Utils.bracketed.
  rewrite !string_length_append, !repeat_string_length. lia.
Qed.

(** The keys tried by [_unique_string_for_key] are pairwise different, and
    none is the bare name. *)
Lemma bracketed_inj (name type_ : string) (i j : nat) :
  Utils.bracketed name type_ i = Utils.bracketed name type_ j → i = j.
Proof.
  intros H. apply (f_equal String.length) in H. rewrite !bracketed_length in H. lia.
Qed.

Lemma bracketed_not_name (name type_ : string) (i : nat) :
  (0 < i)%nat → Utils.bracketed name type_ i ≠ name.
Proof.
  intros Hi H. apply (f_equal String.length) in H. rewrite bracketed_length in H. lia.
Qed.

Lemma unique_loop_form {V} (fuel : nat) (name type_ : string) (d : gmap string V) (i : nat) :
  ∃ k, (i ≤ k)%nat ∧ Utils.unique_loop fuel name type_ d i = Utils.bracketed name type_ k.
Proof.
  revert i. induction fuel as [|fuel IH]; intros i; cbn [Utils.unique_loop].
  - exists i. split; [lia|]. by destruct (d !! Utils.bracketed name type_ i).
  - destruct (d !! Utils.bracketed name type_ i); [|exists i; split; [lia|done]].
    destruct (IH (S i)) as (k & Hk & ->). exists k. split; [lia|done].
Qed.

Lemma unique_loop_delete {V} (fuel : nat) (name type_ : string) (d : gmap string V)
    (i j : nat) :
  (j < i)%nat →
  Utils.unique_loop fuel name type_ (delete (Utils.bracketed name type_ j) d) i
  = Utils.unique_loop fuel name type_ d i.
Proof.
  revert i. induction fuel as [|fuel IH]; intros i Hj; cbn [Utils.unique_loop];
    rewrite lookup_delete_ne by (intros ?%bracketed_inj; lia);
    destruct (d !! Utils.bracketed name type_ i); try done.
  apply IH. lia.
Qed.

(** With as much fuel as the dictionary has keys, the loop ends on a key that
    is not in the dictionary. *)
Lemma unique_loop_fresh {V} (fuel : nat) (name type_ : string) (d : gmap string V) (i : nat) :
  (size d ≤ fuel)%nat → d !! Utils.unique_loop fuel name type_ d i = None.
Proof.
  revert d i. induction fuel as [|fuel IH]; intros d i Hsize; cbn [Utils.unique_loop];
    destruct (d !! Utils.bracketed name type_ i) as [v|] eqn:Hi; try done.
  - assert (d = ∅) as -> by (apply map_size_empty_inv; lia).
    by rewrite lookup_empty in Hi.
  - rewrite <- (unique_loop_delete fuel name type_ d (S i) i) by lia.
    destruct (unique_loop_form fuel name type_
                (delete (Utils.bracketed name type_ i) d) (S i)) as (k & Hk & Hform).
    specialize (IH (delete (Utils.bracketed name type_ i) d) (S i)).
    rewrite Hform in IH |- *.
    rewrite lookup_delete_ne in IH by (intros ?%bracketed_inj; lia).
    apply IH. rewrite map_size_delete_Some by (by eexists). lia.
Qed.

Lemma unique_string_for_key_fresh {V} (name type_ : string) (d : gmap string V) :
  d !! Utils._unique_string_for_key name type_ d = None.
Proof. by apply unique_loop_fresh. Qed.

Lemma unique_string_for_key_form {V} (name type_ : string) (d : gmap string V) :
  ∃ k, (1 ≤ k)%nat ∧ Utils._unique_string_for_key name type_ d = Utils.bracketed name type_ k.
Proof. apply unique_loop_form. Qed.

(** The key that is returned is the first free one: [name<type>] when that is
    free, else the one with the fewest brackets that is. *)
Lemma unique_string_for_key_first {V} (name type_ : string) (d : gmap string V) :
  ∃ k, (1 ≤ k)%nat
       ∧ Utils._unique_string_for_key name type_ d = Utils.bracketed name type_ k
       ∧ d !! Utils.bracketed name type_ k = None
       ∧ ∀ j, (1 ≤ j < k)%nat → is_Some (d !! Utils.bracketed name type_ j).
Proof.
  unfold Utils._unique_string_for_key.
  assert (∀ fuel i, ∃ k, (i ≤ k)%nat
            ∧ Utils.unique_loop fuel name type_ d i = Utils.bracketed name type_ k
            ∧ ∀ j, (i ≤ j < k)%nat → is_Some (d !! Utils.bracketed name type_ j)) as Hloop.
  { induction fuel as [|fuel IH]; intros i; cbn [Utils.unique_loop].
    - exists i. split; [lia|]. split; [by destruct (d !! _)|]. intros j Hj. lia.
    - destruct (d !! Utils.bracketed name type_ i) as [v|] eqn:Hi.
      + destruct (IH (S i)) as (k & Hk & Heq & Hbelow).
        exists k. split; [lia|]. split; [done|]. intros j Hj.
        destruct (decide (j = i)) as [->|Hne]; [by eexists|]. apply Hbelow. lia.
      + exists i. split; [lia|]. split; [done|]. intros j Hj. lia. }
  destruct (Hloop (size d) 1%nat) as (k & Hk & Heq & Hbelow).
  exists k. split; [done|]. split; [done|]. split; [|done].
  rewrite <- Heq. by apply unique_loop_fresh.
Qed.

(** Each iteration that does not raise adds exactly one key. *)
Lemma stringify_step_size {V} (st st' : Utils.locals V) (entry : string * string * V) :
  Utils.stringify_step st entry = Ok st' →
  size (Utils.filtered st') = S (size (Utils.filtered st)).
Proof.
  destruct entry as [[name type_] value]. unfold Utils.stringify_step.
  destruct (decide (name ∈ Utils.ambiguous_names st)) as [Hamb|Hamb].
  - intros [= <-]. cbn.
    by rewrite map_size_insert_None by apply unique_string_for_key_fresh.
  - destruct (Utils.filtered st !! name) as [old_value|] eqn:Hname.
    + destruct (Utils.removed_types st !! name) as [old_type|]; [|discriminate].
      intros [= <-]. cbn.
      rewrite !map_size_insert_None by apply unique_string_for_key_fresh.
      rewrite map_size_delete_Some by (by eexists).
      assert (size (Utils.filtered st) ≠ 0%nat)
        by (apply (map_size_ne_0_lookup_2 _ name); by eexists).
      lia.
    + intros [= <-]. cbn. by rewrite map_size_insert_None.
Qed.

Lemma stringify_loop_size {V} (items : list (string * string * V)) (st st' : Utils.locals V) :
  Utils.stringify_loop st items = Ok st' →
  size (Utils.filtered st') = (size (Utils.filtered st) + length items)%nat.
Proof.
  revert st. induction items as [|entry items IH]; intros st; cbn [Utils.stringify_loop].
  - intros [= <-]. cbn. lia.
  - destruct (Utils.stringify_step st entry) as [st1|] eqn:Hstep; cbn; [|discriminate].
    intros H. apply IH in H. apply stringify_step_size in Hstep. cbn [length]. lia.
Qed.

(** Whenever [stringify_metadata_keys] returns, its result has one key for
    each entry. *)
Lemma stringify_metadata_keys_size {V} (metadata_dict : list (string * string * V))
    (d : gmap string V) :
  Utils.stringify_metadata_keys metadata_dict = Ok d → size d = length metadata_dict.
Proof.
  unfold Utils.stringify_metadata_keys.
  destruct (Utils.stringify_loop _ metadata_dict) as [st|] eqn:Hloop; cbn; [|discriminate].
  intros [= <-]. apply stringify_loop_size in Hloop.
  cbn [Utils.filtered] in Hloop. by rewrite map_size_empty in Hloop.
Qed.

(** It raises nothing but [KeyError], and an iteration raises it exactly for
    a name that is not known to be ambiguous and is a key of the output
    without being a name that was stored bare. *)
Lemma stringify_step_raises {V} (st : Utils.locals V) (name type_ : string) (value : V)
    (e : exn) :
  Utils.stringify_step st (name, type_, value) = Raise e
  ↔ e = KeyError
    ∧ (name ∉ Utils.ambiguous_names st)
    ∧ is_Some (Utils.filtered st !! name)
    ∧ Utils.removed_types st !! name = None.
Proof.
  unfold Utils.stringify_step.
  destruct (decide (name ∈ Utils.ambiguous_names st)) as [Hamb|Hamb].
  - split; [discriminate|]. by intros (_ & Hn & _).
  - destruct (Utils.filtered st !! name) as [old_value|] eqn:Hname.
    + destruct (Utils.removed_types st !! name) as [old_type|] eqn:Hrem.
      * split; [discriminate|]. by intros (_ & _ & _ & ?).
      * split; [by intros [= <-]; eauto|]. by intros (-> & _).
    + split; [discriminate|]. by intros (_ & _ & [? ?] & _).
Qed.

(** The three cases of an iteration. *)
Lemma stringify_step_ambiguous {V} (st : Utils.locals V) (name type_ : string) (value : V) :
  name ∈ Utils.ambiguous_names st →
  Utils.stringify_step st (name, type_, value)
  = Ok (Utils.Locals
          (<[Utils._unique_string_for_key name type_ (Utils.filtered st) := value]>
             (Utils.filtered st))
          (Utils.ambiguous_names st) (Utils.removed_types st)).
Proof. intros H. unfold Utils.stringify_step. by rewrite decide_True. Qed.

Lemma stringify_step_collision {V} (st : Utils.locals V) (name type_ old_type : string)
    (value old_value : V) :
  name ∉ Utils.ambiguous_names st →
  Utils.filtered st !! name = Some old_value →
  Utils.removed_types st !! name = Some old_type →
  ∃ filtered2,
    filtered2
    = <[Utils._unique_string_for_key name old_type (delete name (Utils.filtered st))
        := old_value]> (delete name (Utils.filtered st))
    ∧ Utils.stringify_step st (name, type_, value)
      = Ok (Utils.Locals
              (<[Utils._unique_string_for_key name type_ filtered2 := value]> filtered2)
              ({[name]} ∪ Utils.ambiguous_names st)
              (delete name (Utils.removed_types st))).
Proof.
  intros Hamb Hname Hrem. eexists. split; [reflexivity|].
  unfold Utils.stringify_step. by rewrite decide_False, Hname, Hrem.
Qed.

Lemma stringify_step_first {V} (st : Utils.locals V) (name type_ : string) (value : V) :
  name ∉ Utils.ambiguous_names st →
  Utils.filtered st !! name = None →
  Utils.stringify_step st (name, type_, value)
  = Ok (Utils.Locals (<[name := value]> (Utils.filtered st)) (Utils.ambiguous_names st)
          (<[name := type_]> (Utils.removed_types st))).
Proof. intros Hamb Hname. unfold Utils.stringify_step. by rewrite decide_False, Hname. Qed.

Lemma bracketed_has_bracket (name type_ : string) (k : nat) :
  (1 ≤ k)%nat → "<"%char ∈ list_ascii_of_string (Utils.bracketed name type_ k).
Proof.
  intros Hk. destruct k as [|k]; [lia|]. unfold Utils.bracketed.
  rewrite !list_ascii_of_string_append. cbn [Utils.repeat_string].
  rewrite list_ascii_of_string_append. cbn.
  rewrite elem_of_app. right. left.
Qed.

Lemma stringify_step_plain_name {V} (st : Utils.locals V) (name type_ : string) (value : V) :
  keys_accounted st →
  "<"%char ∉ list_ascii_of_string name →
  ∃ st', Utils.stringify_step st (name, type_, value) = Ok st' ∧ keys_accounted st'.
Proof.
  intros Hst Hplain.
  assert (∀ (ty : string) (d : gmap string V),
            "<"%char ∈ list_ascii_of_string (Utils._unique_string_for_key name ty d)) as Hlt.
  { intros ty d. destruct (unique_string_for_key_form name ty d) as (k & Hk & ->).
    by apply bracketed_has_bracket. }
  unfold Utils.stringify_step.
  destruct (decide (name ∈ Utils.ambiguous_names st)) as [Hamb|Hamb].
  - eexists. split; [reflexivity|]. intros k. cbn.
    destruct (decide (k = Utils._unique_string_for_key name type_ (Utils.filtered st)))
      as [->|Hne]; [intros _; right; apply Hlt|].
    rewrite lookup_insert_ne by done. apply Hst.
  - destruct (Utils.filtered st !! name) as [old_value|] eqn:Hname.
    + destruct (Hst name) as [[old_type Hrem]|Hin]; [by eexists| |done].
      rewrite Hrem. eexists. split; [reflexivity|]. intros k. cbn.
      set (filtered1 := delete name (Utils.filtered st)).
      set (u1 := Utils._unique_string_for_key name old_type filtered1).
      set (u2 := Utils._unique_string_for_key name type_ (<[u1:=old_value]> filtered1)).
      destruct (decide (k = u2)) as [->|Hne2]; [intros _; right; apply Hlt|].
      rewrite lookup_insert_ne by done.
      destruct (decide (k = u1)) as [->|Hne1]; [intros _; right; apply Hlt|].
      rewrite lookup_insert_ne by done. subst filtered1.
      destruct (decide (k = name)) as [->|Hne]; [by rewrite lookup_delete_eq; intros [? ?]|].
      rewrite !lookup_delete_ne by done. apply Hst.
    + eexists. split; [reflexivity|]. intros k. cbn.
      destruct (decide (k = name)) as [->|Hne].
      * rewrite !lookup_insert_eq. left. by eexists.
      * rewrite !lookup_insert_ne by done. apply Hst.
Qed.

(** When no name of the input has an opening angle bracket, the call returns,
    with one key for each entry. *)
Lemma stringify_metadata_keys_plain_names {V} (metadata_dict : list (string * string * V)) :
  Forall (λ entry, "<"%char ∉ list_ascii_of_string entry.1.1) metadata_dict →
  ∃ d, Utils.stringify_metadata_keys metadata_dict = Ok d ∧ size d = length metadata_dict.
Proof.
  intros Hplain.
  assert (∀ st : Utils.locals V, keys_accounted st →
            ∃ st', Utils.stringify_loop st metadata_dict = Ok st') as Hloop.
  { induction Hplain as [|[[name type_] value] items Hname Hitems IH]; intros st Hst.
    - by eexists.
    - cbn [Utils.stringify_loop].
      destruct (stringify_step_plain_name st name type_ value Hst Hname)
        as (st1 & -> & Hst1).
      cbn. by apply IH. }
  destruct (Hloop (Utils.Locals ∅ ∅ ∅)) as [st' Hst'].
  { intros k [v Hk]. cbn in Hk. by rewrite lookup_empty in Hk. }
  assert (Utils.stringify_metadata_keys metadata_dict = Ok (Utils.filtered st')) as Hd
    by (unfold Utils.stringify_metadata_keys; by rewrite Hst').
  eexists. split; [exact Hd|]. by apply stringify_metadata_keys_size.
Qed.

(** The examples of the package's tests. *)
Example stringify_basic :
  Utils.stringify_metadata_keys
    [ ("varnamea", "typenamea", "aval"); ("varnameb", "typenameb", "bval") ]%string
  = Ok (<["varnamea" := "aval"]> (<["varnameb" := "bval"]> ∅))%string.
Proof. vm_compute. reflexivity. Qed.

Example stringify_with_collision :
  Utils.stringify_metadata_keys
    [ ("varname", "typenamea", "aval"); ("varname", "typenameb", "bval");
      ("varnameother", "typenameb", "cval") ]%string
  = Ok (<["varname<typenamea>" := "aval"]> (<["varname<typenameb>" := "bval"]>
        (<["varnameother" := "cval"]> ∅)))%string.
Proof. vm_compute. reflexivity. Qed.

Example stringify_with_ambiguity :
  Utils.stringify_metadata_keys
    [ ("acceleration<int>", "int", 2); ("acceleration", "int", 3);
      ("acceleration", "float", 4); ("other", "int", 5) ]%string
  = Ok (<["acceleration<int>" := 2]> (<["acceleration<<int>>" := 3]>
        (<["acceleration<float>" := 4]> (<["other" := 5]> ∅))))%string.
Proof. vm_compute. reflexivity. Qed.

(** C3. The first occurrence of a name is to be stored under the bare name,
    whatever came before.  For the entries [("a", "t1")],
    [("a", "t2")], [("a<t1>", "x")] in this order, the collision on ["a"]
    creates the key ["a<t1>"]; the first occurrence of the name ["a<t1>"] is
    then taken for a collision, and popping it from [removed_types] raises
    [KeyError].  With the name ["a<t1>"] first, as in the package's test, the
    same entries are accepted. *)
Theorem stringify_first_occurrence_raises :
  Utils.stringify_metadata_keys
    [ ("a", "t1", 1); ("a", "t2", 2); ("a<t1>", "x", 3) ]%string
  = Raise KeyError
  ∧ Utils.stringify_metadata_keys
      [ ("a<t1>", "x", 3); ("a", "t1", 1); ("a", "t2", 2) ]%string
    = Ok (<["a<t1>" := 3]> (<["a<<t1>>" := 1]> (<["a<t2>" := 2]> ∅)))%string.
Proof. split; vm_compute; reflexivity. Qed.

(** C4. The output is to have as many entries as the input when the input
    keys are pairwise different.  For three entries with pairwise
    different keys there is no output at all: the call raises [KeyError]. *)
Theorem stringify_distinct_keys_raises :
  NoDup [ ("x", "int"); ("x", "float"); ("x<int>", "str") ]%string
  ∧ Utils.stringify_metadata_keys
      [ ("x", "int", 10); ("x", "float", 20); ("x<int>", "str", 30) ]%string
    = Raise KeyError.
Proof.
  split; [|vm_compute; reflexivity].
  repeat constructor; rewrite ?elem_of_cons, ?elem_of_nil; intros H;
    repeat destruct H as [H|H]; try discriminate H; done.
Qed.

(** ** Slices in general *)

Lemma clamp_bound_range (len b : Z) (neg : bool) :
  0 ≤ len →
  if neg then -1 ≤ Py.clamp_bound len true b ≤ len - 1
  else 0 ≤ Py.clamp_bound len false b ≤ len.
Proof.
  intros Hlen. unfold Py.clamp_bound.
  destruct neg; destruct (Z.ltb_spec b 0); try destruct (Z.ltb_spec (b + len) 0);
    try destruct (Z.leb_spec len b); lia.
Qed.

Lemma indices_bounds (len lo hi st : Z) (s : Py.slice) :
  0 ≤ len → Py.indices len s = Ok (lo, hi, st) →
  st ≠ 0
  ∧ (0 < st → 0 ≤ lo ≤ len ∧ 0 ≤ hi ≤ len)
  ∧ (st < 0 → -1 ≤ lo ≤ len - 1 ∧ -1 ≤ hi ≤ len - 1).
Proof.
  intros Hlen. unfold Py.indices.
  destruct (Z.eqb_spec (default 1 (Py.step s)) 0) as [|Hst]; [discriminate|].
  intros [= <- <- <-]. split; [done|].
  destruct (Z.ltb_spec (default 1 (Py.step s)) 0) as [Hneg|Hpos].
  - split; [lia|]. intros _.
    pose proof (λ b, clamp_bound_range len b true Hlen) as Hc. cbn in Hc.
    destruct (Py.start s), (Py.stop s); repeat split; try apply Hc; lia.
  - split; [|lia]. intros _.
    pose proof (λ b, clamp_bound_range len b false Hlen) as Hc. cbn in Hc.
    destruct (Py.start s), (Py.stop s); repeat split; try apply Hc; lia.
Qed.

(** Every position a slice visits is a position of the list. *)
Lemma slice_positions (len lo hi st : Z) (k : nat) :
  (0 < st → 0 ≤ lo ≤ len ∧ 0 ≤ hi ≤ len) →
  (st < 0 → -1 ≤ lo ≤ len - 1 ∧ -1 ≤ hi ≤ len - 1) →
  st ≠ 0 →
  (k < Py.slice_length lo hi st)%nat →
  0 ≤ lo + Z.of_nat k * st < len.
Proof.
  intros Hpos Hneg Hst. unfold Py.slice_length.
  destruct (Z.ltb_spec st 0) as [Hlt|Hge].
  - destruct (Hneg Hlt) as [Hlo Hhi]. destruct (Z.ltb_spec hi lo); [|lia].
    intros Hk.
    assert (Z.of_nat k ≤ (lo - hi - 1) / - st) as Hk'.
    { pose proof (Z.div_pos (lo - hi - 1) (- st) ltac:(lia) ltac:(lia)). lia. }
    pose proof (Z.mul_div_le (lo - hi - 1) (- st) ltac:(lia)). nia.
  - assert (0 < st) as Hst' by lia. destruct (Hpos Hst') as [Hlo Hhi].
    destruct (Z.ltb_spec lo hi); [|lia].
    intros Hk.
    assert (Z.of_nat k ≤ (hi - lo - 1) / st) as Hk'.
    { pose proof (Z.div_pos (hi - lo - 1) st ltac:(lia) ltac:(lia)). lia. }
    pose proof (Z.mul_div_le (hi - lo - 1) st ltac:(lia)). nia.
Qed.

Lemma slice_length_le (len lo hi st : Z) :
  (0 < st → 0 ≤ lo ≤ len ∧ 0 ≤ hi ≤ len) →
  (st < 0 → -1 ≤ lo ≤ len - 1 ∧ -1 ≤ hi ≤ len - 1) →
  st ≠ 0 →
  Z.of_nat (Py.slice_length lo hi st) ≤ len.
Proof.
  intros Hpos Hneg Hst. unfold Py.slice_length.
  destruct (Z.ltb_spec st 0) as [Hlt|Hge].
  - destruct (Hneg Hlt) as [Hlo Hhi]. destruct (Z.ltb_spec hi lo); [|lia].
    pose proof (Z.div_pos (lo - hi - 1) (- st) ltac:(lia) ltac:(lia)).
    pose proof (Z.div_le_upper_bound (lo - hi - 1) (- st) (lo - hi - 1) ltac:(lia) ltac:(nia)).
    lia.
  - assert (0 < st) as Hst' by lia. destruct (Hpos Hst') as [Hlo Hhi].
    destruct (Z.ltb_spec lo hi); [|lia].
    pose proof (Z.div_pos (hi - lo - 1) st ltac:(lia) ltac:(lia)).
    pose proof (Z.div_le_upper_bound (hi - lo - 1) st (hi - lo - 1) ltac:(lia) ltac:(nia)).
    lia.
Qed.

Lemma omap_total {A B} (g : A → option B) (ks : list A) :
  (∀ k, k ∈ ks → is_Some (g k)) →
  length (omap g ks) = length ks
  ∧ ∀ (j : nat) k, ks !! j = Some k → omap g ks !! j = g k.
Proof.
  induction ks as [|k0 ks IH]; intros Hall; [split; [done|intros ? ? [=]]|].
  destruct (Hall k0 ltac:(left)) as [y Hy].
  destruct IH as [IHlen IHlook]; [intros k Hk; apply Hall; by right|].
  cbn [omap list_omap]. rewrite Hy. cbn. split; [by f_equal|].
  intros [|j] k; cbn; [by intros [= <-]|]. apply IHlook.
Qed.

(** What a slice of a list is: it fails only for a zero step, and otherwise
    its element at [k] is the element of the list at [lo + k * step]. *)
Lemma getslice_spec {A} (l : list A) (s : Py.slice) :
  match Py.indices (Z.of_nat (length l)) s with
  | Raise e => e = ValueError ∧ Py.step s = Some 0 ∧ Py.getslice l s = Raise ValueError
  | Ok (lo, hi, st) =>
      Py.step s ≠ Some 0
      ∧ ∃ sub, Py.getslice l s = Ok sub
          ∧ length sub = Py.slice_length lo hi st
          ∧ ∀ k : nat, (k < Py.slice_length lo hi st)%nat →
              0 ≤ lo + Z.of_nat k * st < Z.of_nat (length l)
              ∧ sub !! k = l !! Z.to_nat (lo + Z.of_nat k * st)
  end.
Proof.
  destruct (Py.indices (Z.of_nat (length l)) s) as [[[lo hi] st]|e] eqn:Hind.
  - destruct (indices_bounds (Z.of_nat (length l)) lo hi st s ltac:(lia) Hind)
      as (Hst & Hpos & Hneg).
    split.
    { intros Hs. unfold Py.indices in Hind. rewrite Hs in Hind. discriminate. }
    unfold Py.getslice. rewrite Hind. cbn. eexists. split; [reflexivity|].
    destruct (omap_total (λ k : nat, l !! Z.to_nat (lo + Z.of_nat k * st))
                (seq 0 (Py.slice_length lo hi st))) as [Hlen Hlook].
    { intros k Hk%elem_of_seq. apply lookup_lt_is_Some_2.
      assert (k < Py.slice_length lo hi st)%nat as Hk' by lia.
      pose proof (slice_positions _ lo hi st k Hpos Hneg Hst Hk'). lia. }
    split; [by rewrite Hlen, length_seq|].
    intros k Hk. split; [by apply (slice_positions _ lo hi st k)|].
    apply Hlook. by rewrite lookup_seq_lt.
  - unfold Py.getslice. rewrite Hind. unfold Py.indices in Hind.
    destruct (Z.eqb_spec (default 1 (Py.step s)) 0) as [Hz|]; [|discriminate].
    injection Hind as <-.
    destruct (Py.step s) as [st|]; cbn in Hz; [by subst st|lia].
Qed.

Lemma StronglySorted_lookup_1 {A} (R : relation A) (l : list A) (i j : nat) (x y : A) :
  StronglySorted R l → (i < j)%nat → l !! i = Some x → l !! j = Some y → R x y.
Proof.
  intros Hs. revert i j. induction Hs as [|w l Hl IH Hall]; intros i j Hij Hi Hj.
  - discriminate.
  - destruct j as [|j]; [lia|]. destruct i as [|i]; simpl in *.
    + injection Hi as <-. rewrite Forall_forall in Hall. apply Hall.
      by eapply list_elem_of_lookup_2.
    + apply (IH i j); [lia|done|done].
Qed.

Lemma StronglySorted_lookup_2 {A} (R : relation A) (l : list A) :
  (∀ (i j : nat) x y, (i < j)%nat → l !! i = Some x → l !! j = Some y → R x y) →
  StronglySorted R l.
Proof.
  induction l as [|w l IH]; intros H; constructor.
  - apply IH. intros i j x y Hij Hi Hj. apply (H (S i) (S j)); [lia|done|done].
  - apply Forall_forall. intros y Hy. apply list_elem_of_lookup in Hy as [j Hj].
    apply (H 0%nat (S j)); [lia|done|done].
Qed.

(** X1. Slicing a view never reads a record and fails only for a zero step,
    with [ValueError]; otherwise the sub-view belongs to the same reader and
    path, is not longer than the view, and holds only indices of the view. *)
Theorem view_slice_total (path : string) (reader : Bindings.Reader) (L : list Z)
    (s : Py.slice) :
  (Py.step s = Some 0
   ∧ VRSReaderSlice.index_or_slice_records path reader L (VRSReaderSlice.Slice s)
     = Raise ValueError)
  ∨ (Py.step s ≠ Some 0
     ∧ ∃ sub,
         VRSReaderSlice.index_or_slice_records path reader L (VRSReaderSlice.Slice s)
         = Ok (VRSReaderSlice.ASlice sub)
         ∧ VRSReaderSlice._path sub = path
         ∧ VRSReaderSlice._reader sub = reader
         ∧ VRSReaderSlice.__len__ sub ≤ Z.of_nat (length L)
         ∧ ∀ x, x ∈ VRSReaderSlice._indices sub → x ∈ L).
Proof.
  pose proof (getslice_spec L s) as Hspec.
  destruct (Py.indices (Z.of_nat (length L)) s) as [[[lo hi] st]|e] eqn:Hind.
  - right. destruct Hspec as (Hstep & sub & Hsub & Hlen & Hlook).
    split; [done|]. unfold VRSReaderSlice.index_or_slice_records. rewrite Hsub. cbn.
    eexists. split; [reflexivity|]. split; [done|]. split; [done|].
    unfold VRSReaderSlice.__len__. cbn. split.
    + rewrite Hlen.
      destruct (indices_bounds (Z.of_nat (length L)) lo hi st s ltac:(lia) Hind)
        as (Hst & Hpos & Hneg).
      by apply slice_length_le.
    + intros x Hx. apply list_elem_of_lookup in Hx as [k Hk].
      destruct (Hlook k) as [_ Heq]; [apply lookup_lt_Some in Hk; lia|].
      rewrite Heq in Hk. by eapply list_elem_of_lookup_2.
  - left. destruct Hspec as (_ & Hstep & Hraise). split; [done|].
    unfold VRSReaderSlice.index_or_slice_records. by rewrite Hraise.
Qed.

(** X2. A slice with a positive step of a view whose indices ascend strictly
    ascends strictly, and a slice with a negative step descends strictly. *)
Theorem view_slice_order (path : string) (reader : Bindings.Reader) (L : list Z)
    (s : Py.slice) (sub : VRSReaderSlice.t) :
  StronglySorted Z.lt L →
  VRSReaderSlice.index_or_slice_records path reader L (VRSReaderSlice.Slice s)
  = Ok (VRSReaderSlice.ASlice sub) →
  (0 < default 1 (Py.step s) → StronglySorted Z.lt (VRSReaderSlice._indices sub))
  ∧ (default 1 (Py.step s) < 0 → StronglySorted (flip Z.lt) (VRSReaderSlice._indices sub)).
Proof.
  intros Hsorted Hview.
  pose proof (getslice_spec L s) as Hspec.
  unfold VRSReaderSlice.index_or_slice_records in Hview.
  destruct (Py.indices (Z.of_nat (length L)) s) as [[[lo hi] st]|e] eqn:Hind.
  - destruct Hspec as (Hstep & sub' & Hsub & Hlen & Hlook).
    rewrite Hsub in Hview. cbn in Hview. injection Hview as <-. cbn.
    assert (st = default 1 (Py.step s)) as <-.
    { unfold Py.indices in Hind.
      destruct (default 1 (Py.step s) =? 0); [discriminate|]. by injection Hind. }
    assert (∀ (i j : nat) x y, (i < j)%nat → sub' !! i = Some x → sub' !! j = Some y →
              ∃ (p q : nat), L !! p = Some x ∧ L !! q = Some y
                ∧ Z.of_nat p = lo + Z.of_nat i * st ∧ Z.of_nat q = lo + Z.of_nat j * st)
      as Hpos.
    { intros i j x y Hij Hi Hj.
      destruct (Hlook i) as [Hri Hei]; [apply lookup_lt_Some in Hi; lia|].
      destruct (Hlook j) as [Hrj Hej]; [apply lookup_lt_Some in Hj; lia|].
      rewrite Hei in Hi. rewrite Hej in Hj.
      exists (Z.to_nat (lo + Z.of_nat i * st)), (Z.to_nat (lo + Z.of_nat j * st)).
      repeat split; [done|done|lia|lia]. }
    split; intros Hst; apply StronglySorted_lookup_2; intros i j x y Hij Hi Hj;
      destruct (Hpos i j x y Hij Hi Hj) as (p & q & Hp & Hq & Hpi & Hqj).
    + apply (StronglySorted_lookup_1 Z.lt L p q x y Hsorted); [nia|done|done].
    + apply (StronglySorted_lookup_1 Z.lt L q p y x Hsorted); [nia|done|done].
  - destruct Hspec as (_ & _ & Hraise). rewrite Hraise in Hview. discriminate.
Qed.

Lemma view_slice_order_witness :
  (0 < default 1 (Py.step (Py.Slice None None (Some 2))) →
   StronglySorted Z.lt
     (VRSReaderSlice._indices
        (VRSReaderSlice.VRSReaderSlice "sample.vrs" (Catalog.store Sample.catalog) [0; 2])))
  ∧ (default 1 (Py.step (Py.Slice None None (Some 2))) < 0 →
     StronglySorted (flip Z.lt)
       (VRSReaderSlice._indices
          (VRSReaderSlice.VRSReaderSlice "sample.vrs" (Catalog.store Sample.catalog) [0; 2]))).
Proof.
  apply (view_slice_order "sample.vrs" (Catalog.store Sample.catalog) [0; 1; 2]
           (Py.Slice None None (Some 2))).
  - repeat constructor; lia.
  - reflexivity.
Defined.

(** X3. The slice [[::-1]] of a view lists its indices backwards, so slicing
    twice with [[::-1]] gives the indices of the view again, as the slice
    [[:]] does. *)
Theorem view_slice_reverse (path : string) (reader : Bindings.Reader) (L : list Z) :
  VRSReaderSlice.index_or_slice_records path reader L
    (VRSReaderSlice.Slice (Py.Slice None None (Some (-1))))
  = Ok (VRSReaderSlice.ASlice (VRSReaderSlice.VRSReaderSlice path reader (reverse L)))
  ∧ VRSReaderSlice.__getitem__ (VRSReaderSlice.VRSReaderSlice path reader (reverse L))
      (VRSReaderSlice.Slice (Py.Slice None None (Some (-1))))
    = Ok (VRSReaderSlice.ASlice (VRSReaderSlice.VRSReaderSlice path reader L))
  ∧ VRSReaderSlice.index_or_slice_records path reader L
      (VRSReaderSlice.Slice (Py.Slice None None None))
    = Ok (VRSReaderSlice.ASlice (VRSReaderSlice.VRSReaderSlice path reader L)).
Proof.
  assert (∀ l : list Z, Py.getslice l (Py.Slice None None (Some (-1))) = Ok (reverse l))
    as Hrev.
  { intros l. pose proof (getslice_spec l (Py.Slice None None (Some (-1)))) as Hspec.
    change (Py.indices (Z.of_nat (length l)) (Py.Slice None None (Some (-1))))
      with (Ok (Z.of_nat (length l) - 1, -1, -1) : result (Z * Z * Z)) in Hspec.
    destruct Hspec as (_ & sub & -> & Hlen & Hlook). f_equal.
    assert (Py.slice_length (Z.of_nat (length l) - 1) (-1) (-1) = length l) as Hsl.
    { unfold Py.slice_length. cbn.
      destruct (Z.ltb_spec (-1) (Z.of_nat (length l) - 1)).
      - change (- -1) with 1. rewrite Z.div_1_r. lia.
      - lia. }
    rewrite Hsl in Hlen, Hlook.
    apply list_eq. intros k. destruct (decide (k < length l)%nat) as [Hk|Hk].
    - destruct (Hlook k Hk) as [_ ->]. rewrite reverse_lookup by done.
      f_equal. lia.
    - rewrite !lookup_ge_None_2; [done|rewrite length_reverse; lia|lia]. }
  unfold VRSReaderSlice.__getitem__, VRSReaderSlice.index_or_slice_records.
  cbn [VRSReaderSlice._indices VRSReaderSlice._path VRSReaderSlice._reader].
  rewrite !Hrev, reverse_involutive. split; [done|]. split; [done|].
  pose proof (getslice_spec L (Py.Slice None None None)) as Hspec.
  change (Py.indices (Z.of_nat (length L)) (Py.Slice None None None))
    with (Ok (0, Z.of_nat (length L), 1) : result (Z * Z * Z)) in Hspec.
  destruct Hspec as (_ & sub & -> & Hlen & Hlook). cbn. do 3 f_equal.
  assert (Py.slice_length 0 (Z.of_nat (length L)) 1 = length L) as Hsl.
  { unfold Py.slice_length. cbn. destruct (Z.ltb_spec 0 (Z.of_nat (length L))).
    - rewrite Z.div_1_r. lia.
    - lia. }
  rewrite Hsl in Hlen, Hlook.
  apply list_eq. intros k. destruct (decide (k < length L)%nat) as [Hk|Hk].
  - destruct (Hlook k Hk) as [_ ->]. f_equal. lia.
  - rewrite !lookup_ge_None_2; [done|lia|lia].
Qed.

(** ** Indexing a reader *)

Lemma getitem_range (n i : Z) :
  Py.getitem (Py.range n) i
  = if decide (0 ≤ i < n) then Ok i
    else if decide (- n ≤ i < 0) then Ok (i + n)
    else Raise IndexError.
Proof.
  assert (length (Py.range n) = Z.to_nat n) as Hlen by (unfold Py.range; by rewrite length_seqZ).
  assert (∀ j, 0 ≤ j < n → Py.getitem (Py.range n) j = Ok j) as Hin.
  { intros j Hj. destruct (getitem_nonneg (Py.range n) j ltac:(lia)) as (x & Hx & ->).
    unfold Py.range in Hx. apply lookup_seqZ in Hx as [-> _]. f_equal. lia. }
  destruct (decide (0 ≤ i < n)) as [Hi|Hi]; [by apply Hin|].
  destruct (decide (- n ≤ i < 0)) as [Hneg|Hneg].
  - rewrite getitem_negative by lia. rewrite Hlen, Hin by lia. f_equal. lia.
  - apply getitem_out_of_range. lia.
Qed.

Lemma getslice_range (n a b : Z) :
  0 ≤ a ≤ b → b ≤ n →
  Py.getslice (Py.range n) (Py.Slice (Some a) (Some b) None) = Ok (seqZ a (b - a)).
Proof.
  intros Hab Hb.
  destruct (getslice_window (Py.range n) a b) as (_ & _ & ->).
  assert (length (Py.range n) = Z.to_nat n) as Hlen
    by (unfold Py.range; by rewrite length_seqZ).
  rewrite Hlen, !clamp_bound_in_range by lia. f_equal.
  unfold Py.range.
  apply list_eq. intros j.
  destruct (decide (j < Z.to_nat (b - a))%nat) as [Hj|Hj].
  - rewrite lookup_take_lt by lia. rewrite lookup_drop.
    rewrite (lookup_seqZ_lt _ _ (Z.to_nat a + j)%nat) by lia.
    rewrite lookup_seqZ_lt by lia. f_equal. lia.
  - rewrite lookup_take_ge by lia. symmetry. apply lookup_seqZ_ge. lia.
Qed.

Lemma reader_indexing_cases (reader : VRSReader.t) (i : Z) :
  let n := VRSReader.n_records reader in
  let read := λ absolute,
    record ← Bindings.read_record (VRSReader._reader reader) absolute;
    Ok (VRSReaderSlice.ARecord (VRSRecord.VRSRecord record)) in
  (0 ≤ i < n → VRSReader.__getitem__ reader (VRSReaderSlice.Int i) = read i)
  ∧ (- n ≤ i < 0 → VRSReader.__getitem__ reader (VRSReaderSlice.Int i) = read (i + n))
  ∧ (i < - n ∨ n ≤ i →
     VRSReader.__getitem__ reader (VRSReaderSlice.Int i) = Raise IndexError).
Proof.
  intros n read.
  unfold VRSReader.__getitem__, VRSReader._read_record,
    VRSReaderSlice.index_or_slice_records.
  fold n. rewrite getitem_range.
  refine (conj _ (conj _ _)).
  - intros Hi. by rewrite decide_True.
  - intros Hi. rewrite decide_False by lia. by rewrite decide_True.
  - intros Hi. rewrite decide_False by lia. by rewrite decide_False by lia.
Qed.

(** X6. An unfiltered reader is indexed by absolute index: position [i] is the
    record the store has at [i], a negative position counts from the end, a
    position outside [-n <= i < n] raises [IndexError] before the store is
    asked, and the slice [a:b] holds the absolute indices from [a] to
    [b - 1]. *)
Theorem reader_indexing (reader : VRSReader.t) (i : Z) :
  let n := VRSReader.n_records reader in
  let read := λ absolute,
    record ← Bindings.read_record (VRSReader._reader reader) absolute;
    Ok (VRSReaderSlice.ARecord (VRSRecord.VRSRecord record)) in
  (0 ≤ i < n → VRSReader.__getitem__ reader (VRSReaderSlice.Int i) = read i)
  ∧ (- n ≤ i < 0 → VRSReader.__getitem__ reader (VRSReaderSlice.Int i) = read (i + n))
  ∧ (i < - n ∨ n ≤ i →
     VRSReader.__getitem__ reader (VRSReaderSlice.Int i) = Raise IndexError)
  ∧ (∀ a b, 0 ≤ a ≤ b ≤ n →
       VRSReader.__getitem__ reader (VRSReaderSlice.Slice (Py.Slice (Some a) (Some b) None))
       = Ok (VRSReaderSlice.ASlice
               (VRSReaderSlice.VRSReaderSlice (VRSReader._path reader)
                  (VRSReader._reader reader) (seqZ a (b - a))))).
Proof.
  intros n read.
  destruct (reader_indexing_cases reader i) as (H1 & H2 & H3).
  refine (conj H1 (conj H2 (conj H3 _))).
  intros a b Hab.
  unfold VRSReader.__getitem__, VRSReader._read_record,
    VRSReaderSlice.index_or_slice_records. fold n.
  by rewrite getslice_range by lia.
Qed.

Lemma reader_indexing_witness :
  VRSReader.__getitem__ Sample.reader (VRSReaderSlice.Int (-1))
  = (record ← Bindings.read_record (VRSReader._reader Sample.reader)
                (-1 + VRSReader.n_records Sample.reader);
     Ok (VRSReaderSlice.ARecord (VRSRecord.VRSRecord record))).
Proof. apply (reader_indexing Sample.reader (-1)). change (- 6 ≤ -1 < 0). lia. Defined.

(** ** Indexing and slicing a slice *)

(** X4. A position of a slice is the position [lo + k * st] of the view it was
    cut from, where [(lo, hi, st)] is what the slice object resolves to for
    the length of the view: this holds for any step and any sign of the
    bounds. *)
Theorem view_slice_then_index (path : string) (reader : Bindings.Reader) (L : list Z)
    (s : Py.slice) (sub : VRSReaderSlice.t) (lo hi st k : Z) :
  Py.indices (Z.of_nat (length L)) s = Ok (lo, hi, st) →
  VRSReaderSlice.index_or_slice_records path reader L (VRSReaderSlice.Slice s)
    = Ok (VRSReaderSlice.ASlice sub) →
  0 ≤ k < VRSReaderSlice.__len__ sub →
  0 ≤ lo + k * st < Z.of_nat (length L)
  ∧ VRSReaderSlice.__getitem__ sub (VRSReaderSlice.Int k)
    = VRSReaderSlice.index_or_slice_records path reader L (VRSReaderSlice.Int (lo + k * st)).
Proof.
  intros Hind Hsub Hk.
  pose proof (getslice_spec L s) as Hspec. rewrite Hind in Hspec.
  destruct Hspec as (_ & sub' & Hget & Hlen & Hpos).
  unfold VRSReaderSlice.index_or_slice_records in Hsub. rewrite Hget in Hsub.
  cbn in Hsub. injection Hsub as <-.
  unfold VRSReaderSlice.__len__ in Hk. cbn [VRSReaderSlice._indices] in Hk.
  destruct (Hpos (Z.to_nat k) ltac:(lia)) as [Hrange Hlook].
  rewrite Z2Nat.id in Hrange, Hlook by lia.
  split; [done|].
  unfold VRSReaderSlice.__getitem__, VRSReaderSlice.index_or_slice_records.
  cbn [VRSReaderSlice._indices VRSReaderSlice._path VRSReaderSlice._reader].
  destruct (getitem_nonneg sub' k ltac:(lia)) as (x & Hx & ->).
  destruct (getitem_nonneg L (lo + k * st) ltac:(lia)) as (y & Hy & ->).
  congruence.
Qed.

Lemma view_slice_then_index_witness :
  0 ≤ 2 + 0 * -1 < Z.of_nat (length [0; 1; 2])
  ∧ VRSReaderSlice.__getitem__
      (VRSReaderSlice.VRSReaderSlice "sample.vrs" (Catalog.store Sample.catalog) [2; 1; 0])
      (VRSReaderSlice.Int 0)
    = VRSReaderSlice.index_or_slice_records "sample.vrs" (Catalog.store Sample.catalog)
        [0; 1; 2] (VRSReaderSlice.Int (2 + 0 * -1)).
Proof.
  apply (view_slice_then_index "sample.vrs" (Catalog.store Sample.catalog) [0; 1; 2]
           (Py.Slice None None (Some (-1))) _ 2 (-1) (-1) 0).
  - reflexivity.
  - reflexivity.
  - change (0 ≤ 0 < 3). lia.
Defined.

(** X5. Slicing a slice: for bounds that are not negative, [view[a:b][c:d]] is
    [view[a + c : min(a + d, b)]]. *)
Theorem view_slice_of_slice (path : string) (reader : Bindings.Reader) (L : list Z)
    (a b c d : Z) :
  0 ≤ a ≤ b → b ≤ Z.of_nat (length L) → 0 ≤ c → 0 ≤ d →
  ∃ sub,
    VRSReaderSlice.index_or_slice_records path reader L
      (VRSReaderSlice.Slice (Py.Slice (Some a) (Some b) None))
    = Ok (VRSReaderSlice.ASlice sub)
    ∧ VRSReaderSlice.__getitem__ sub (VRSReaderSlice.Slice (Py.Slice (Some c) (Some d) None))
      = VRSReaderSlice.index_or_slice_records path reader L
          (VRSReaderSlice.Slice (Py.Slice (Some (a + c)) (Some (Z.min (a + d) b)) None)).
Proof.
  intros Hab Hb Hc Hd.
  unfold VRSReaderSlice.__getitem__, VRSReaderSlice.index_or_slice_records.
  destruct (getslice_window L a b) as (_ & _ & ->).
  destruct (getslice_window L (a + c) (Z.min (a + d) b)) as (_ & _ & ->).
  eexists. split; [reflexivity|].
  cbn [VRSReaderSlice._indices VRSReaderSlice._path VRSReaderSlice._reader].
  match goal with |- context [Py.getslice ?l _] => set (sub := l) end.
  destruct (getslice_window sub c d) as (_ & _ & ->).
  cbn [mbind result_bind]. do 3 f_equal.
  assert (length sub = Z.to_nat (b - a)) as Hlen.
  { subst sub. rewrite !clamp_bound_in_range by lia.
    rewrite length_take, length_drop. lia. }
  rewrite Hlen. subst sub.
  rewrite !(clamp_bound_in_range _ a), !(clamp_bound_in_range _ b) by lia.
  unfold Py.clamp_bound.
  repeat match goal with
         | |- context [?x <? ?y] => destruct (Z.ltb_spec x y); try lia
         | |- context [?x <=? ?y] => destruct (Z.leb_spec x y); try lia
         end;
    apply list_eq; intros j;
    repeat match goal with
           | |- context [take ?n ?l !! ?i] =>
               destruct (decide (i < n)%nat);
               [rewrite (lookup_take_lt l n i) by lia
               |rewrite (lookup_take_ge l n i) by lia]
           | |- context [drop ?n ?l !! ?i] => rewrite (lookup_drop l n i)
           end; try done; try (f_equal; lia); try lia.
Qed.

Lemma view_slice_of_slice_witness :
  ∃ sub,
    VRSReaderSlice.index_or_slice_records "sample.vrs" (Catalog.store Sample.catalog)
      [0; 1; 2; 3; 4; 5] (VRSReaderSlice.Slice (Py.Slice (Some 1) (Some 5) None))
    = Ok (VRSReaderSlice.ASlice sub)
    ∧ VRSReaderSlice.__getitem__ sub (VRSReaderSlice.Slice (Py.Slice (Some 1) (Some 2) None))
      = VRSReaderSlice.index_or_slice_records "sample.vrs" (Catalog.store Sample.catalog)
          [0; 1; 2; 3; 4; 5]
          (VRSReaderSlice.Slice (Py.Slice (Some (1 + 1)) (Some (Z.min (1 + 2) 5)) None)).
Proof.
  apply (view_slice_of_slice "sample.vrs" (Catalog.store Sample.catalog) [0; 1; 2; 3; 4; 5]
           1 5 1 2); cbn; lia.
Defined.

(** ** Looking records up by time *)

(** X12. On an unfiltered reader the index that [get_record_index_by_time] returns
    is the position of the record that [read_record_by_time] reads, whenever
    the store answers with an index of the file. *)
Theorem reader_lookup_by_time_agrees (reader : VRSReader.t) (stream_id : string)
    (timestamp : Q) (epsilon : option Q) (r : Z) :
  VRSReader.get_record_index_by_time reader stream_id timestamp epsilon = Ok r →
  0 ≤ r < VRSReader.n_records reader →
  VRSReader.__getitem__ reader (VRSReaderSlice.Int r)
  = (record ← VRSReader.read_record_by_time reader stream_id timestamp epsilon;
     Ok (VRSReaderSlice.ARecord record)).
Proof.
  intros Hget Hr.
  destruct (reader_indexing_cases reader r) as (H1 & _). rewrite H1 by done.
  unfold VRSReader.get_record_index_by_time in Hget.
  destruct (decide (stream_id ∈ VRSReader.stream_ids reader)); [|discriminate].
  unfold VRSReader.read_record_by_time. rewrite Hget. cbn.
  by destruct (Bindings.read_record (VRSReader._reader reader) r).
Qed.

Lemma reader_lookup_by_time_agrees_witness :
  VRSReader.__getitem__ Sample.reader (VRSReaderSlice.Int 3)
  = (record ← VRSReader.read_record_by_time Sample.reader "100-2" 1 None;
     Ok (VRSReaderSlice.ARecord record)).
Proof.
  apply (reader_lookup_by_time_agrees Sample.reader "100-2" 1 None 3).
  - vm_compute. reflexivity.
  - change (0 ≤ 3 < 6). lia.
Defined.

(** X13. On a filtered view whose index list is in ascending order, when the
    record that the search over the whole file finds belongs to the view, the
    position that [get_record_index_by_time] returns is the position of that
    record in the view: indexing the view there reads the record that
    [read_record_by_time] reads. *)
Theorem filtered_lookup_by_time_agrees (view : FilteredVRSReader.t) (stream_id : string)
    (timestamp : Q) (epsilon : option Q) (r : Z) :
  StronglySorted Z.le (FilteredVRSReader._filtered_indices view) →
  stream_id ∈ FilteredVRSReader.stream_ids view →
  VRSReader.get_record_index_by_time (FilteredVRSReader._reader view)
    stream_id timestamp epsilon = Ok r →
  r ∈ FilteredVRSReader._filtered_indices view →
  ∃ p,
    FilteredVRSReader.get_record_index_by_time view stream_id timestamp epsilon = Ok p
    ∧ 0 ≤ p < FilteredVRSReader.n_records view
    ∧ FilteredVRSReader._filtered_indices view !! Z.to_nat p = Some r
    ∧ FilteredVRSReader.__getitem__ view (VRSReaderSlice.Int p)
      = (record ← FilteredVRSReader.read_record_by_time view stream_id timestamp epsilon;
         Ok (VRSReaderSlice.ARecord record)).
Proof.
  intros Hsorted Hin Hbase Hr.
  unfold FilteredVRSReader.get_record_index_by_time.
  rewrite decide_True by done. rewrite Hbase. cbn [mbind result_bind].
  destruct (bisect_splits _ r Hsorted) as (k0 & Hk0 & (Hb & Hlo & Hhi)).
  rewrite Hk0.
  apply list_elem_of_lookup in Hr as [i Hi].
  pose proof (lookup_lt_Some _ _ _ Hi) as Hilen.
  assert (i < k0)%nat as Hik.
  { destruct (decide (i < k0)%nat); [done|].
    pose proof (Hhi i r ltac:(lia) Hi). lia. }
  destruct (lookup_lt_is_Some_2 (FilteredVRSReader._filtered_indices view) (k0 - 1)
              ltac:(lia)) as [v Hv].
  assert (v = r) as ->.
  { pose proof (Hlo (k0 - 1)%nat v ltac:(lia) Hv).
    pose proof (sorted_lookup_le _ i (k0 - 1) r v Hsorted ltac:(lia) Hi Hv). lia. }
  exists (Z.of_nat (k0 - 1)).
  replace (Z.max (Z.of_nat k0 - 1) 0) with (Z.of_nat (k0 - 1)) by lia.
  split; [done|]. unfold FilteredVRSReader.n_records. split; [lia|].
  rewrite Nat2Z.id. split; [done|].
  unfold FilteredVRSReader.__getitem__, FilteredVRSReader._read_record,
    VRSReader._read_record, VRSReaderSlice.index_or_slice_records.
  destruct (getitem_nonneg (FilteredVRSReader._filtered_indices view) (Z.of_nat (k0 - 1))
              ltac:(lia)) as (x & Hx & ->).
  rewrite Nat2Z.id in Hx. assert (x = r) as -> by congruence.
  unfold VRSReader.get_record_index_by_time in Hbase.
  destruct (decide (stream_id ∈ VRSReader.stream_ids (FilteredVRSReader._reader view)));
    [|discriminate].
  unfold FilteredVRSReader.read_record_by_time, VRSReader.read_record_by_time.
  rewrite Hbase. cbn.
  by destruct (Bindings.read_record _ r).
Qed.

Lemma filtered_lookup_by_time_agrees_witness :
  ∃ p,
    FilteredVRSReader.get_record_index_by_time Sample.view "100-1" 2 None = Ok p
    ∧ 0 ≤ p < FilteredVRSReader.n_records Sample.view
    ∧ FilteredVRSReader._filtered_indices Sample.view !! Z.to_nat p = Some 4
    ∧ FilteredVRSReader.__getitem__ Sample.view (VRSReaderSlice.Int p)
      = (record ← FilteredVRSReader.read_record_by_time Sample.view "100-1" 2 None;
         Ok (VRSReaderSlice.ARecord record)).
Proof.
  apply (filtered_lookup_by_time_agrees Sample.view "100-1" 2 None 4).
  - repeat constructor; lia.
  - apply (bool_decide_unpack _). vm_compute. exact I.
  - vm_compute. reflexivity.
  - apply (bool_decide_unpack _). vm_compute. exact I.
Defined.

(** X14. An [epsilon] of zero counts as no [epsilon]: the four lookups by time then
    ask the store for the first record at or after the timestamp, not for the
    nearest one. *)
Theorem zero_epsilon_is_no_epsilon (reader : VRSReader.t) (view : FilteredVRSReader.t)
    (stream_id : string) (timestamp epsilon : Q) :
  (epsilon == 0)%Q →
  VRSReader.get_record_index_by_time reader stream_id timestamp (Some epsilon)
  = VRSReader.get_record_index_by_time reader stream_id timestamp None
  ∧ VRSReader.read_record_by_time reader stream_id timestamp (Some epsilon)
    = VRSReader.read_record_by_time reader stream_id timestamp None
  ∧ FilteredVRSReader.get_record_index_by_time view stream_id timestamp (Some epsilon)
    = FilteredVRSReader.get_record_index_by_time view stream_id timestamp None
  ∧ FilteredVRSReader.read_record_by_time view stream_id timestamp (Some epsilon)
    = FilteredVRSReader.read_record_by_time view stream_id timestamp None
  ∧ (stream_id ∈ VRSReader.stream_ids reader →
     VRSReader.get_record_index_by_time reader stream_id timestamp (Some epsilon)
     = Bindings.get_record_index_by_time (VRSReader._reader reader) stream_id timestamp).
Proof.
  intros Heps.
  assert (VRSReader.truthy (Some epsilon) = false) as Ht.
  { cbn. apply negb_false_iff. by apply Qeq_bool_iff. }
  assert (∀ rd, VRSReader.get_record_index_by_time rd stream_id timestamp (Some epsilon)
                = VRSReader.get_record_index_by_time rd stream_id timestamp None) as Hg.
  { intros rd. unfold VRSReader.get_record_index_by_time. by rewrite Ht. }
  assert (∀ rd, VRSReader.read_record_by_time rd stream_id timestamp (Some epsilon)
                = VRSReader.read_record_by_time rd stream_id timestamp None) as Hr.
  { intros rd. unfold VRSReader.read_record_by_time. by rewrite Ht. }
  refine (conj (Hg _) (conj (Hr _) (conj _ (conj _ _)))).
  - unfold FilteredVRSReader.get_record_index_by_time. by rewrite Hg.
  - unfold FilteredVRSReader.read_record_by_time. by rewrite Hr.
  - intros Hin. unfold VRSReader.get_record_index_by_time.
    rewrite decide_True by done. by rewrite Ht.
Qed.

Lemma zero_epsilon_is_no_epsilon_witness :
  VRSReader.get_record_index_by_time Sample.reader "100-1" 1 (Some 0%Q)
  = VRSReader.get_record_index_by_time Sample.reader "100-1" 1 None.
Proof.
  apply (proj1 (zero_epsilon_is_no_epsilon Sample.reader Sample.view "100-1" 1 0 (Qeq_refl 0))).
Defined.

(** ** The record counts of a stream *)

(** X15. [_record_count_by_type_from_stream_id] asks the store at most once for a
    stream: a result remains the answer of every later call, whatever the
    store would say then; a failure of the store leaves nothing behind; and
    the entries of the other streams are not touched. *)
Theorem record_count_is_memoized
    (record_count_by_type_from_stream_id later : string → result (gmap string Z))
    (_record_counts_by_type : gmap string (gmap string Z)) (stream_id : string) :
  let call := VRSReader._record_count_by_type_from_stream_id
                record_count_by_type_from_stream_id _record_counts_by_type stream_id in
  (∀ counts, call.1 = Ok counts →
     VRSReader._record_count_by_type_from_stream_id later call.2 stream_id
     = (Ok counts, call.2))
  ∧ (∀ e, call.1 = Raise e →
       call.2 = _record_counts_by_type
       ∧ _record_counts_by_type !! stream_id = None
       ∧ record_count_by_type_from_stream_id stream_id = Raise e)
  ∧ (∀ other, other ≠ stream_id → call.2 !! other = _record_counts_by_type !! other)
  ∧ (∀ counts, _record_counts_by_type !! stream_id = Some counts →
       call = (Ok counts, _record_counts_by_type)).
Proof.
  intros call. subst call. unfold VRSReader._record_count_by_type_from_stream_id.
  destruct (_record_counts_by_type !! stream_id) as [cached|] eqn:Hc.
  - cbn. refine (conj _ (conj _ (conj _ _))); try done.
    + intros counts [= ->]. by rewrite Hc.
    + by intros counts [= ->].
  - destruct (record_count_by_type_from_stream_id stream_id) as [counts0|e0] eqn:Hs; cbn.
    + refine (conj _ (conj _ (conj _ _))); try done.
      * intros counts [= ->]. by rewrite lookup_insert_eq.
      * intros other Hne. by rewrite lookup_insert_ne.
    + by refine (conj _ (conj _ (conj _ _))); try done; intros e [= ->].
Qed.

(** ** The slices of the documentation *)

(** X7. The slices that the documentation of the reader shows: [reader[-k:]]
    holds the last [k] records, and [reader[::st]] every [st]-th record,
    starting with the first. *)
Theorem reader_documented_slices (reader : VRSReader.t) :
  let n := VRSReader.n_records reader in
  let slice_of := λ indices,
    Ok (VRSReaderSlice.ASlice
          (VRSReaderSlice.VRSReaderSlice (VRSReader._path reader)
             (VRSReader._reader reader) indices)) in
  (∀ k, 0 < k ≤ n →
     VRSReader.__getitem__ reader (VRSReaderSlice.Slice (Py.Slice (Some (- k)) None None))
     = slice_of (seqZ (n - k) k))
  ∧ (∀ st, 0 < st → 0 ≤ n →
       VRSReader.__getitem__ reader (VRSReaderSlice.Slice (Py.Slice None None (Some st)))
       = slice_of ((λ j, j * st) <$> seqZ 0 ((n + st - 1) / st))).
Proof.
  intros n slice_of.
  assert (length (Py.range n) = Z.to_nat n) as Hlen
    by (unfold Py.range; by rewrite length_seqZ).
  assert (∀ s l,
            (∀ lo hi st, Py.indices (Z.of_nat (length (Py.range n))) s = Ok (lo, hi, st) →
               length l = Py.slice_length lo hi st
               ∧ ∀ j : nat, (j < Py.slice_length lo hi st)%nat →
                   l !! j = Some (lo + Z.of_nat j * st)) →
            Py.step s ≠ Some 0 →
            VRSReader.__getitem__ reader (VRSReaderSlice.Slice s) = slice_of l) as Hgen.
  { intros s l Hl Hstep.
    unfold VRSReader.__getitem__, VRSReader._read_record,
      VRSReaderSlice.index_or_slice_records. fold n.
    pose proof (getslice_spec (Py.range n) s) as Hspec.
    destruct (Py.indices (Z.of_nat (length (Py.range n))) s) as [[[lo hi] st]|e] eqn:Hind.
    - destruct Hspec as (_ & sub & -> & Hsublen & Hsub).
      destruct (Hl lo hi st eq_refl) as [Hllen Hlj].
      cbn. unfold slice_of. do 3 f_equal.
      apply list_eq. intros j.
      destruct (decide (j < Py.slice_length lo hi st)%nat) as [Hj|Hj].
      + rewrite (Hlj j Hj). destruct (Hsub j Hj) as [Hr ->].
        unfold Py.range. apply lookup_seqZ. rewrite Hlen in Hr. lia.
      + rewrite !lookup_ge_None_2 by lia. done.
    - destruct Hspec as (_ & Hs & _). done. }
  split.
  - intros k Hk. apply Hgen; [|done].
    intros lo hi st. unfold Py.indices. cbn. rewrite Hlen.
    unfold Py.clamp_bound.
    destruct (Z.ltb_spec (- k) 0); [|lia].
    destruct (Z.ltb_spec (- k + Z.of_nat (Z.to_nat n)) 0); [lia|].
    intros [= <- <- <-]. unfold Py.slice_length. cbn.
    destruct (Z.ltb_spec (- k + Z.of_nat (Z.to_nat n)) (Z.of_nat (Z.to_nat n))); [|lia].
    rewrite Z.div_1_r. rewrite length_seqZ. split; [lia|].
    intros j Hj. rewrite lookup_seqZ_lt by lia. f_equal. lia.
  - intros st Hst Hn. apply Hgen; [|cbn; intros [= ->]; lia].
    intros lo hi st'. unfold Py.indices. cbn.
    destruct (Z.eqb_spec st 0); [lia|]. destruct (Z.ltb_spec st 0); [lia|].
    rewrite Hlen. intros [= <- <- <-].
    assert (Z.of_nat (Py.slice_length 0 (Z.of_nat (Z.to_nat n)) st) = (n + st - 1) / st)
      as Hsl.
    { unfold Py.slice_length. destruct (Z.ltb_spec st 0); [lia|].
      destruct (Z.ltb_spec 0 (Z.of_nat (Z.to_nat n))).
      - rewrite Z2Nat.id by (pose proof (Z.div_pos (Z.of_nat (Z.to_nat n) - 0 - 1) st); lia).
        replace (n + st - 1) with (Z.of_nat (Z.to_nat n) - 0 - 1 + 1 * st) by lia.
        by rewrite Z.div_add by lia.
      - assert (n = 0) as -> by lia. cbn. rewrite Z.div_small; lia. }
    rewrite length_fmap, length_seqZ. split; [lia|].
    intros j Hj. rewrite list_lookup_fmap, lookup_seqZ_lt by lia. cbn. f_equal; lia.
Qed.

Lemma reader_documented_slices_witness :
  VRSReader.__getitem__ Sample.reader (VRSReaderSlice.Slice (Py.Slice (Some (- 2)) None None))
  = Ok (VRSReaderSlice.ASlice
          (VRSReaderSlice.VRSReaderSlice (VRSReader._path Sample.reader)
             (VRSReader._reader Sample.reader)
             (seqZ (VRSReader.n_records Sample.reader - 2) 2))).
Proof.
  apply (proj1 (reader_documented_slices Sample.reader) 2). change (0 < 2 ≤ 6). lia.
Defined.

(** ** Asynchronous filtered views *)

(** X23. An [AsyncFilteredVRSReader] is only ever built over an [AsyncVRSReader]:
    there it is built as any filtered view is; over a reader of any other
    class the construction raises [NotImplementedError] once the view has
    been set up.  Its [_read_record] always raises [NotImplementedError]. *)
Theorem async_filtered_view_needs_async_reader (reader_class : Classes.cls)
    (reader : VRSReader.t) (record_filter : RecordFilter.t) :
  AsyncFilteredVRSReader.__init__ Classes.AsyncVRSReader reader record_filter
  = FilteredVRSReader.__init__ reader record_filter
  ∧ (∀ view, AsyncFilteredVRSReader.__init__ reader_class reader record_filter = Ok view →
       reader_class = Classes.AsyncVRSReader)
  ∧ (reader_class ≠ Classes.AsyncVRSReader →
     AsyncFilteredVRSReader.__init__ reader_class reader record_filter
     = (_ ← FilteredVRSReader.__init__ reader record_filter; Raise NotImplementedError))
  ∧ (∀ view indices i,
       AsyncFilteredVRSReader._read_record view indices i = Raise NotImplementedError).
Proof.
  unfold AsyncFilteredVRSReader.__init__.
  refine (conj _ (conj _ (conj _ _))).
  - by destruct (FilteredVRSReader.__init__ reader record_filter).
  - intros view. destruct (FilteredVRSReader.__init__ reader record_filter); [|done].
    by destruct reader_class.
  - intros Hc. destruct (FilteredVRSReader.__init__ reader record_filter); [|done].
    by destruct reader_class.
  - done.
Qed.

(** ** Iteration *)

Section Iterate.
Context {A B : Type} (L : list A) (f : A → result B).

(** A loop over positions [k], [k + 1], ... whose items are read by [f] and
    all come back. *)
Lemma iterate_all (fuel k : nat) (rs : list B) :
  (length L - k < fuel)%nat →
  Forall2 (λ x r, f x = Ok r) (drop k L) rs →
  Py.iterate fuel (λ i, x ← Py.getitem L i; f x) (Z.of_nat k) = Ok rs.
Proof.
  revert k rs. induction fuel as [|fuel IH]; intros k rs Hfuel Hall; [lia|].
  cbn [Py.iterate].
  destruct (decide (k < length L)%nat) as [Hk|Hk].
  - destruct (getitem_nonneg L (Z.of_nat k) ltac:(lia)) as (x & Hx & ->).
    rewrite Nat2Z.id in Hx.
    rewrite (drop_S _ _ _ Hx) in Hall.
    apply Forall2_cons_inv_l in Hall as (r & rs' & Hr & Hrs & ->).
    cbn. rewrite Hr.
    replace (Z.of_nat k + 1) with (Z.of_nat (S k)) by lia.
    rewrite (IH (S k) rs') by (done || lia). done.
  - rewrite getitem_out_of_range by lia. cbn.
    rewrite drop_ge in Hall by lia. by apply Forall2_nil_inv_l in Hall as ->.
Qed.

(** The loop when the read at one position fails. *)
Lemma iterate_stops (fuel k : nat) (L1 L2 : list A) (x : A) (rs : list B) (e : exn) :
  (length L - k < fuel)%nat →
  drop k L = L1 ++ x :: L2 →
  Forall2 (λ x r, f x = Ok r) L1 rs →
  f x = Raise e →
  Py.iterate fuel (λ i, x ← Py.getitem L i; f x) (Z.of_nat k)
  = if decide (e = IndexError) then Ok rs else Raise e.
Proof.
  revert k L1 rs. induction fuel as [|fuel IH]; intros k L1 rs Hfuel Hdrop Hall He; [lia|].
  cbn [Py.iterate].
  assert (k < length L)%nat as Hk.
  { destruct (decide (k < length L)%nat); [done|].
    rewrite drop_ge in Hdrop by lia. by destruct L1. }
  destruct (getitem_nonneg L (Z.of_nat k) ltac:(lia)) as (y & Hy & ->).
  rewrite Nat2Z.id in Hy. rewrite (drop_S _ _ _ Hy) in Hdrop.
  destruct Hall as [|x1 r L1 rs Hr Hall].
  - cbn in Hdrop. injection Hdrop as -> Hdrop. cbn. rewrite He.
    destruct e; by repeat case_decide.
  - cbn in Hdrop. injection Hdrop as -> Hdrop. cbn. rewrite Hr.
    replace (Z.of_nat k + 1) with (Z.of_nat (S k)) by lia.
    rewrite (IH (S k) L1 rs) by (done || lia).
    by case_decide.
Qed.
End Iterate.

Lemma Forall2_read_fmap {A B C} (f : A → result B) (g : B → C) (L : list A) (rs : list B) :
  Forall2 (λ x r, f x = Ok r) L rs →
  Forall2 (λ x r, (y ← f x; Ok (g y)) = Ok r) L (g <$> rs).
Proof.
  induction 1 as [|x r L rs Hr _ IH]; cbn; constructor; [|done]. by rewrite Hr.
Qed.

Lemma length_range (n : Z) : length (Py.range n) = Z.to_nat n.
Proof. unfold Py.range. by rewrite length_seqZ. Qed.

(** X8. [list(x)] for a slice, a filtered view and a reader: when the store reads
    every record of the view, the result is the records of the index list, in
    its order. *)
Theorem iteration_reads_in_order (reader : VRSReader.t) (L : list Z)
    (rs : list Bindings.Record_) :
  Forall2 (λ absolute r, Bindings.read_record (VRSReader._reader reader) absolute = Ok r) L rs →
  let records := (λ r, VRSReaderSlice.ARecord (VRSRecord.VRSRecord r)) <$> rs in
  VRSReaderSlice.__iter__
    (VRSReaderSlice.VRSReaderSlice (VRSReader._path reader) (VRSReader._reader reader) L)
  = Ok records
  ∧ (∀ record_filter min_timestamp max_timestamp,
       FilteredVRSReader.__iter__
         (FilteredVRSReader.MkFilteredVRSReader reader record_filter L
            min_timestamp max_timestamp) = Ok records)
  ∧ (L = Py.range (VRSReader.n_records reader) → VRSReader.__iter__ reader = Ok records)
  ∧ length records = length L.
Proof.
  intros Hall records.
  pose proof (iterate_all L
    (λ absolute, record ← Bindings.read_record (VRSReader._reader reader) absolute;
                 Ok (VRSReaderSlice.ARecord (VRSRecord.VRSRecord record)))
    (S (length L)) 0 records ltac:(lia)) as Hit.
  cbn [drop] in Hit. specialize (Hit (Forall2_read_fmap _ _ _ _ Hall)).
  assert (∀ i, (x ← Py.getitem L i;
                record ← Bindings.read_record (VRSReader._reader reader) x;
                Ok (VRSReaderSlice.ARecord (VRSRecord.VRSRecord record)))
               = VRSReaderSlice.index_or_slice_records (VRSReader._path reader)
                   (VRSReader._reader reader) L (VRSReaderSlice.Int i)) as Hget by done.
  refine (conj _ (conj _ (conj _ _))).
  - exact Hit.
  - intros. exact Hit.
  - intros HL. unfold VRSReader.__iter__, VRSReader.__getitem__, VRSReader._read_record.
    rewrite <- HL. rewrite <- (length_range (VRSReader.n_records reader)), <- HL.
    exact Hit.
  - subst records. rewrite length_fmap. symmetry. by eapply Forall2_length.
Qed.

Lemma iteration_reads_in_order_witness :
  FilteredVRSReader.__iter__ Sample.view
  = Ok [ VRSReaderSlice.ARecord (VRSRecord.VRSRecord (Bindings.MkRecord 2 "100-1" "data" 1));
         VRSReaderSlice.ARecord (VRSRecord.VRSRecord (Bindings.MkRecord 4 "100-1" "data" 2)) ].
Proof.
  apply (iteration_reads_in_order Sample.reader [2; 4]
           [Bindings.MkRecord 2 "100-1" "data" 1; Bindings.MkRecord 4 "100-1" "data" 2]).
  repeat constructor.
Defined.

(** ** Asynchronous iteration *)

Lemma anext_loop_all (path : string) (reader : Bindings.Reader) (L : list Z)
    (fuel k : nat) (rs : list Bindings.Record_) :
  (length L - k < fuel)%nat → (k ≤ length L)%nat →
  Forall2 (λ absolute r, Bindings.read_record reader absolute = Ok r) (drop k L) rs →
  AsyncVRSReaderSlice.anext_loop fuel
    (AsyncVRSReaderSlice.AsyncVRSReaderSlice path reader L (Some (Z.of_nat k)))
  = (Ok ((λ r, AsyncVRSReaderSlice.ARecord (VRSRecord.VRSRecord r)) <$> rs),
     AsyncVRSReaderSlice.AsyncVRSReaderSlice path reader L (Some (Z.of_nat (length L)))).
Proof.
  revert k rs. induction fuel as [|fuel IH]; intros k rs Hfuel Hle Hall; [lia|].
  cbn [AsyncVRSReaderSlice.anext_loop].
  unfold AsyncVRSReaderSlice.__anext__, AsyncVRSReaderSlice.__len__.
  cbn [AsyncVRSReaderSlice.index AsyncVRSReaderSlice._indices
       AsyncVRSReaderSlice._path AsyncVRSReaderSlice._reader].
  destruct (Z.eqb_spec (Z.of_nat k) (Z.of_nat (length L))) as [Heq|Hne].
  - rewrite drop_ge in Hall by lia. apply Forall2_nil_inv_l in Hall as ->.
    cbn [fmap list_fmap]. do 3 f_equal. exact Heq.
  - unfold AsyncVRSReaderSlice.__getitem__, AsyncVRSReaderSlice.async_index_or_slice_records.
    cbn [AsyncVRSReaderSlice._indices AsyncVRSReaderSlice._path AsyncVRSReaderSlice._reader].
    destruct (getitem_nonneg L (Z.of_nat k) ltac:(lia)) as (x & Hx & ->).
    rewrite Nat2Z.id in Hx. rewrite (drop_S _ _ _ Hx) in Hall.
    apply Forall2_cons_inv_l in Hall as (r & rs' & Hr & Hrs & ->).
    cbn. rewrite Hr. cbn.
    replace (Z.of_nat k + 1) with (Z.of_nat (S k)) by lia.
    rewrite (IH (S k) rs') by (done || lia). done.
Qed.

Lemma anext_loop_stops (path : string) (reader : Bindings.Reader) (L : list Z)
    (fuel k : nat) (L1 L2 : list Z) (x : Z) (rs : list Bindings.Record_) (e : exn) :
  (length L - k < fuel)%nat →
  drop k L = L1 ++ x :: L2 →
  Forall2 (λ absolute r, Bindings.read_record reader absolute = Ok r) L1 rs →
  Bindings.read_record reader x = Raise e →
  AsyncVRSReaderSlice.anext_loop fuel
    (AsyncVRSReaderSlice.AsyncVRSReaderSlice path reader L (Some (Z.of_nat k)))
  = (Raise e,
     AsyncVRSReaderSlice.AsyncVRSReaderSlice path reader L
       (Some (Z.of_nat (k + length L1)))).
Proof.
  revert k L1 rs. induction fuel as [|fuel IH]; intros k L1 rs Hfuel Hdrop Hall He; [lia|].
  assert (k < length L)%nat as Hk.
  { destruct (decide (k < length L)%nat); [done|].
    rewrite drop_ge in Hdrop by lia. by destruct L1. }
  cbn [AsyncVRSReaderSlice.anext_loop].
  unfold AsyncVRSReaderSlice.__anext__, AsyncVRSReaderSlice.__len__.
  cbn [AsyncVRSReaderSlice.index AsyncVRSReaderSlice._indices
       AsyncVRSReaderSlice._path AsyncVRSReaderSlice._reader].
  destruct (Z.eqb_spec (Z.of_nat k) (Z.of_nat (length L))) as [Heq|Hne]; [lia|].
  unfold AsyncVRSReaderSlice.__getitem__, AsyncVRSReaderSlice.async_index_or_slice_records.
  cbn [AsyncVRSReaderSlice._indices AsyncVRSReaderSlice._path AsyncVRSReaderSlice._reader].
  destruct (getitem_nonneg L (Z.of_nat k) ltac:(lia)) as (y & Hy & ->).
  rewrite Nat2Z.id in Hy. rewrite (drop_S _ _ _ Hy) in Hdrop.
  destruct Hall as [|x1 r L1 rs Hr Hall].
  - cbn in Hdrop. injection Hdrop as -> Hdrop. cbn. rewrite He. cbn.
    by rewrite Nat.add_0_r.
  - cbn in Hdrop. injection Hdrop as -> Hdrop. cbn. rewrite Hr. cbn.
    replace (Z.of_nat k + 1) with (Z.of_nat (S k)) by lia.
    rewrite (IH (S k) L1 rs) by (done || lia).
    do 3 f_equal. lia.
Qed.

(** X10. [async for] over an asynchronous slice whose records the store all reads
    gives the records of the index list in its order, the ones the synchronous
    loop gives, and leaves the position at the length. *)
Theorem async_iteration_reads_in_order (path : string) (reader : Bindings.Reader)
    (L : list Z) (index : option Z) (rs : list Bindings.Record_) :
  Forall2 (λ absolute r, Bindings.read_record reader absolute = Ok r) L rs →
  AsyncVRSReaderSlice.async_for (AsyncVRSReaderSlice.AsyncVRSReaderSlice path reader L index)
  = (Ok (AsyncVRSReaderSlice.ARecord <$> (VRSRecord.VRSRecord <$> rs)),
     AsyncVRSReaderSlice.AsyncVRSReaderSlice path reader L (Some (Z.of_nat (length L))))
  ∧ VRSReaderSlice.__iter__ (VRSReaderSlice.VRSReaderSlice path reader L)
    = Ok (VRSReaderSlice.ARecord <$> (VRSRecord.VRSRecord <$> rs)).
Proof.
  intros Hall. split.
  - unfold AsyncVRSReaderSlice.async_for, AsyncVRSReaderSlice.__aiter__.
    cbn [AsyncVRSReaderSlice._indices AsyncVRSReaderSlice._path AsyncVRSReaderSlice._reader].
    rewrite <- list_fmap_compose.
    apply (anext_loop_all path reader L (S (length L)) 0 rs); [lia|lia|done].
  - pose proof (iterate_all L
      (λ absolute, record ← Bindings.read_record reader absolute;
                   Ok (VRSReaderSlice.ARecord (VRSRecord.VRSRecord record)))
      (S (length L)) 0 _ ltac:(lia) (Forall2_read_fmap _ _ _ _ Hall)) as Hit.
    rewrite <- list_fmap_compose. exact Hit.
Qed.

Lemma async_iteration_reads_in_order_witness :
  AsyncVRSReaderSlice.async_for
    (AsyncVRSReaderSlice.AsyncVRSReaderSlice "sample.vrs" (Catalog.store Sample.catalog)
       [2; 4] None)
  = (Ok [ AsyncVRSReaderSlice.ARecord (VRSRecord.VRSRecord (Bindings.MkRecord 2 "100-1" "data" 1));
          AsyncVRSReaderSlice.ARecord (VRSRecord.VRSRecord (Bindings.MkRecord 4 "100-1" "data" 2)) ],
     AsyncVRSReaderSlice.AsyncVRSReaderSlice "sample.vrs" (Catalog.store Sample.catalog)
       [2; 4] (Some 2)).
Proof.
  apply (async_iteration_reads_in_order "sample.vrs" (Catalog.store Sample.catalog) [2; 4] None
           [Bindings.MkRecord 2 "100-1" "data" 1; Bindings.MkRecord 4 "100-1" "data" 2]).
  repeat constructor.
Defined.

(** X9. When the store fails on one record of the index list, after reading the
    ones before it: the synchronous loop takes an [IndexError] for the end of
    the sequence and returns the records read so far, and raises anything
    else; the asynchronous loop raises the error, [IndexError] included, and
    stays at the position of the failure. *)
Theorem iteration_interrupted (path : string) (reader : Bindings.Reader)
    (L1 L2 : list Z) (x : Z) (index : option Z) (rs : list Bindings.Record_) (e : exn) :
  Forall2 (λ absolute r, Bindings.read_record reader absolute = Ok r) L1 rs →
  Bindings.read_record reader x = Raise e →
  VRSReaderSlice.__iter__ (VRSReaderSlice.VRSReaderSlice path reader (L1 ++ x :: L2))
  = (if decide (e = IndexError)
     then Ok (VRSReaderSlice.ARecord <$> (VRSRecord.VRSRecord <$> rs))
     else Raise e)
  ∧ AsyncVRSReaderSlice.async_for
      (AsyncVRSReaderSlice.AsyncVRSReaderSlice path reader (L1 ++ x :: L2) index)
    = (Raise e,
       AsyncVRSReaderSlice.AsyncVRSReaderSlice path reader (L1 ++ x :: L2)
         (Some (Z.of_nat (length L1)))).
Proof.
  intros Hall He. split.
  - pose proof (iterate_stops (L1 ++ x :: L2)
      (λ absolute, record ← Bindings.read_record reader absolute;
                   Ok (VRSReaderSlice.ARecord (VRSRecord.VRSRecord record)))
      (S (length (L1 ++ x :: L2))) 0 L1 L2 x _ e ltac:(lia) eq_refl
      (Forall2_read_fmap _ _ _ _ Hall)) as Hit.
    cbn beta in Hit. rewrite He in Hit. specialize (Hit eq_refl).
    rewrite <- list_fmap_compose. exact Hit.
  - unfold AsyncVRSReaderSlice.async_for, AsyncVRSReaderSlice.__aiter__.
    cbn [AsyncVRSReaderSlice._indices AsyncVRSReaderSlice._path AsyncVRSReaderSlice._reader].
    apply (anext_loop_stops path reader (L1 ++ x :: L2) _ 0 L1 L2 x rs e);
      [lia|done|done|done].
Qed.

Lemma iteration_interrupted_witness :
  VRSReaderSlice.__iter__
    (VRSReaderSlice.VRSReaderSlice "sample.vrs" (Catalog.store Sample.catalog) [2; 9; 4])
  = Ok [ VRSReaderSlice.ARecord (VRSRecord.VRSRecord (Bindings.MkRecord 2 "100-1" "data" 1)) ]
  ∧ AsyncVRSReaderSlice.async_for
      (AsyncVRSReaderSlice.AsyncVRSReaderSlice "sample.vrs" (Catalog.store Sample.catalog)
         [2; 9; 4] None)
    = (Raise IndexError,
       AsyncVRSReaderSlice.AsyncVRSReaderSlice "sample.vrs" (Catalog.store Sample.catalog)
         [2; 9; 4] (Some 1)).
Proof.
  apply (iteration_interrupted "sample.vrs" (Catalog.store Sample.catalog) [2] [4] 9 None
           [Bindings.MkRecord 2 "100-1" "data" 1] IndexError).
  - repeat constructor.
  - reflexivity.
Defined.

Lemma anext_loop_fields (fuel : nat) (self : AsyncVRSReaderSlice.t) :
  let self' := (AsyncVRSReaderSlice.anext_loop fuel self).2 in
  AsyncVRSReaderSlice._path self' = AsyncVRSReaderSlice._path self
  ∧ AsyncVRSReaderSlice._reader self' = AsyncVRSReaderSlice._reader self
  ∧ AsyncVRSReaderSlice._indices self' = AsyncVRSReaderSlice._indices self.
Proof.
  revert self. induction fuel as [|fuel IH]; intros self; [done|].
  cbn [AsyncVRSReaderSlice.anext_loop]. unfold AsyncVRSReaderSlice.__anext__.
  destruct (AsyncVRSReaderSlice.index self) as [i|]; [|done].
  destruct (i =? AsyncVRSReaderSlice.__len__ self); [done|].
  destruct (AsyncVRSReaderSlice.__getitem__ self (VRSReaderSlice.Int i)); [|done].
  match goal with |- context [AsyncVRSReaderSlice.anext_loop fuel ?s] =>
    specialize (IH s); destruct (AsyncVRSReaderSlice.anext_loop fuel s) as [[rest|e] s'] end;
    exact IH.
Qed.

(** X11. An asynchronous slice can be iterated again: [__aiter__] starts over from
    position 0, so that a second [async for], whatever the first one did,
    behaves as the first. *)
Theorem async_iteration_restarts (self : AsyncVRSReaderSlice.t) :
  AsyncVRSReaderSlice.async_for (AsyncVRSReaderSlice.async_for self).2
  = AsyncVRSReaderSlice.async_for self.
Proof.
  unfold AsyncVRSReaderSlice.async_for at 1 3.
  destruct (anext_loop_fields (S (length (AsyncVRSReaderSlice._indices self)))
              (AsyncVRSReaderSlice.__aiter__ self)) as (Hp & Hr & Hi).
  fold (AsyncVRSReaderSlice.async_for self) in Hp, Hr, Hi.
  cbn [AsyncVRSReaderSlice.__aiter__ AsyncVRSReaderSlice._indices AsyncVRSReaderSlice._path
       AsyncVRSReaderSlice._reader] in Hp, Hr, Hi.
  unfold AsyncVRSReaderSlice.__aiter__ at 1.
  by rewrite Hp, Hr, Hi.
Qed.

(** ** More on metadata keys *)

(** X16. [_unique_string_for_key] returns [name], as many [<] as it takes, the
    type and as many [>]: the key with the fewest brackets, and at least one,
    that the dictionary does not have.  So the loop of the source ends, and
    the key is neither a key of the dictionary nor the bare name. *)
Theorem unique_string_for_key_is_first_free {V} (name type_ : string) (dict_ : gmap string V) :
  ∃ i, (1 ≤ i ≤ S (size dict_))%nat
       ∧ Utils._unique_string_for_key name type_ dict_ = Utils.bracketed name type_ i
       ∧ dict_ !! Utils.bracketed name type_ i = None
       ∧ (∀ j, (1 ≤ j < i)%nat → is_Some (dict_ !! Utils.bracketed name type_ j))
       ∧ Utils._unique_string_for_key name type_ dict_ ≠ name
       ∧ String.length (Utils._unique_string_for_key name type_ dict_)
         = (String.length name + String.length type_ + 2 * i)%nat.
Proof.
  destruct (unique_string_for_key_first name type_ dict_) as (i & Hi & Hkey & Hfree & Hused).
  exists i. rewrite Hkey.
  refine (conj _ (conj eq_refl (conj Hfree (conj Hused (conj _ _))))).
  - split; [done|].
    (* the [i - 1] rejected keys are different keys of the dictionary *)
    assert (∀ n, (n < i)%nat →
              ∃ X : gset string, size X = n ∧ X ⊆ dom dict_
                ∧ ∀ k, k ∈ X → ∃ j, (1 ≤ j ≤ n)%nat ∧ k = Utils.bracketed name type_ j) as Hset.
    { induction n as [|n IH]; intros Hn.
      - exists ∅. split; [done|]. split; [set_solver|set_solver].
      - destruct IH as (X & HX & Hsub & Hform); [lia|].
        exists ({[Utils.bracketed name type_ (S n)]} ∪ X). split; [|split].
        + rewrite size_union, size_singleton; [lia|].
          apply disjoint_singleton_l. intros Hin. apply Hform in Hin as (j & Hj & Heq).
          apply bracketed_inj in Heq. lia.
        + apply union_subseteq. split; [|done].
          apply singleton_subseteq_l, elem_of_dom, Hused. lia.
        + intros k [->%elem_of_singleton|Hk]%elem_of_union; [exists (S n); split; [lia|done]|].
          apply Hform in Hk as (j & Hj & ->). exists j. split; [lia|done]. }
    destruct (Hset (i - 1)%nat ltac:(lia)) as (X & HX & Hsub & _).
    apply subseteq_size in Hsub. rewrite size_dom in Hsub. lia.
  - apply bracketed_not_name. lia.
  - rewrite bracketed_length. lia.
Qed.

(** ** Values are kept *)

Lemma stringify_step_values {V} (st st' : Utils.locals V) (entry : string * string * V) :
  Utils.stringify_step st entry = Ok st' →
  (map_to_list (Utils.filtered st')).*2 ≡ₚ entry.2 :: (map_to_list (Utils.filtered st)).*2.
Proof.
  destruct entry as [[name type_] value]. unfold Utils.stringify_step.
  destruct (decide (name ∈ Utils.ambiguous_names st)) as [Hamb|Hamb].
  - intros [= <-]. cbn.
    by rewrite map_to_list_insert by apply unique_string_for_key_fresh.
  - destruct (Utils.filtered st !! name) as [old_value|] eqn:Hname.
    + destruct (Utils.removed_types st !! name) as [old_type|]; [|discriminate].
      intros [= <-]. cbn.
      rewrite !map_to_list_insert by apply unique_string_for_key_fresh. cbn.
      rewrite <- (map_to_list_delete (Utils.filtered st) name old_value Hname). cbn.
      done.
    + intros [= <-]. cbn. by rewrite map_to_list_insert.
Qed.

Lemma stringify_loop_values {V} (items : list (string * string * V)) (st st' : Utils.locals V) :
  Utils.stringify_loop st items = Ok st' →
  (map_to_list (Utils.filtered st')).*2 ≡ₚ items.*2 ++ (map_to_list (Utils.filtered st)).*2.
Proof.
  revert st. induction items as [|entry items IH]; intros st; cbn [Utils.stringify_loop].
  - by intros [= <-].
  - destruct (Utils.stringify_step st entry) as [st1|] eqn:Hstep; cbn; [|discriminate].
    intros H. apply IH in H. apply stringify_step_values in Hstep.
    rewrite H, Hstep. by rewrite Permutation_middle.
Qed.

Lemma stringify_loop_raises {V} (items : list (string * string * V)) (st : Utils.locals V)
    (e : exn) :
  Utils.stringify_loop st items = Raise e → e = KeyError.
Proof.
  revert st. induction items as [|[[name type_] value] items IH]; intros st;
    cbn [Utils.stringify_loop]; [discriminate|].
  destruct (Utils.stringify_step st (name, type_, value)) as [st1|e1] eqn:Hstep; cbn.
  - apply IH.
  - intros [= <-]. by apply stringify_step_raises in Hstep as [-> _].
Qed.

Lemma stringify_metadata_keys_values_or_key_error {V}
    (metadata_dict : list (string * string * V)) :
  match Utils.stringify_metadata_keys metadata_dict with
  | Ok d => size d = length metadata_dict ∧ (map_to_list d).*2 ≡ₚ metadata_dict.*2
  | Raise e => e = KeyError
  end.
Proof.
  unfold Utils.stringify_metadata_keys.
  destruct (Utils.stringify_loop _ metadata_dict) as [st|e] eqn:Hloop; cbn.
  - split.
    + apply stringify_loop_size in Hloop. cbn [Utils.filtered] in Hloop.
      by rewrite map_size_empty in Hloop.
    + apply stringify_loop_values in Hloop. cbn [Utils.filtered] in Hloop.
      by rewrite map_to_list_empty, app_nil_r in Hloop.
  - by apply stringify_loop_raises in Hloop.
Qed.

(** X17. [stringify_metadata_keys] either returns a dictionary with one key for
    each entry of its argument, holding the values of the argument, each as
    often as the argument has it, or raises [KeyError]; it raises nothing
    else. *)
Theorem stringify_metadata_keys_keeps_values {V} (metadata_dict : list (string * string * V)) :
  (∀ d, Utils.stringify_metadata_keys metadata_dict = Ok d →
     size d = length metadata_dict
     ∧ (map_to_list d).*2 ≡ₚ metadata_dict.*2
     ∧ (∀ value, value ∈ metadata_dict.*2 ↔ ∃ k, d !! k = Some value))
  ∧ (∀ e, Utils.stringify_metadata_keys metadata_dict = Raise e → e = KeyError).
Proof.
  pose proof (stringify_metadata_keys_values_or_key_error metadata_dict) as H.
  split.
  - intros d Hd. rewrite Hd in H. destruct H as [Hsize Hperm].
    split; [done|]. split; [done|]. intros value. rewrite <- Hperm.
    rewrite list_elem_of_fmap. split.
    + intros ([k v] & -> & Hkv). exists k. by apply elem_of_map_to_list in Hkv.
    + intros [k Hk]. exists (k, value). split; [done|]. by apply elem_of_map_to_list.
  - intros e He. by rewrite He in H.
Qed.

(** ** How names are resolved *)

Lemma bracketed_one (name type_ : string) :
  list_ascii_of_string (Utils.bracketed name type_ 1)
  = list_ascii_of_string name ++ "<"%char :: list_ascii_of_string type_ ++ [">"%char].
Proof.
  unfold Utils.bracketed. cbn [Utils.repeat_string].
  by rewrite !list_ascii_of_string_append.
Qed.

Lemma bracketed_one_inj (name name' type_ type_' : string) :
  "<"%char ∉ list_ascii_of_string name → "<"%char ∉ list_ascii_of_string name' →
  Utils.bracketed name type_ 1 = Utils.bracketed name' type_' 1 →
  name = name' ∧ type_ = type_'.
Proof.
  intros Hn Hn' Heq. apply (f_equal list_ascii_of_string) in Heq.
  rewrite !bracketed_one in Heq.
  assert (∀ (l1 l2 r1 r2 : list ascii) c, c ∉ l1 → c ∉ l2 →
            l1 ++ c :: r1 = l2 ++ c :: r2 → l1 = l2 ∧ r1 = r2) as Hsplit.
  { induction l1 as [|a l1 IH]; intros [|b l2] r1 r2 c H1 H2 H; simplify_eq/=; try done.
    - exfalso. apply H2. left.
    - exfalso. apply H1. left.
    - apply not_elem_of_cons in H1 as [? ?], H2 as [? ?].
      destruct (IH l2 r1 r2 c) as [-> ->]; done. }
  apply Hsplit in Heq as [H1 H2]; [|done|done].
  apply app_inj_tail in H2 as [H2 _].
  split; by apply list_ascii_of_string_inj.
Qed.

Lemma bracketed_one_not_plain (name type_ k : string) :
  "<"%char ∉ list_ascii_of_string k → Utils.bracketed name type_ 1 ≠ k.
Proof. intros Hk <-. apply Hk, bracketed_has_bracket. lia. Qed.

Lemma unique_string_for_key_when_free {V} (name type_ : string) (d : gmap string V) :
  d !! Utils.bracketed name type_ 1 = None →
  Utils._unique_string_for_key name type_ d = Utils.bracketed name type_ 1.
Proof.
  intros Hfree.
  destruct (unique_string_for_key_first name type_ d) as (i & Hi & -> & _ & Hused).
  destruct (decide (i = 1%nat)) as [->|Hne]; [done|].
  destruct (Hused 1%nat ltac:(lia)) as [v Hv]. congruence.
Qed.

Lemma resolved_key_plain (amb : gset string) (name type_ k : string) :
  "<"%char ∉ list_ascii_of_string k →
  k = resolved_key amb name type_ → (name ∉ amb) ∧ k = name.
Proof.
  intros Hk. unfold resolved_key. case_decide; [|done].
  intros ->. by destruct (bracketed_one_not_plain name type_ _ Hk).
Qed.

Lemma resolved_key_bracketed (amb : gset string) (name name' type_ type_' : string) :
  "<"%char ∉ list_ascii_of_string name → "<"%char ∉ list_ascii_of_string name' →
  Utils.bracketed name type_ 1 = resolved_key amb name' type_' →
  name' ∈ amb ∧ name' = name ∧ type_' = type_.
Proof.
  intros Hn Hn'. unfold resolved_key. case_decide.
  - intros [-> ->]%bracketed_one_inj; done.
  - intros Heq. by destruct (bracketed_one_not_plain name type_ _ Hn').
Qed.

Lemma stringify_step_invariant {V} (done : list (string * string * V)) (st : Utils.locals V)
    (name type_ : string) (value : V) :
  NoDup (done ++ [(name, type_, value)]).*1 →
  Forall (λ entry, "<"%char ∉ list_ascii_of_string entry.1.1) done →
  "<"%char ∉ list_ascii_of_string name →
  stringify_invariant done st →
  ∃ st', Utils.stringify_step st (name, type_, value) = Ok st'
         ∧ stringify_invariant (done ++ [(name, type_, value)]) st'.
Proof.
  intros Hnodup Hplain Hname (Hamb & Hrem & Hfil).
  rewrite fmap_app in Hnodup. apply NoDup_app in Hnodup as (Hnd & Hnew & _).
  assert (∀ v, (name, type_, v) ∉ done) as Hfresh.
  { intros v Hin. apply (Hnew (name, type_)); [|cbn; left].
    apply list_elem_of_fmap. by exists (name, type_, v). }
  assert (∀ n t v1 v2, (n, t, v1) ∈ done → (n, t, v2) ∈ done → v1 = v2) as Hfun.
  { intros n t v1 v2 H1 H2.
    apply list_elem_of_lookup in H1 as [i1 H1], H2 as [i2 H2].
    assert (i1 = i2) as ->; [|congruence].
    apply (NoDup_lookup _ _ _ (n, t) Hnd); rewrite list_lookup_fmap;
      [by rewrite H1|by rewrite H2]. }
  assert (∀ n t v, (n, t, v) ∈ done → "<"%char ∉ list_ascii_of_string n) as Hpl.
  { intros n t v Hin. rewrite Forall_forall in Hplain. apply (Hplain _ Hin). }
  assert (∀ n t v, (n, t, v) ∈ done ++ [(name, type_, value)]
            ↔ (n, t, v) ∈ done ∨ (n = name ∧ t = type_ ∧ v = value)) as Hmem.
  { intros n t v. rewrite elem_of_app, list_elem_of_singleton. split.
    - intros [?|[= -> -> ->]]; [by left|by right].
    - intros [?|(-> & -> & ->)]; [by left|by right]. }
  assert (∀ amb : gset string, name ∈ {[name]} ∪ amb) as Hself
    by (intros amb; apply elem_of_union; left; by apply elem_of_singleton).
  assert (∀ (amb : gset string) n, n ∈ amb → n ∈ {[name]} ∪ amb) as Hkeep
    by (intros amb n ?; apply elem_of_union; by right).
  assert (∀ (amb : gset string) n, n ≠ name → n ∉ amb → n ∉ {[name]} ∪ amb) as Hout
    by (intros amb n ? ?; apply not_elem_of_union; split;
        [by apply not_elem_of_singleton|done]).
  (* a key with brackets for [name] is free unless [name] is ambiguous and
     has come with the type *)
  assert (∀ t, Utils.filtered st !! Utils.bracketed name t 1 = None
               ∨ ((name ∈ Utils.ambiguous_names st) ∧ ∃ v, (name, t, v) ∈ done)) as Hbr.
  { intros t. destruct (Utils.filtered st !! Utils.bracketed name t 1) as [v|] eqn:Hv;
      [|by left].
    right. apply Hfil in Hv as (n' & t' & Hin & Hk).
    apply resolved_key_bracketed in Hk as (? & -> & ->); [eauto|done|by eapply Hpl]. }
  unfold Utils.stringify_step.
  destruct (decide (name ∈ Utils.ambiguous_names st)) as [Ha|Ha].
  - (* the name is known to be ambiguous *)
    assert (Utils.filtered st !! Utils.bracketed name type_ 1 = None) as Hfree.
    { destruct (Hbr type_) as [?|(_ & v & Hin)]; [done|]. by destruct (Hfresh v). }
    rewrite (unique_string_for_key_when_free _ _ _ Hfree).
    eexists. split; [reflexivity|]. refine (conj _ (conj _ _)); cbn.
    + intros n. rewrite Hamb. split.
      * intros (t1 & v1 & t2 & v2 & Hne & H1 & H2).
        exists t1, v1, t2, v2. rewrite !Hmem. auto.
      * intros (t1 & v1 & t2 & v2 & Hne & H1 & H2).
        apply Hmem in H1 as [H1|(? & ? & ?)], H2 as [H2|(? & ? & ?)]; subst;
          try done; try (by apply Hamb); by exists t1, v1, t2, v2.
    + intros n t. rewrite Hrem. split.
      * intros (Hn & v & Hin). split; [done|]. exists v. apply Hmem. auto.
      * intros (Hn & v & Hin). split; [done|].
        apply Hmem in Hin as [Hin|(-> & -> & ->)]; [eauto|done].
    + intros k v. split.
      * destruct (decide (k = Utils.bracketed name type_ 1)) as [->|Hne].
        -- rewrite lookup_insert_eq. intros [= <-]. exists name, type_.
           split; [apply Hmem; auto|]. unfold resolved_key. by rewrite decide_True.
        -- rewrite lookup_insert_ne by done. intros (n & t & Hin & Hk)%Hfil.
           exists n, t. split; [apply Hmem; auto|done].
      * intros (n & t & Hin & ->). apply Hmem in Hin as [Hin|(-> & -> & ->)].
        -- rewrite lookup_insert_ne.
           { apply Hfil. eauto. }
           intros Heq. apply resolved_key_bracketed in Heq as (_ & -> & ->);
             [by destruct (Hfresh v)|done|by eapply Hpl].
        -- unfold resolved_key. rewrite decide_True by done. by rewrite lookup_insert_eq.
  - destruct (Utils.filtered st !! name) as [old_value|] eqn:Hold.
    + (* the first collision on the name *)
      pose proof Hold as Hold'.
      apply Hfil in Hold' as (n & old_type & Hin & Hk).
      apply resolved_key_plain in Hk as [_ <-]; [|done].
      assert (Utils.removed_types st !! name = Some old_type) as Hr
        by (apply Hrem; eauto).
      rewrite Hr.
      assert (∀ t v, (name, t, v) ∈ done → t = old_type ∧ v = old_value) as Honly.
      { intros t v Hin'. destruct (decide (t = old_type)) as [->|Hne].
        - split; [done|]. by eapply Hfun.
        - destruct Ha. apply Hamb. by exists t, v, old_type, old_value. }
      assert (old_type ≠ type_) as Htypes by (intros ->; by destruct (Hfresh old_value)).
      assert (∀ t, Utils.filtered st !! Utils.bracketed name t 1 = None) as Hfree
        by (intros t; by destruct (Hbr t) as [?|[? _]]).
      assert (Utils.bracketed name old_type 1 ≠ name) as Hne1
        by (by apply bracketed_one_not_plain).
      assert (Utils.bracketed name type_ 1 ≠ name) as Hne2
        by (by apply bracketed_one_not_plain).
      assert (Utils.bracketed name type_ 1 ≠ Utils.bracketed name old_type 1) as Hne12
        by (intros [_ ?]%bracketed_one_inj; done).
      rewrite (unique_string_for_key_when_free name old_type)
        by (by rewrite lookup_delete_ne).
      rewrite (unique_string_for_key_when_free name type_)
        by (rewrite lookup_insert_ne, lookup_delete_ne; done).
      eexists. split; [reflexivity|]. refine (conj _ (conj _ _)); cbn.
      * intros n. rewrite elem_of_union, elem_of_singleton, Hamb. split.
        -- intros [->|(t1 & v1 & t2 & v2 & Hne & H1 & H2)].
           ++ exists old_type, old_value, type_, value. rewrite !Hmem.
              split; [done|]. split; [by left|by right].
           ++ exists t1, v1, t2, v2. rewrite !Hmem. auto.
        -- intros (t1 & v1 & t2 & v2 & Hne & H1 & H2).
           apply Hmem in H1 as [H1|(? & ? & ?)], H2 as [H2|(? & ? & ?)]; subst;
             try done; auto; right; by exists t1, v1, t2, v2.
      * intros n t. rewrite not_elem_of_union, not_elem_of_singleton. split.
        -- intros Hl. destruct (decide (n = name)) as [->|Hn];
             [by rewrite lookup_delete_eq in Hl|].
           rewrite lookup_delete_ne in Hl by done.
           apply Hrem in Hl as (? & v & ?). split; [done|]. exists v. apply Hmem. auto.
        -- intros ([Hn Hna] & v & Hin'). rewrite lookup_delete_ne by done.
           apply Hrem. split; [done|].
           apply Hmem in Hin' as [?|(-> & _)]; [eauto|done].
      * intros k v. split.
        -- destruct (decide (k = Utils.bracketed name type_ 1)) as [->|Hk2].
           { rewrite lookup_insert_eq. intros [= <-]. exists name, type_.
             split; [apply Hmem; auto|]. unfold resolved_key.
             rewrite decide_True; [done|apply Hself]. }
           rewrite lookup_insert_ne by done.
           destruct (decide (k = Utils.bracketed name old_type 1)) as [->|Hk1].
           { rewrite lookup_insert_eq. intros [= <-]. exists name, old_type.
             split; [apply Hmem; auto|]. unfold resolved_key.
             rewrite decide_True; [done|apply Hself]. }
           rewrite lookup_insert_ne by done.
           destruct (decide (k = name)) as [->|Hk0]; [by rewrite lookup_delete_eq|].
           rewrite lookup_delete_ne by done.
           intros (n & t & Hin' & Hk)%Hfil. exists n, t. split; [apply Hmem; auto|].
           subst k. unfold resolved_key in *.
           destruct (decide (n = name)) as [->|Hn].
           ++ by rewrite decide_False in Hk0.
           ++ destruct (decide (n ∈ Utils.ambiguous_names st)).
              ** rewrite decide_True; [done|by apply Hkeep].
              ** rewrite decide_False; [done|by apply Hout].
        -- intros (n & t & Hin' & ->). apply Hmem in Hin' as [Hin'|(-> & -> & ->)].
           ++ destruct (decide (n = name)) as [->|Hn].
              ** apply Honly in Hin' as [-> ->]. unfold resolved_key.
                 rewrite decide_True by apply Hself.
                 rewrite lookup_insert_ne by done. by rewrite lookup_insert_eq.
              ** assert (resolved_key ({[name]} ∪ Utils.ambiguous_names st) n t
                         = resolved_key (Utils.ambiguous_names st) n t) as ->.
                 { unfold resolved_key.
                   destruct (decide (n ∈ Utils.ambiguous_names st)).
                   - rewrite decide_True; [done|by apply Hkeep].
                   - rewrite decide_False; [done|by apply Hout]. }
                 assert (Utils.filtered st !! resolved_key (Utils.ambiguous_names st) n t
                         = Some v) as Hv by (apply Hfil; eauto).
                 rewrite lookup_insert_ne, lookup_insert_ne, lookup_delete_ne; [done|..].
                 --- intros Heq. apply resolved_key_plain in Heq as [_ ?]; done.
                 --- intros Heq. apply resolved_key_bracketed in Heq as (_ & ? & _);
                       [done|done|by eapply Hpl].
                 --- intros Heq. apply resolved_key_bracketed in Heq as (_ & ? & _);
                       [done|done|by eapply Hpl].
           ++ unfold resolved_key. rewrite decide_True by apply Hself.
              by rewrite lookup_insert_eq.
    + (* the first time the name is seen *)
      assert (∀ t v, (name, t, v) ∉ done) as Hnone.
      { intros t v Hin.
        assert (Utils.filtered st !! name = Some v); [|congruence].
        apply Hfil. exists name, t. split; [done|].
        unfold resolved_key. by rewrite decide_False. }
      eexists. split; [reflexivity|]. refine (conj _ (conj _ _)); cbn.
      * intros n. rewrite Hamb. split.
        -- intros (t1 & v1 & t2 & v2 & Hne & H1 & H2).
           exists t1, v1, t2, v2. rewrite !Hmem. auto.
        -- intros (t1 & v1 & t2 & v2 & Hne & H1 & H2).
           apply Hmem in H1 as [H1|(? & ? & ?)], H2 as [H2|(? & ? & ?)]; subst;
             try done; try (by exists t1, v1, t2, v2).
           ++ by destruct (Hnone t1 v1).
           ++ by destruct (Hnone t2 v2).
      * intros n t. destruct (decide (n = name)) as [->|Hn].
        -- rewrite lookup_insert_eq. split.
           ++ intros [= <-]. split; [done|]. exists value. apply Hmem. auto.
           ++ intros (_ & v & Hin). apply Hmem in Hin as [Hin|(_ & -> & _)]; [|done].
              by destruct (Hnone t v).
        -- rewrite lookup_insert_ne by done. rewrite Hrem. split.
           ++ intros (? & v & ?). split; [done|]. exists v. apply Hmem. auto.
           ++ intros (? & v & Hin). split; [done|].
              apply Hmem in Hin as [?|(-> & _)]; [eauto|done].
      * intros k v. split.
        -- destruct (decide (k = name)) as [->|Hk].
           ++ rewrite lookup_insert_eq. intros [= <-]. exists name, type_.
              split; [apply Hmem; auto|]. unfold resolved_key. by rewrite decide_False.
           ++ rewrite lookup_insert_ne by done. intros (n & t & Hin & Hk')%Hfil.
              exists n, t. split; [apply Hmem; auto|done].
        -- intros (n & t & Hin & ->). apply Hmem in Hin as [Hin|(-> & -> & ->)].
           ++ rewrite lookup_insert_ne.
              { apply Hfil. eauto. }
              intros Heq. apply resolved_key_plain in Heq as [_ <-]; [|done].
              by destruct (Hnone t v).
           ++ unfold resolved_key. rewrite decide_False by done.
              by rewrite lookup_insert_eq.
Qed.

Lemma stringify_loop_invariant {V} (items done : list (string * string * V))
    (st : Utils.locals V) :
  NoDup (done ++ items).*1 →
  Forall (λ entry, "<"%char ∉ list_ascii_of_string entry.1.1) (done ++ items) →
  stringify_invariant done st →
  ∃ st', Utils.stringify_loop st items = Ok st' ∧ stringify_invariant (done ++ items) st'.
Proof.
  revert done st. induction items as [|[[name type_] value] items IH];
    intros done st Hnd Hplain Hinv.
  - exists st. by rewrite app_nil_r.
  - cbn [Utils.stringify_loop].
    replace (done ++ (name, type_, value) :: items)
      with ((done ++ [(name, type_, value)]) ++ items) in * by (by rewrite <- app_assoc).
    destruct (stringify_step_invariant done st name type_ value) as (st1 & -> & Hinv1).
    + rewrite fmap_app in Hnd. by apply NoDup_app in Hnd as [? _].
    + apply Forall_app in Hplain as [Hplain _]. by apply Forall_app in Hplain as [? _].
    + apply Forall_app in Hplain as [Hplain _]. apply Forall_app in Hplain as [_ Hplain].
      by apply (Forall_singleton (λ entry : string * string * V,
                  "<"%char ∉ list_ascii_of_string entry.1.1)) in Hplain.
    + done.
    + cbn. by apply IH.
Qed.

(** X18. For a dictionary whose names have no opening angle bracket,
    [stringify_metadata_keys] returns, and its result has exactly one key for
    each entry: the bare name when the name comes with a single type, and
    [name<type>] when the name comes with several types. *)
Theorem stringify_metadata_keys_resolves {V} (metadata_dict : list (string * string * V)) :
  NoDup metadata_dict.*1 →
  Forall (λ entry, "<"%char ∉ list_ascii_of_string entry.1.1) metadata_dict →
  ∃ d,
    Utils.stringify_metadata_keys metadata_dict = Ok d
    ∧ size d = length metadata_dict
    ∧ ∀ name type_ value, (name, type_, value) ∈ metadata_dict →
        ((∀ t v, (name, t, v) ∈ metadata_dict → t = type_) → d !! name = Some value)
        ∧ (∀ t v, (name, t, v) ∈ metadata_dict → t ≠ type_ →
             d !! Utils.bracketed name type_ 1 = Some value).
Proof.
  intros Hnd Hplain.
  destruct (stringify_loop_invariant metadata_dict [] (Utils.Locals ∅ ∅ ∅))
    as (st & Hloop & (Hamb & Hrem & Hfil)); [done|done| |].
  { refine (conj _ (conj _ _)); cbn.
    - intros name. split; [set_solver|]. intros (? & ? & ? & ? & _ & H & _).
      by apply elem_of_nil in H.
    - intros name type_. rewrite lookup_empty. split; [done|].
      intros (_ & v & H). by apply elem_of_nil in H.
    - intros k v. rewrite lookup_empty. split; [done|].
      intros (? & ? & H & _). by apply elem_of_nil in H. }
  cbn [app] in *.
  assert (Utils.stringify_metadata_keys metadata_dict = Ok (Utils.filtered st)) as Hd
    by (unfold Utils.stringify_metadata_keys; by rewrite Hloop).
  exists (Utils.filtered st). split; [done|]. split; [by apply stringify_metadata_keys_size|].
  intros name type_ value Hin. split.
  - intros Honly. apply Hfil. exists name, type_. split; [done|].
    unfold resolved_key. rewrite decide_False; [done|].
    intros (t1 & v1 & t2 & v2 & Hne & H1 & H2)%Hamb.
    apply Honly in H1, H2. congruence.
  - intros t v Hin' Hne. apply Hfil. exists name, type_. split; [done|].
    unfold resolved_key. rewrite decide_True; [done|].
    apply Hamb. by exists t, v, type_, value.
Qed.

Lemma stringify_metadata_keys_resolves_witness :
  ∃ d,
    Utils.stringify_metadata_keys
      [ ("varname", "typenamea", "aval"); ("varname", "typenameb", "bval");
        ("varnameother", "typenameb", "cval") ]%string = Ok d
    ∧ size d = 3%nat
    ∧ ∀ name type_ value,
        (name, type_, value)
          ∈ [ ("varname", "typenamea", "aval"); ("varname", "typenameb", "bval");
              ("varnameother", "typenameb", "cval") ]%string →
        ((∀ t v, (name, t, v)
                   ∈ [ ("varname", "typenamea", "aval"); ("varname", "typenameb", "bval");
                       ("varnameother", "typenameb", "cval") ]%string → t = type_) →
         d !! name = Some value)
        ∧ (∀ t v, (name, t, v)
                    ∈ [ ("varname", "typenamea", "aval"); ("varname", "typenameb", "bval");
                        ("varnameother", "typenameb", "cval") ]%string → t ≠ type_ →
             d !! Utils.bracketed name type_ 1 = Some value).
Proof.
  apply (stringify_metadata_keys_resolves
           [ ("varname", "typenamea", "aval"); ("varname", "typenameb", "bval");
             ("varnameother", "typenameb", "cval") ]%string).
  - apply (bool_decide_unpack _). vm_compute. exact I.
  - repeat constructor; apply (bool_decide_unpack _); vm_compute; exact I.
Defined.

(** ** Blocks of a record *)

(** X19. The metadata blocks of a record: [len] is the count the record reports;
    position [i] is the dictionary of block [i] with its keys resolved, a
    negative position counts from the end, and a position outside
    [-n <= i < n] raises [IndexError] without a look at the record; the keys
    are resolved when a block is accessed, so that a [KeyError] of
    [stringify_metadata_keys] is raised there and is the only error the
    access adds to those of the record; and the slice [a:b] holds the blocks
    from [a] to [b - 1], fetched in the same way. *)
Theorem metadata_blocks_access {V}
    (record_metadata_blocks : Z → result (list (string * string * V))) (n i : Z) :
  let blocks := VRSBlocks.metadata_blocks record_metadata_blocks n in
  let fetch := λ idx,
    x ← record_metadata_blocks idx; d ← Utils.stringify_metadata_keys x;
    Ok (VRSBlocks.ABlock d) in
  VRSBlocks.__len__ blocks = Z.max 0 n
  ∧ (0 ≤ i < n → VRSBlocks.__getitem__ blocks (VRSReaderSlice.Int i) = fetch i)
  ∧ (- n ≤ i < 0 → VRSBlocks.__getitem__ blocks (VRSReaderSlice.Int i) = fetch (i + n))
  ∧ (i < - n ∨ n ≤ i →
     VRSBlocks.__getitem__ blocks (VRSReaderSlice.Int i) = Raise IndexError)
  ∧ (∀ x, 0 ≤ i < n → record_metadata_blocks i = Ok x →
       (∀ d, VRSBlocks.__getitem__ blocks (VRSReaderSlice.Int i) = Ok (VRSBlocks.ABlock d) →
          Utils.stringify_metadata_keys x = Ok d
          ∧ size d = length x ∧ (map_to_list d).*2 ≡ₚ x.*2)
       ∧ (∀ e, VRSBlocks.__getitem__ blocks (VRSReaderSlice.Int i) = Raise e →
            e = KeyError))
  ∧ (∀ a b, 0 ≤ a ≤ b ≤ n →
       VRSBlocks.__getitem__ blocks
         (VRSReaderSlice.Slice (Py.Slice (Some a) (Some b) None))
       = Ok (VRSBlocks.Blocks
               (VRSBlocks.VRSBlocks (VRSBlocks._get_func blocks) (seqZ a (b - a))))).
Proof.
  intros blocks fetch.
  assert (∀ j, VRSBlocks.__getitem__ blocks (VRSReaderSlice.Int j)
               = (position ← Py.getitem (Py.range n) j; fetch position)) as Hget.
  { intros j. unfold VRSBlocks.__getitem__, blocks, VRSBlocks.metadata_blocks, fetch.
    cbn [VRSBlocks._range VRSBlocks._get_func].
    destruct (Py.getitem (Py.range n) j) as [position|]; [|done]. cbn.
    destruct (record_metadata_blocks position) as [x|]; [|done]. cbn.
    by destruct (Utils.stringify_metadata_keys x). }
  refine (conj _ (conj _ (conj _ (conj _ (conj _ _))))).
  - unfold VRSBlocks.__len__, blocks, VRSBlocks.metadata_blocks.
    cbn [VRSBlocks._range]. unfold Py.range. rewrite length_seqZ. lia.
  - intros Hi. rewrite Hget, getitem_range. by rewrite decide_True.
  - intros Hi. rewrite Hget, getitem_range. rewrite decide_False by lia.
    by rewrite decide_True.
  - intros Hi. rewrite Hget, getitem_range. rewrite decide_False by lia.
    by rewrite decide_False by lia.
  - intros x Hi Hx. rewrite Hget, getitem_range. rewrite decide_True by done.
    cbn. unfold fetch. rewrite Hx. cbn.
    pose proof (stringify_metadata_keys_values_or_key_error x) as Hs.
    destruct (Utils.stringify_metadata_keys x) as [d|e]; cbn.
    + split; [|done]. by intros d' [= <-].
    + split; [done|]. by intros e' [= <-].
  - intros a b Hab. unfold VRSBlocks.__getitem__, blocks, VRSBlocks.metadata_blocks.
    cbn [VRSBlocks._range VRSBlocks._get_func].
    by rewrite getslice_range by lia.
Qed.

(** ** Laws of the restriction of a set *)

(** X20. [_filter_set_on_condition] never adds to the set: it returns a subset of
    it, the empty set when there is nothing to compare with, and the union of
    the results when the items or the set come in two parts; the order of the
    items and their repetitions do not matter, and filtering the result again
    changes nothing. *)
Theorem filter_set_on_condition_laws `{Countable T} (s s' : gset T) (items items' : list T)
    (cond_func : T → T → bool) :
  Utils._filter_set_on_condition s items cond_func ⊆ s
  ∧ Utils._filter_set_on_condition s [] cond_func = ∅
  ∧ Utils._filter_set_on_condition ∅ items cond_func = ∅
  ∧ Utils._filter_set_on_condition s (items ++ items') cond_func
    = Utils._filter_set_on_condition s items cond_func
      ∪ Utils._filter_set_on_condition s items' cond_func
  ∧ Utils._filter_set_on_condition (s ∪ s') items cond_func
    = Utils._filter_set_on_condition s items cond_func
      ∪ Utils._filter_set_on_condition s' items cond_func
  ∧ Utils._filter_set_on_condition (Utils._filter_set_on_condition s items cond_func)
      items cond_func
    = Utils._filter_set_on_condition s items cond_func
  ∧ ((∀ b, b ∈ items ↔ b ∈ items') →
     Utils._filter_set_on_condition s items cond_func
     = Utils._filter_set_on_condition s items' cond_func).
Proof.
  refine (conj _ (conj _ (conj _ (conj _ (conj _ (conj _ _)))))).
  - intros a. rewrite filter_set_on_condition_spec. by intros [? _].
  - apply leibniz_equiv. intros a. rewrite filter_set_on_condition_spec. split.
    + intros (_ & b & Hb & _). by apply elem_of_nil in Hb.
    + by intros ?%not_elem_of_empty.
  - apply leibniz_equiv. intros a. rewrite filter_set_on_condition_spec. split.
    + by intros [?%not_elem_of_empty _].
    + by intros ?%not_elem_of_empty.
  - apply leibniz_equiv. intros a.
    rewrite elem_of_union, !filter_set_on_condition_spec. split.
    + intros (Ha & b & [Hb|Hb]%elem_of_app & Hc); [left|right]; eauto.
    + intros [(Ha & b & Hb & Hc)|(Ha & b & Hb & Hc)]; (split; [done|]); exists b;
        rewrite elem_of_app; auto.
  - apply leibniz_equiv. intros a.
    rewrite elem_of_union, !filter_set_on_condition_spec, elem_of_union. split.
    + intros ([Ha|Ha] & Hb); [left|right]; done.
    + intros [(Ha & Hb)|(Ha & Hb)]; auto.
  - apply leibniz_equiv. intros a. rewrite !filter_set_on_condition_spec. split.
    + by intros [? _].
    + intros [Ha Hb]. done.
  - intros Hsame. apply leibniz_equiv. intros a. rewrite !filter_set_on_condition_spec.
    split; intros (Ha & b & Hb & Hc); (split; [done|]); exists b; (split; [|done]);
      by apply Hsame.
Qed.

(** ** Patterns without wildcard and patterns that end in a star *)

Lemma translate_literal_star (p : list ascii) :
  "*"%char ∉ p → "?"%char ∉ p → "["%char ∉ p →
  Py.translate 0 (p ++ ["*"%char]) = (Py.GLit <$> p) ++ [Py.GStar].
Proof.
  induction p as [|c p IH]; intros Hstar Hq Hb; [reflexivity|].
  assert (c ≠ "*"%char ∧ c ≠ "?"%char ∧ c ≠ "["%char) as (H1 & H2 & H3)
    by (repeat split; intros ->; [apply Hstar|apply Hq|apply Hb]; left).
  cbn [app Py.translate fmap list_fmap].
  destruct (Ascii.eqb_spec c "*"); [done|].
  destruct (Ascii.eqb_spec c "?"); [done|].
  destruct (Ascii.eqb_spec c "["); [done|].
  f_equal. apply IH; intros Hin; [apply Hstar|apply Hq|apply Hb]; by right.
Qed.

Lemma glob_match_only_star (s : list ascii) : Py.glob_match [Py.GStar] s = true.
Proof.
  induction s as [|c s IH]; [reflexivity|].
  by apply glob_match_star_more.
Qed.

Lemma glob_match_literal_star (p s : list ascii) :
  Py.glob_match ((Py.GLit <$> p) ++ [Py.GStar]) s = true ↔ ∃ rest, s = p ++ rest.
Proof.
  revert s. induction p as [|c p IH]; intros s.
  - cbn [fmap list_fmap app]. rewrite glob_match_only_star. split; [|done].
    intros _. by exists s.
  - cbn [fmap list_fmap app]. destruct s as [|d s].
    + cbn. split; [done|]. by intros [rest ?].
    + cbn [Py.glob_match Py.token_accepts]. rewrite andb_true_iff, IH. split.
      * intros [Hd [rest ->]]. apply Ascii.eqb_eq in Hd as ->. by exists rest.
      * intros [rest [= -> ->]]. split; [apply Ascii.eqb_refl|by exists rest].
Qed.

(** X21. A stream-id pattern without [*], [?] and [[] selects the stream id it
    spells, when the file has it, and nothing else: for such patterns
    [filter_by_stream_ids] is the exact comparison of
    [filter_by_record_type], the intersection of what is available with what
    is asked for. *)
Theorem filter_by_stream_ids_literal (available_stream_ids : gset string)
    (regex_stream_ids : list string) :
  Forall (λ p, ("*"%char ∉ list_ascii_of_string p) ∧ ("?"%char ∉ list_ascii_of_string p)
               ∧ ("["%char ∉ list_ascii_of_string p)) regex_stream_ids →
  Utils.filter_by_stream_ids available_stream_ids regex_stream_ids
  = available_stream_ids ∩ list_to_set regex_stream_ids
  ∧ Utils.filter_by_record_type available_stream_ids regex_stream_ids
    = available_stream_ids ∩ list_to_set regex_stream_ids.
Proof.
  intros Hlit. rewrite Forall_forall in Hlit.
  split; apply leibniz_equiv; intros a;
    rewrite elem_of_intersection, elem_of_list_to_set;
    [unfold Utils.filter_by_stream_ids|unfold Utils.filter_by_record_type];
    rewrite filter_set_on_condition_spec.
  - split.
    + intros (Ha & b & Hb & Hm). split; [done|].
      destruct (Hlit b Hb) as (H1 & H2 & H3). unfold Py.fnmatch in Hm.
      apply glob_match_literal in Hm; [|done..].
      by apply list_ascii_of_string_inj in Hm as ->.
    + intros [Ha Hin]. split; [done|]. exists a. split; [done|].
      destruct (Hlit a Hin) as (H1 & H2 & H3). unfold Py.fnmatch.
      by apply glob_match_literal.
  - split.
    + intros (Ha & b & Hb & ->%String.eqb_eq). done.
    + intros [Ha Hin]. split; [done|]. exists a. split; [done|apply String.eqb_refl].
Qed.

Lemma filter_by_stream_ids_literal_witness :
  Utils.filter_by_stream_ids {["100-1"; "100-2"; "200-1"]}%string ["100-2"; "300-1"]%string
  = ({["100-1"; "100-2"; "200-1"]} : gset string) ∩ list_to_set ["100-2"; "300-1"]%string
  ∧ Utils.filter_by_record_type {["100-1"; "100-2"; "200-1"]}%string ["100-2"; "300-1"]%string
    = ({["100-1"; "100-2"; "200-1"]} : gset string) ∩ list_to_set ["100-2"; "300-1"]%string.
Proof.
  apply (filter_by_stream_ids_literal {["100-1"; "100-2"; "200-1"]}%string
           ["100-2"; "300-1"]%string).
  repeat constructor; apply (bool_decide_unpack _); vm_compute; exact I.
Defined.

(** X22. The pattern [prefix*], for a prefix without [*], [?] and [[], selects the
    available stream ids that start with the prefix; the pattern [*] selects
    them all. *)
Theorem filter_by_stream_ids_prefix (available_stream_ids : gset string)
    (prefix : string) :
  "*"%char ∉ list_ascii_of_string prefix →
  "?"%char ∉ list_ascii_of_string prefix →
  "["%char ∉ list_ascii_of_string prefix →
  (∀ a, a ∈ Utils.filter_by_stream_ids available_stream_ids [prefix +:+ "*"]
        ↔ a ∈ available_stream_ids ∧ ∃ rest, a = prefix +:+ rest)
  ∧ Utils.filter_by_stream_ids available_stream_ids ["*"%string] = available_stream_ids.
Proof.
  intros Hstar Hq Hb.
  assert (∀ p a, "*"%char ∉ list_ascii_of_string p → "?"%char ∉ list_ascii_of_string p →
            "["%char ∉ list_ascii_of_string p →
            a ∈ Utils.filter_by_stream_ids available_stream_ids [p +:+ "*"]
            ↔ a ∈ available_stream_ids ∧ ∃ rest, a = p +:+ rest) as Hgen.
  { intros p a H1 H2 H3. unfold Utils.filter_by_stream_ids.
    rewrite filter_set_on_condition_spec.
    assert (Py.fnmatch a (p +:+ "*") = true ↔ ∃ rest, a = p +:+ rest) as Hm.
    { unfold Py.fnmatch. rewrite list_ascii_of_string_append.
      change (list_ascii_of_string "*") with ["*"%char].
      rewrite translate_literal_star by done. rewrite glob_match_literal_star. split.
      - intros [rest Hrest]. exists (string_of_list_ascii rest).
        apply list_ascii_of_string_inj.
        by rewrite list_ascii_of_string_append, list_ascii_of_string_of_list_ascii.
      - intros [rest ->]. exists (list_ascii_of_string rest).
        apply list_ascii_of_string_append. }
    split.
    - intros (Ha & b & ->%list_elem_of_singleton & Hc). split; [done|by apply Hm].
    - intros [Ha Hr]. split; [done|]. exists (p +:+ "*"). split; [by left|by apply Hm]. }
  split; [intros a; by apply Hgen|].
  apply leibniz_equiv. intros a.
  rewrite (Hgen EmptyString a); [|by intros ?%elem_of_nil..].
  split; [by intros [? _]|]. intros Ha. split; [done|]. by exists a.
Qed.

Lemma filter_by_stream_ids_prefix_witness :
  (∀ a, a ∈ Utils.filter_by_stream_ids {["1010-1"; "1011-1"; "1011-2"]}%string
              ["1011-" +:+ "*"]%string
        ↔ a ∈ ({["1010-1"; "1011-1"; "1011-2"]}%string : gset string)
          ∧ ∃ rest, a = ("1011-" +:+ rest)%string)
  ∧ Utils.filter_by_stream_ids {["1010-1"; "1011-1"; "1011-2"]}%string ["*"%string]
    = {["1010-1"; "1011-1"; "1011-2"]}%string.
Proof.
  apply (filter_by_stream_ids_prefix {["1010-1"; "1011-1"; "1011-2"]}%string "1011-");
    apply (bool_decide_unpack _); vm_compute; exact I.
Defined.

(** ** The table of the file tags *)

Lemma rjust_length (s : string) (width : nat) :
  String.length (Utils.rjust s width) = Nat.max width (String.length s).
Proof.
  unfold Utils.rjust. rewrite string_length_append.
  rewrite (repeat_string_length " "%char). lia.
Qed.

Lemma repeat_string_replicate (c : ascii) (n : nat) :
  Utils.repeat_string (String c EmptyString) n = string_of_list_ascii (replicate n c).
Proof. induction n as [|n IH]; [done|]. cbn. by rewrite IH. Qed.

Lemma string_append_assoc (s1 s2 s3 : string) :
  ((s1 +:+ s2) +:+ s3 = s1 +:+ s2 +:+ s3)%string.
Proof.
  induction s1 as [|c s1 IH]; [done|].
  change (String c ((s1 +:+ s2) +:+ s3) = String c (s1 +:+ s2 +:+ s3))%string.
  by rewrite IH.
Qed.

Lemma join_snoc (sep : string) (l : list string) (x : string) :
  Utils.join sep (l ++ [x]) = foldr (λ line rest, line +:+ sep +:+ rest) x l.
Proof.
  induction l as [|a l IH]; [done|].
  cbn [app foldr]. rewrite <- IH. cbn [Utils.join]. by destruct (l ++ [x]) eqn:E;
    [destruct l; discriminate|].
Qed.

Lemma center_file_tags (width : nat) :
  Utils.center " FILE TAGS " width "-"
  = (string_of_list_ascii (replicate ((width - 11) / 2)%nat "-"%char) +:+ " FILE TAGS "
     +:+ string_of_list_ascii (replicate (width - 11 - (width - 11) / 2)%nat "-"%char))%string.
Proof.
  unfold Utils.center. change (String.length " FILE TAGS ") with 11%nat.
  assert (Nat.odd (width - 11)%nat && Nat.odd width = false) as ->.
  { destruct (Nat.odd (width - 11)%nat) eqn:Hm; [|done]. cbn.
    apply Nat.odd_spec in Hm as [m Hm].
    destruct (Nat.odd width) eqn:Hw; [|done].
    apply Nat.odd_spec in Hw as [w Hw]. lia. }
  rewrite Nat.add_0_r. by rewrite !(repeat_string_replicate "-"%char).
Qed.

Lemma omap_Forall2 {A B} (g : A → option B) (ks : list A) :
  (∀ k, k ∈ ks → is_Some (g k)) →
  Forall2 (λ k r, g k = Some r) ks (omap g ks).
Proof.
  induction ks as [|k ks IH]; intros Hall; [constructor|].
  destruct (Hall k ltac:(left)) as [r Hr]. cbn. rewrite Hr.
  constructor; [done|]. apply IH. intros k' Hk'. apply Hall. by right.
Qed.

Lemma Forall2_strengthen {A B} (P : A → B → Prop) (Q1 : A → Prop) (Q2 : B → Prop)
    (l1 : list A) (l2 : list B) :
  Forall2 P l1 l2 → (∀ x, x ∈ l1 → Q1 x) → (∀ y, y ∈ l2 → Q2 y) →
  Forall2 (λ x y, P x y ∧ Q1 x ∧ Q2 y) l1 l2.
Proof.
  induction 1 as [|x y l1 l2 Hxy _ IH]; intros H1 H2; constructor.
  - split; [done|]. split; [apply H1|apply H2]; left.
  - apply IH; intros; [apply H1|apply H2]; by right.
Qed.

Lemma string_leb_total : Total (λ a b, String.leb a b = true).
Proof. intros a b. apply String.leb_total. Qed.

(** X24. [tags_to_justified_table_str]: without tags it returns a fixed
    sentence.  Otherwise it returns the lines of a table, each but the last
    followed by a line feed: a header, one row for each tag in the ascending
    order of the tag names, and a footer.  A row is the name, preceded by as
    many spaces as it is shorter than the longest name, then a bar, a space
    and the value, so that the bars of all the rows are in one column; the
    footer is a run of dashes as wide as the widest row; the header is the
    text [ FILE TAGS ] between the dashes that the footer has more than the
    text has characters, half of them, rounded down, on the left. *)
Theorem tags_table_layout (tags : gmap string string) :
  let line_feed := String "010" EmptyString in
  let spaces := λ n : nat, string_of_list_ascii (replicate n " "%char) in
  let dashes := λ n : nat, string_of_list_ascii (replicate n "-"%char) in
  (tags = ∅ → Utils.tags_to_justified_table_str tags = "File contains no file tags."%string)
  ∧ (tags ≠ ∅ →
     ∃ (names rows : list string) (tag_width table_width : nat),
       names ≡ₚ (map_to_list tags).*1
       ∧ Sorted (λ a b, String.leb a b = true) names
       ∧ (∀ name, name ∈ names → (String.length name ≤ tag_width)%nat)
       ∧ (∃ name, name ∈ names ∧ String.length name = tag_width)
       ∧ Forall2 (λ name row,
                    ∃ value, tags !! name = Some value
                      ∧ row = (spaces (tag_width - String.length name)%nat +:+ name
                               +:+ "| " +:+ value)%string
                      ∧ String.get tag_width row = Some "|"%char)
                 names rows
       ∧ (∀ row, row ∈ rows → (String.length row ≤ table_width)%nat)
       ∧ (∃ row, row ∈ rows ∧ String.length row = table_width)
       ∧ Utils.tags_to_justified_table_str tags
         = foldr (λ line rest, line +:+ line_feed +:+ rest)%string
             (dashes table_width)
             ((dashes ((table_width - 11) / 2)%nat +:+ " FILE TAGS "
               +:+ dashes (table_width - 11 - (table_width - 11) / 2)%nat)%string :: rows)).
Proof.
  intros line_feed spaces dashes. split.
  - intros ->. reflexivity.
  - intros Hne. unfold Utils.tags_to_justified_table_str.
    rewrite decide_False by (by rewrite map_size_empty_iff).
    set (keys := (map_to_list tags).*1).
    set (tag_width := max_list (String.length <$> keys)).
    set (content := omap _ (Utils.sorted keys)).
    set (table_width := max_list (String.length <$> content)).
    assert (Utils.sorted keys ≡ₚ keys) as Hperm
      by (unfold Utils.sorted; apply merge_sort_Permutation).
    assert (keys ≠ []) as Hkeys_ne.
    { unfold keys. intros Hnil%fmap_nil_inv. by apply map_to_list_empty_iff in Hnil. }
    assert (∀ k, k ∈ Utils.sorted keys → is_Some (tags !! k)) as Hkeys.
    { intros k Hk. rewrite Hperm in Hk. unfold keys in Hk.
      apply list_elem_of_fmap in Hk as ([k' v] & -> & Hkv).
      apply elem_of_map_to_list in Hkv. by exists v. }
    assert (∀ k, k ∈ Utils.sorted keys → (String.length k ≤ tag_width)%nat) as Hwidth.
    { intros k Hk. rewrite Hperm in Hk. unfold tag_width.
      apply max_list_elem_of_le, list_elem_of_fmap. by exists k. }
    assert (Forall2 (λ k row, ∃ v, tags !! k = Some v
               ∧ row = (Utils.rjust k tag_width +:+ "| " +:+ v)%string)
              (Utils.sorted keys) content) as Hrows.
    { unfold content. eapply Forall2_impl; [apply omap_Forall2|].
      - intros k Hk. destruct (Hkeys k Hk) as [v ->]. by eexists.
      - intros k row Hrow. cbn beta in Hrow.
        destruct (tags !! k) as [v|]; [|discriminate].
        injection Hrow as <-. by exists v. }
    assert (content ≠ []) as Hcontent.
    { intros Hnil. rewrite Hnil in Hrows. apply Forall2_nil_inv_r in Hrows.
      rewrite Hrows in Hperm. by apply Permutation_nil_l in Hperm. }
    exists (Utils.sorted keys), content, tag_width, table_width.
    refine (conj Hperm (conj _ (conj Hwidth (conj _ (conj _ (conj _ (conj _ _))))))).
    + unfold Utils.sorted. apply (@Sorted_merge_sort _ _ _ string_leb_total).
    + assert (tag_width ∈ String.length <$> keys) as Hin
        by (unfold tag_width; by apply max_list_elem_of; destruct keys).
      apply list_elem_of_fmap in Hin as (name & Hlen & Hname).
      exists name. split; [by rewrite Hperm|done].
    + eapply Forall2_impl;
        [apply (Forall2_strengthen _ (λ k, (String.length k ≤ tag_width)%nat)
                  (λ _, True) _ _ Hrows Hwidth (λ _ _, I))|].
      intros k row ((v & Hv & ->) & Hk & _). cbn beta in Hk.
      exists v. split; [done|].
      assert (Utils.rjust k tag_width = (spaces (tag_width - String.length k)%nat +:+ k)%string)
        as Hrjust by (unfold Utils.rjust; by rewrite (repeat_string_replicate " "%char)).
      split.
      * rewrite Hrjust.
        by rewrite string_append_assoc.
      * assert (String.length (Utils.rjust k tag_width) = tag_width) as Hlen
          by (rewrite rjust_length; lia).
        pose proof (append_correct2 (Utils.rjust k tag_width) ("| " +:+ v) 0) as Hget.
        cbn [Nat.add] in Hget. rewrite Hlen in Hget. by rewrite <- Hget.
    + intros row Hrow. unfold table_width.
      apply max_list_elem_of_le, list_elem_of_fmap. by exists row.
    + assert (table_width ∈ String.length <$> content) as Hin
        by (unfold table_width; by apply max_list_elem_of; destruct content).
      apply list_elem_of_fmap in Hin as (row & Hlen & Hrow). by exists row.
    + rewrite app_comm_cons, join_snoc, center_file_tags.
      by rewrite (repeat_string_replicate "-"%char).
Qed.

(** The table of two tags. *)
Example tags_table_of_two_tags :
  Utils.tags_to_justified_table_str
    (<["device" := "headset"]> (<["id" := "7"]> ∅))%string
  = ("-- FILE TAGS --" +:+ Utils.newline
     +:+ "device| headset" +:+ Utils.newline
     +:+ "    id| 7" +:+ Utils.newline
     +:+ "---------------")%string.
Proof. vm_compute. reflexivity. Qed.

(** ** The asynchronous and the synchronous filtered view; neighbours *)

(** X25. An asynchronous filtered view, awaited, reads what the synchronous
    filtered view reads: at an integer position both give the same record or
    raise the same error, and for a slice object both give a slice over the
    same path, store and index list, a fresh asynchronous one that was never
    iterated on the one side, or raise the same error. *)
Theorem async_filtered_view_reads_the_same (view : FilteredVRSReader.t) :
  let path := VRSReader._path (FilteredVRSReader._reader view) in
  let store := VRSReader._reader (FilteredVRSReader._reader view) in
  (∀ k r,
     AsyncFilteredVRSReader.__getitem__ view (VRSReaderSlice.Int k)
       = Ok (AsyncVRSReaderSlice.ARecord r)
     ↔ FilteredVRSReader.__getitem__ view (VRSReaderSlice.Int k)
       = Ok (VRSReaderSlice.ARecord r))
  ∧ (∀ s L,
       AsyncFilteredVRSReader.__getitem__ view (VRSReaderSlice.Slice s)
         = Ok (AsyncVRSReaderSlice.ASlice
                 (AsyncVRSReaderSlice.AsyncVRSReaderSlice path store L None))
       ↔ FilteredVRSReader.__getitem__ view (VRSReaderSlice.Slice s)
         = Ok (VRSReaderSlice.ASlice (VRSReaderSlice.VRSReaderSlice path store L)))
  ∧ (∀ i e,
       AsyncFilteredVRSReader.__getitem__ view i = Raise e
       ↔ FilteredVRSReader.__getitem__ view i = Raise e)
  ∧ (∀ k s, AsyncFilteredVRSReader.__getitem__ view (VRSReaderSlice.Int k)
            ≠ Ok (AsyncVRSReaderSlice.ASlice s))
  ∧ (∀ s r, AsyncFilteredVRSReader.__getitem__ view (VRSReaderSlice.Slice s)
            ≠ Ok (AsyncVRSReaderSlice.ARecord r)).
Proof.
  intros path store.
  unfold AsyncFilteredVRSReader.__getitem__, FilteredVRSReader.__getitem__,
    FilteredVRSReader._read_record, VRSReader._read_record,
    AsyncVRSReaderSlice.async_index_or_slice_records,
    VRSReaderSlice.index_or_slice_records.
  fold path store.
  refine (conj _ (conj _ (conj _ (conj _ _)))).
  - intros k r. destruct (Py.getitem _ k) as [absolute|]; cbn; [|split; discriminate].
    destruct (Bindings.read_record store absolute); cbn; [|split; discriminate].
    split; by intros [= ->].
  - intros s L. destruct (Py.getslice _ s) as [sub|]; cbn; [|split; discriminate].
    split; by intros [= ->].
  - intros [k|s] e.
    + destruct (Py.getitem _ k) as [absolute|]; cbn; [|split; congruence].
      destruct (Bindings.read_record store absolute); cbn; [split; discriminate|split; congruence].
    + destruct (Py.getslice _ s); cbn; [split; discriminate|split; congruence].
  - intros k s. destruct (Py.getitem _ k) as [absolute|]; cbn; [|discriminate].
    destruct (Bindings.read_record store absolute); cbn; discriminate.
  - intros s r. destruct (Py.getslice _ s); cbn; discriminate.
Qed.

(** X26. The neighbour queries of a filtered view take a position of the
    view: a position in [-n <= index < n] (a negative one counts from the
    end) is turned into the absolute index at that position, and the answer
    is the one the unfiltered reader gives for that absolute index; for every
    other position [read_next_record] returns [None] whereas
    [read_prev_record] raises [IndexError]. *)
Theorem filtered_neighbour_queries (view : FilteredVRSReader.t)
    (stream_id record_type : string) (index : Z) :
  let n := FilteredVRSReader.n_records view in
  (index < - n ∨ n ≤ index →
   FilteredVRSReader.read_next_record view stream_id record_type index = Ok None
   ∧ FilteredVRSReader.read_prev_record view stream_id record_type index = Raise IndexError)
  ∧ (- n ≤ index < n →
     ∃ absolute,
       FilteredVRSReader._filtered_indices view
         !! Z.to_nat (if index <? 0 then index + n else index) = Some absolute
       ∧ FilteredVRSReader.read_next_record view stream_id record_type index
         = VRSReader.read_next_record (FilteredVRSReader._reader view)
             stream_id record_type absolute
       ∧ FilteredVRSReader.read_prev_record view stream_id record_type index
         = VRSReader.read_prev_record (FilteredVRSReader._reader view)
             stream_id record_type absolute).
Proof.
  intros n. split.
  - intros Hout. split.
    + by apply filtered_read_next_record_out_of_range.
    + by apply filtered_read_prev_record_out_of_range.
  - intros Hin. unfold FilteredVRSReader.read_next_record, FilteredVRSReader.read_prev_record.
    unfold n, FilteredVRSReader.n_records in *.
    destruct (Z.ltb_spec index 0) as [Hneg|Hpos].
    + rewrite getitem_negative by lia.
      destruct (getitem_nonneg (FilteredVRSReader._filtered_indices view)
                  (index + Z.of_nat (length (FilteredVRSReader._filtered_indices view)))
                  ltac:(lia)) as (absolute & Hl & ->).
      by exists absolute.
    + destruct (getitem_nonneg (FilteredVRSReader._filtered_indices view) index
                  ltac:(lia)) as (absolute & Hl & ->).
      by exists absolute.
Qed.

Lemma filtered_neighbour_queries_witness :
  FilteredVRSReader.read_next_record Sample.view "100-1" "data" 5 = Ok None
  ∧ FilteredVRSReader.read_prev_record Sample.view "100-1" "data" 5 = Raise IndexError.
Proof.
  apply (proj1 (filtered_neighbour_queries Sample.view "100-1" "data" 5)).
  right. change (2 ≤ 5). lia.
Defined.
